(** * SceneSplit front end: budget view, chat upload panel and auth store

    A shallow embedding of the TypeScript of
    [frontend/src/views/BudgetView.vue] (the budget aggregator, the budget
    editor, the summary and the rows of the template),
    [frontend/src/components/AIChatPanel.vue] (the upload validation, the
    conversation and the formatting of the messages),
    [frontend/src/stores/authStore.ts] and the OAuth callback view.

    JavaScript numbers are IEEE 754 binary64 values.  They are modelled by
    [spec_float] of the standard library at precision 53 and maximal
    exponent 1024, with its correctly rounded operations. *)

From Stdlib Require Import ZArith List String Ascii Bool Lia.
From Stdlib Require Import Permutation Sorted.
From Stdlib Require Import Floats.SpecFloat.
From stdpp Require gmap strings.
Import ListNotations.

Local Open Scope string_scope.
Local Open Scope Z_scope.

(** ** Characters and strings

    Strings are sequences of bytes.  Text is ASCII; any other character is
    carried as the bytes of its UTF-8 encoding, and no function of this
    module treats a byte above 127 specially: its white space and its letter
    case are those of ASCII. *)

Module JSString.

Definition code (c : ascii) : Z := Z.of_nat (nat_of_ascii c).

(** [\d] of a regular expression without the unicode flag. *)
Definition is_digit (c : ascii) : bool :=
  (48 <=? code c) && (code c <=? 57).

Definition is_dot (c : ascii) : bool := code c =? 46.

(** The characters that [/[^\d.]/g] does not match. *)
Definition digit_or_dot (c : ascii) : bool := is_digit c || is_dot c.

Definition is_upper (c : ascii) : bool :=
  (65 <=? code c) && (code c <=? 90).

Definition is_lower (c : ascii) : bool :=
  (97 <=? code c) && (code c <=? 122).

(** White space and line terminators of [StrWhiteSpaceChar], among the
    ASCII characters: TAB, LF, VT, FF, CR and SP. *)
Definition is_space (c : ascii) : bool :=
  let n := code c in
  ((9 <=? n) && (n <=? 13)) || (n =? 32).

Definition to_upper_char (c : ascii) : ascii :=
  if is_lower c then ascii_of_nat (nat_of_ascii c - 32) else c.

Definition to_lower_char (c : ascii) : ascii :=
  if is_upper c then ascii_of_nat (nat_of_ascii c + 32) else c.

Fixpoint map_string (f : ascii -> ascii) (s : string) : string :=
  match s with
  | EmptyString => EmptyString
  | String c r => String (f c) (map_string f r)
  end.

(** [String.prototype.toLowerCase], on the letters A to Z. *)
Definition toLowerCase (s : string) : string := map_string to_lower_char s.

Fixpoint filter_string (p : ascii -> bool) (s : string) : string :=
  match s with
  | EmptyString => EmptyString
  | String c r => if p c then String c (filter_string p r) else filter_string p r
  end.

Fixpoint forallb_string (p : ascii -> bool) (s : string) : bool :=
  match s with
  | EmptyString => true
  | String c r => p c && forallb_string p r
  end.

Fixpoint drop_while (p : ascii -> bool) (s : string) : string :=
  match s with
  | EmptyString => EmptyString
  | String c r => if p c then drop_while p r else s
  end.

(** Removes the characters satisfying [p] at the end of [s]. *)
Fixpoint drop_while_end (p : ascii -> bool) (s : string) : string :=
  match s with
  | EmptyString => EmptyString
  | String c r =>
      match drop_while_end p r with
      | EmptyString => if p c then EmptyString else String c EmptyString
      | r' => String c r'
      end
  end.

Definition trim (s : string) : string :=
  drop_while_end is_space (drop_while is_space s).

(** The longest prefix of characters satisfying [p], and the rest. *)
Fixpoint span (p : ascii -> bool) (s : string) : string * string :=
  match s with
  | EmptyString => (EmptyString, EmptyString)
  | String c r =>
      if p c then let '(a, b) := span p r in (String c a, b)
      else (EmptyString, s)
  end.

Definition is_empty (s : string) : bool :=
  match s with EmptyString => true | _ => false end.

(** [s.split(sep)] for a one-character separator: never empty. *)
Fixpoint split_on (sep : ascii) (s : string) : list string :=
  match s with
  | EmptyString => [EmptyString]
  | String c r =>
      if Ascii.eqb c sep then EmptyString :: split_on sep r
      else match split_on sep r with
           | [] => [String c EmptyString]
           | x :: xs => String c x :: xs
           end
  end.

Definition string_of_list (l : list ascii) : string :=
  fold_right String EmptyString l.

End JSString.

(** ** Numbers *)

Module JSNumber.
Import JSString.

Definition prec : Z := 53.
Definition emax : Z := 1024.

Definition number := spec_float.

Definition nan : number := S754_nan.
Definition pos_zero : number := S754_zero false.
Definition pos_infinity : number := S754_infinity false.

Definition add (x y : number) : number := SFadd prec emax x y.
Definition sub (x y : number) : number := SFsub prec emax x y.
Definition mul (x y : number) : number := SFmul prec emax x y.
Definition div (x y : number) : number := SFdiv prec emax x y.

(** [x < y], [x > y] and [x === y] on numbers; false when one is NaN. *)
Definition ltb (x y : number) : bool := SFltb x y.
Definition gtb (x y : number) : bool := SFltb y x.
Definition leb (x y : number) : bool := SFleb x y.
Definition strict_eqb (x y : number) : bool := SFeqb x y.

Definition isNaN (x : number) : bool :=
  match x with S754_nan => true | _ => false end.

(** The number nearest to [m * 10 ^ e10] (ties to even), with sign
    [neg]: the rounding of [StringToNumber]. *)
Definition of_decimal (neg : bool) (m : Z) (e10 : Z) : number :=
  match m with
  | Zpos p =>
      if 0 <=? e10
      then SFdiv prec emax (S754_finite neg (p * Z.to_pos (10 ^ e10)) 0)
                           (S754_finite false 1 0)
      else SFdiv prec emax (S754_finite neg p 0)
                           (S754_finite false (Z.to_pos (10 ^ (- e10))) 0)
  | _ => S754_zero neg
  end.

Definition of_Z (z : Z) : number := of_decimal (z <? 0) (Z.abs z) 0.


(** *** [StringToNumber] *)

Definition digit_value (c : ascii) : option Z :=
  let n := code c in
  if is_digit c then Some (n - 48)
  else if (97 <=? n) && (n <=? 102) then Some (n - 87)
  else if (65 <=? n) && (n <=? 70) then Some (n - 55)
  else None.

(** The value of a numeral in base [radix], or [None] when a character is
    not a digit of that base. *)
Fixpoint radix_value (radix acc : Z) (s : string) : option Z :=
  match s with
  | EmptyString => Some acc
  | String c r =>
      match digit_value c with
      | Some d => if d <? radix then radix_value radix (acc * radix + d) r else None
      | None => None
      end
  end.

(** [ExponentPart], or nothing; [None] when malformed. *)
Definition parse_exponent (s : string) : option Z :=
  match s with
  | EmptyString => Some 0
  | String c r =>
      if (code c =? 101) || (code c =? 69) then
        let '(neg, d) :=
          match r with
          | String "+" d => (false, d)
          | String "-" d => (true, d)
          | _ => (false, r)
          end in
        if is_empty d then None
        else match radix_value 10 0 d with
             | Some v => Some (if neg then - v else v)
             | None => None
             end
      else None
  end.

Definition StrUnsignedDecimalLiteral (neg : bool) (s : string) : number :=
  if String.eqb s "Infinity" then S754_infinity neg
  else
    let '(ip, r1) := span is_digit s in
    let '(fp, r2) :=
      match r1 with
      | String "." r => span is_digit r
      | _ => (EmptyString, r1)
      end in
    if is_empty ip && is_empty fp then nan
    else match radix_value 10 0 (ip ++ fp), parse_exponent r2 with
         | Some m, Some e => of_decimal neg m (e - Z.of_nat (String.length fp))
         | _, _ => nan
         end.

(** [0x], [0o] and [0b] literals; [None] when [s] has no such prefix. *)
Definition NonDecimalIntegerLiteral (s : string) : option number :=
  match s with
  | String "0" (String p r) =>
      let radix :=
        if (code p =? 120) || (code p =? 88) then Some 16
        else if (code p =? 111) || (code p =? 79) then Some 8
        else if (code p =? 98) || (code p =? 66) then Some 2
        else None in
      match radix with
      | Some b =>
          Some (if is_empty r then nan
                else match radix_value b 0 r with
                     | Some v => of_decimal false v 0
                     | None => nan
                     end)
      | None => None
      end
  | _ => None
  end.

(** [Number(s)] for a string [s]. *)
Definition StringToNumber (s : string) : number :=
  let t := trim s in
  if is_empty t then pos_zero
  else match NonDecimalIntegerLiteral t with
       | Some x => x
       | None =>
           match t with
           | String "+" r => StrUnsignedDecimalLiteral false r
           | String "-" r => StrUnsignedDecimalLiteral true r
           | _ => StrUnsignedDecimalLiteral false t
           end
       end.

(** Digits with at most one point and at least one digit: what
    [StringToNumber] reads among the strings of digits and points. *)
Definition unsigned_decimal (t : string) : bool :=
  let '(ip, r) := span is_digit t in
  match r with
  | EmptyString => negb (is_empty ip)
  | String c f =>
      is_dot c && forallb_string is_digit f && negb (is_empty ip && is_empty f)
  end.

(** *** Number to string *)

Fixpoint repeat_char (c : ascii) (n : nat) : string :=
  match n with
  | O => EmptyString
  | S k => String c (repeat_char c k)
  end.

Definition digit_char (d : Z) : ascii := ascii_of_nat (Z.to_nat (48 + d)).

(** The digits of [n] from the last one on, put before [acc]. *)
Fixpoint digits_acc (fuel : nat) (n : Z) (acc : string) : string :=
  match fuel with
  | O => acc
  | S f =>
      let acc' := String (digit_char (n mod 10)) acc in
      if n <? 10 then acc' else digits_acc f (n / 10) acc'
  end.

(** The decimal digits of a natural number; ["0"] for zero. *)
Definition digits_of_Z (n : Z) : string :=
  digits_acc (S (Z.to_nat (Z.log2 n))) n EmptyString.

Definition digits10 (n : Z) : Z := Z.of_nat (String.length (digits_of_Z n)).

Fixpoint take_string (n : nat) (s : string) : string :=
  match n, s with
  | S k, String c r => String c (take_string k r)
  | _, _ => EmptyString
  end.

Fixpoint skip_string (n : nat) (s : string) : string :=
  match n, s with
  | S k, String c r => skip_string k r
  | _, _ => s
  end.

(** A positive finite number [m * 2 ^ e] as a fraction. *)
Definition fraction_of (m : positive) (e : Z) : Z * Z :=
  if 0 <=? e then (Zpos m * 2 ^ e, 1) else (Zpos m, 2 ^ (- e)).

(** The [n] with [10 ^ (n - 1) <= num / den < 10 ^ n]. *)
Definition decimal_exponent (num den : Z) : Z :=
  if den <=? num then digits10 (num / den)
  else 1 - digits10 ((den + num - 1) / num - 1).

Definition same_number (x y : number) : bool :=
  match x, y with
  | S754_finite s1 m1 e1, S754_finite s2 m2 e2 =>
      Bool.eqb s1 s2 && Pos.eqb m1 m2 && Z.eqb e1 e2
  | S754_zero s1, S754_zero s2 => Bool.eqb s1 s2
  | S754_infinity s1, S754_infinity s2 => Bool.eqb s1 s2
  | _, _ => false
  end.

(** Twice the distance from [s * 10 ^ t] to [num / den], times [den] and a
    power of ten: only used to compare two candidates. *)
Definition scaled_distance (num den s t : Z) : Z :=
  if 0 <=? t then Z.abs (num - s * 10 ^ t * den)
  else Z.abs (num * 10 ^ (- t) - s * den).

(** The candidates with [k] digits for the shortest decimal that reads back
    as [x]: the digits [s] and the exponent [n]. *)
Definition shortest_candidate (x : number) (num den n k : Z) : option (Z * Z) :=
  let t := n - k in
  let lo := if 0 <=? t then num / (10 ^ t * den) else (num * 10 ^ (- t)) / den in
  let hi := lo + 1 in
  let ok_lo := same_number (of_decimal false lo t) x in
  let ok_hi := same_number (of_decimal false hi t) x in
  let pick_hi := if hi =? 10 ^ k then (10 ^ (k - 1), n + 1) else (hi, n) in
  match ok_lo, ok_hi with
  | true, true =>
      if scaled_distance num den hi t <? scaled_distance num den lo t
      then Some pick_hi else Some (lo, n)
  | true, false => Some (lo, n)
  | false, true => Some pick_hi
  | false, false => None
  end.

Fixpoint shortest_search (x : number) (num den n : Z) (ks : list Z) : Z * Z * Z :=
  match ks with
  | [] => (17, num * 10 ^ 17 / den, 17)
  | k :: rest =>
      match shortest_candidate x num den n k with
      | Some (s, n') => (k, s, n')
      | None => shortest_search x num den n rest
      end
  end.

(** [Number::toString] in base ten, for a positive finite number. *)
Definition positive_to_string (m : positive) (e : Z) : string :=
  let '(num, den) := fraction_of m e in
  let n0 := decimal_exponent num den in
  let '(k, s, n) :=
    shortest_search (S754_finite false m e) num den n0
      [1; 2; 3; 4; 5; 6; 7; 8; 9; 10; 11; 12; 13; 14; 15; 16; 17] in
  let ds := digits_of_Z s in
  if (k <=? n) && (n <=? 21) then
    ds ++ repeat_char "0" (Z.to_nat (n - k))
  else if (0 <? n) && (n <=? 21) then
    take_string (Z.to_nat n) ds ++ "." ++ skip_string (Z.to_nat n) ds
  else if (-6 <? n) && (n <=? 0) then
    "0." ++ repeat_char "0" (Z.to_nat (- n)) ++ ds
  else
    let ex := (if n - 1 <? 0 then "-" else "+") ++ digits_of_Z (Z.abs (n - 1)) in
    if k =? 1 then ds ++ "e" ++ ex
    else take_string 1 ds ++ "." ++ skip_string 1 ds ++ "e" ++ ex.

(** [String(x)], [x.toString()] and a number in a template literal. *)
Definition numberToString (x : number) : string :=
  match x with
  | S754_nan => "NaN"
  | S754_zero _ => "0"
  | S754_infinity s => if s then "-Infinity" else "Infinity"
  | S754_finite s m e =>
      (if s then "-" else "") ++ positive_to_string m e
  end.

(** [x.toFixed(f)]: the integer [n] nearest to [x * 10 ^ f], the larger
    one of two, written with [f] digits after the point. *)
Definition round_half_up_scaled (m : positive) (e : Z) (f : Z) : Z :=
  if 0 <=? e then Zpos m * 2 ^ e * 10 ^ f
  else (2 * Zpos m * 10 ^ f + 2 ^ (- e)) / (2 * 2 ^ (- e)).

Definition fixed_string (n : Z) (f : nat) : string :=
  let ds := digits_of_Z n in
  let k := String.length ds in
  let ds := if Nat.leb k f then repeat_char "0" (f + 1 - k) ++ ds else ds in
  let k := String.length ds in
  match f with
  | O => ds
  | _ => take_string (k - f) ds ++ "." ++ skip_string (k - f) ds
  end.

Definition at_least_1e21 (m : positive) (e : Z) : bool :=
  let '(num, den) := fraction_of m e in 10 ^ 21 * den <=? num.

Definition toFixed (x : number) (f : nat) : string :=
  match x with
  | S754_nan => "NaN"
  | S754_zero _ => fixed_string 0 f
  | S754_infinity s => if s then "-Infinity" else "Infinity"
  | S754_finite s m e =>
      (if s then "-" else "") ++
      (if at_least_1e21 m e then positive_to_string m e
       else fixed_string (round_half_up_scaled m e (Z.of_nat f)) f)
  end.


(** *** Exact values *)

(** The exponent of the least positive number, [2 ^ -1074]. *)
Definition emin : Z := SpecFloat.emin prec emax.

(** The exact value of a finite number, counted in multiples of the least
    positive number: an integer for every exponent from [emin] on, which
    all results of the operations have. *)
Definition units (x : number) : Z :=
  match x with
  | S754_finite s m e => cond_Zopp s (Zpos m * 2 ^ (e - emin))
  | _ => 0
  end.

(** [x <= y] on exact values, with the infinities at both ends; false
    when one is NaN. *)
Definition value_leb (x y : number) : bool :=
  match x, y with
  | S754_nan, _ | _, S754_nan => false
  | S754_infinity true, _ => true
  | _, S754_infinity false => true
  | S754_infinity false, _ => false
  | _, S754_infinity true => false
  | _, _ => units x <=? units y
  end.

Definition same_value (x y : number) : bool :=
  value_leb x y && value_leb y x.

(** *** Shapes of numbers *)

(** Exponents at or above the least one: [units] is then exact. *)
Definition well_formed (x : number) : Prop :=
  match x with
  | S754_finite _ _ e => emin <= e
  | _ => True
  end.

(** NaN, or a number whose sign bit is clear. *)
Definition sign_clear (x : number) : Prop :=
  match x with
  | S754_nan => True
  | S754_zero s | S754_infinity s | S754_finite s _ _ => s = false
  end.

(** A number that passes the filter [percent > 0] and whose exponent is
    at or above the least one. *)
Definition positive_number (x : number) : Prop :=
  gtb x pos_zero = true /\ well_formed x.

(** What a rounding returns. *)
Inductive rounded (sx : bool) (positive_input : Prop) : number -> Prop :=
| rounded_zero : ~ positive_input -> rounded sx positive_input (S754_zero sx)
| rounded_infinity : rounded sx positive_input (S754_infinity sx)
| rounded_finite m e : emin <= e -> rounded sx positive_input (S754_finite sx m e).

(** Exponents at or above the least one, significands of at most 53 bits. *)
Definition canonical (x : number) : Prop :=
  match x with
  | S754_finite _ m e => emin <= e /\ Zdigits2 (Zpos m) <= prec
  | _ => True
  end.

(** What a rounding of [m2 * 2 ^ e2] to the format returns, [m2] being
    the significand after the rounding step. *)
Inductive rounds_to (sx : bool) (m2 e2 : Z) : number -> Prop :=
| rounds_zero : m2 = 0 -> rounds_to sx m2 e2 (S754_zero sx)
| rounds_overflow :
    0 < m2 -> 2 ^ (emax - prec + 1 - emin) <= m2 * 2 ^ (e2 - emin) ->
    rounds_to sx m2 e2 (S754_infinity sx)
| rounds_finite m3 e3 :
    emin <= e3 -> Zdigits2 (Zpos m3) <= prec ->
    Zpos m3 * 2 ^ (e3 - emin) = m2 * 2 ^ (e2 - emin) ->
    rounds_to sx m2 e2 (S754_finite sx m3 e3).

Definition not_minus (c : ascii) : bool := negb (code c =? 45).

(** *** [toLocaleString] for the locale en-US

    The default number format of ECMA-402: at most three digits after the
    point, ties away from zero, groups of three digits separated by
    commas. *)

Fixpoint group_from_right (ds : list ascii) (count : nat) (acc : list ascii)
    : list ascii :=
  match ds with
  | [] => acc
  | d :: r =>
      match count with
      | 3%nat => group_from_right r 1 (d :: "," :: acc)%char
      | _ => group_from_right r (S count) (d :: acc)
      end
  end.

Definition group_thousands (ds : string) : string :=
  string_of_list (group_from_right (rev (list_ascii_of_string ds)) 0 []).

Definition strip_trailing_zeros (s : string) : string :=
  drop_while_end (fun c => code c =? 48) s.

Definition toLocaleString_enUS (x : number) : string :=
  match x with
  | S754_nan => "NaN"
  | S754_zero s => if s then "-0" else "0"
  | S754_infinity s => if s then "-∞" else "∞"
  | S754_finite s m e =>
      let n := round_half_up_scaled m e 3 in
      let fd := digits_of_Z (n mod 1000) in
      let frac :=
        strip_trailing_zeros (repeat_char "0" (3 - String.length fd) ++ fd) in
      (if s then "-" else "") ++ group_thousands (digits_of_Z (n / 1000))
      ++ (if is_empty frac then "" else "." ++ frac)
  end.

End JSNumber.

(** ** Objects used as tables *)

Module JSObject.
Import JSString.

(** What a property read on an object literal with string values yields:
    a string of the literal, or a member inherited from
    [Object.prototype], named by its key (distinct keys name distinct
    objects). *)
Inductive value :=
| Str (s : string)
| Inherited (k : string).

Definition value_eqb (a b : value) : bool :=
  match a, b with
  | Str x, Str y => String.eqb x y
  | Inherited x, Inherited y => String.eqb x y
  | _, _ => false
  end.

Definition truthy (v : value) : bool :=
  match v with
  | Str s => negb (is_empty s)
  | Inherited _ => true
  end.

Definition object_prototype_keys : list string :=
  ["constructor"; "__defineGetter__"; "__defineSetter__"; "hasOwnProperty";
   "__lookupGetter__"; "__lookupSetter__"; "isPrototypeOf";
   "propertyIsEnumerable"; "toString"; "valueOf"; "__proto__";
   "toLocaleString"].

(** An object with string values, as its entries in the order of
    [Object.keys], [Object.values] and [Object.entries]. *)
Definition table := list (string * string).

Fixpoint lookup (key : string) (t : table) : option string :=
  match t with
  | [] => None
  | (k, v) :: r => if String.eqb k key then Some v else lookup key r
  end.

(** [t[key]] for an object literal [t]; [None] is [undefined]. *)
Definition get (t : table) (key : string) : option value :=
  match lookup key t with
  | Some v => Some (Str v)
  | None =>
      if existsb (String.eqb key) object_prototype_keys
      then Some (Inherited key) else None
  end.

(** [a || b] where [a] is a property read. *)
Definition or_else (a : option value) (b : value) : value :=
  match a with
  | Some v => if truthy v then v else b
  | None => b
  end.

(** Array indices are the canonical numerals up to [2 ^ 32 - 2]; an object
    lists them first, in ascending order, before its other keys. *)
Definition array_index (k : string) : option Z :=
  if is_empty k || negb (forallb_string is_digit k) then None
  else if String.eqb k "0" then Some 0
  else match k with
       | String "0" _ => None
       | _ => if (String.length k <=? 10)%nat then
                match JSNumber.radix_value 10 0 k with
                | Some n => if n <=? 2 ^ 32 - 2 then Some n else None
                | None => None
                end
              else None
       end.

Fixpoint replace (key v : string) (t : table) : table :=
  match t with
  | [] => []
  | (k, w) :: r =>
      if String.eqb k key then (k, v) :: r else (k, w) :: replace key v r
  end.

Fixpoint insert_index (i : Z) (key v : string) (t : table) : table :=
  match t with
  | [] => [(key, v)]
  | (k, w) :: r =>
      match array_index k with
      | Some j => if j <? i then (k, w) :: insert_index i key v r
                  else (key, v) :: t
      | None => (key, v) :: t
      end
  end.

(** [t[key] = v]: an existing key keeps its place, a new one is added. *)
Definition set (key v : string) (t : table) : table :=
  match lookup key t with
  | Some _ => replace key v t
  | None =>
      match array_index key with
      | Some i => insert_index i key v t
      | None => (t ++ [(key, v)])%list
      end
  end.

End JSObject.

(** ** The budget view *)

Module BudgetView.
Import JSString JSNumber JSObject.

(** The [budget] object of a script breakdown: category key to currency
    string. *)
Definition budget := table.

Record ScriptBreakdown := { sb_budget : option budget }.

Record AnalysisData := { script_breakdown : option ScriptBreakdown }.

(** The fields of [Project] that the budget view reads or writes. *)
Record Project := {
  title : string;
  scriptBreakdown : option ScriptBreakdown;
  analysis_data : option AnalysisData
}.

(** [project.scriptBreakdown?.budget] *)
Definition project_budget (p : Project) : option budget :=
  match scriptBreakdown p with
  | Some sb => sb_budget sb
  | None => None
  end.

(** [project.analysis_data?.script_breakdown?.budget] *)
Definition analysis_budget (p : Project) : option budget :=
  match analysis_data p with
  | Some ad =>
      match script_breakdown ad with
      | Some sb => sb_budget sb
      | None => None
      end
  | None => None
  end.

(** One record of the displayed breakdown. *)
Record Category := {
  name : value;
  amount : string;
  percent : number;
  color : value
}.

(** [parseRM]: the value is a string here. *)
Definition parseRM (val : string) : number :=
  if is_empty val then pos_zero
  else StringToNumber (filter_string digit_or_dot val).

Definition categoryColors : table :=
  [("talent", "#00C6FB"); ("location", "#FFD233"); ("propsSet", "#3DD65B");
   ("wardrobeMakeup", "#A259FF"); ("sfxVfx", "#FF6B6B"); ("crew", "#FF9900");
   ("miscellaneous", "#FFB300")].

Definition nameMap : table :=
  [("talent", "Talent"); ("location", "Location"); ("propsSet", "Props & Set");
   ("wardrobeMakeup", "Wardrobe & Makeup"); ("sfxVfx", "SFX & VFX");
   ("crew", "Crew"); ("miscellaneous", "Miscellaneous")].

(** [key.replace(/([A-Z])/g, ' $1')] *)
Fixpoint space_before_upper (s : string) : string :=
  match s with
  | EmptyString => EmptyString
  | String c r =>
      if is_upper c then String " " (String c (space_before_upper r))
      else String c (space_before_upper r)
  end.

(** [s.replace(/^./, s => s.toUpperCase())]: the dot matches no line
    terminator.  The letter case is that of ASCII, so this is the code's
    result for a text that starts with an ASCII character; what is proved of
    the names of keys beyond that is stated for keys of ASCII characters. *)
Definition upper_first (s : string) : string :=
  match s with
  | EmptyString => EmptyString
  | String c r =>
      if (code c =? 10) || (code c =? 13) then s
      else String (to_upper_char c) r
  end.

Definition formatCategoryName (key : string) : value :=
  or_else (get nameMap key) (Str (upper_first (space_before_upper key))).

(** [Array.prototype.sort] with a comparison function: a stable sort,
    where [x] goes after [y] when [cmp x y > 0]. *)
Section Sort.
Context {A : Type} (cmp : A -> A -> number).

Fixpoint insert_sorted (x : A) (l : list A) : list A :=
  match l with
  | [] => [x]
  | y :: r =>
      if gtb (cmp x y) pos_zero then y :: insert_sorted x r else x :: l
  end.

Definition sort (l : list A) : list A := fold_right insert_sorted [] l.
End Sort.

Section ByKey.
Context {A : Type} (key : A -> number).

(** The comparison function [(a, b) => key(b) - key(a)]. *)
Definition descending (a b : A) : number := sub (key b) (key a).

(** [a] may stand before [b]: the key of [b] is not greater. *)
Definition precedes (a b : A) : Prop := value_leb (key b) (key a) = true.

Definition keyed (a : A) : Prop := positive_number (key a).
End ByKey.

Definition hundred : number := of_Z 100.

(** [Object.values(budgetObj).map(v => parseRM(v)).reduce((a, b) => a + b, 0)] *)
Definition total_of (budgetObj : budget) : number :=
  fold_left add (map parseRM (map snd budgetObj)) pos_zero.

Section Locale.
(** [Number.prototype.toLocaleString] in the locale of the browser. *)
Variable toLocaleString : number -> string.

Definition category_of (total : number) (entry : string * string) : Category :=
  let '(key, val) := entry in
  let amount := parseRM val in
  {| name := formatCategoryName key;
     amount := "RM " ++ toLocaleString amount;
     percent := StringToNumber (toFixed (mul (div amount total) hundred) 1);
     color := or_else (get categoryColors key) (Str "#888888") |}.

(** The categories before the sort: one per entry, those with a
    positive percent kept. *)
Definition candidates (b : budget) : list Category :=
  filter (fun item => gtb (percent item) pos_zero)
    (map (category_of (total_of b)) b).

Definition breakdown_of (budgetObj : budget) : list Category :=
  let total := total_of budgetObj in
  if strict_eqb total pos_zero then []
  else
    sort (fun a b => sub (percent b) (percent a))
      (filter (fun item => gtb (percent item) pos_zero)
         (map (category_of total) budgetObj)).

(** The computed [breakdown] of the selected project. *)
Definition breakdown (selectedProject : option Project) : list Category :=
  match selectedProject with
  | Some project =>
      match project_budget project with
      | Some budgetObj => breakdown_of budgetObj
      | None => []
      end
  | None => []
  end.
End Locale.

(** *** Budget editing *)

(** The value of [editAmount]: a string, or the number that [v-model]
    stores for an input of type number. *)
Inductive input_value :=
| InStr (s : string)
| InNum (x : number).

Definition Number (v : input_value) : number :=
  match v with
  | InStr s => StringToNumber s
  | InNum x => x
  end.

Record State := {
  projects : list Project;
  selectedProjectTitle : string;
  editingCategory : option Category;
  editAmount : input_value
}.

(** [projects.value.find(p => p.title === selectedProjectTitle.value)] *)
Definition selectedProject (st : State) : option Project :=
  find (fun p => String.eqb (title p) (selectedProjectTitle st)) (projects st).

Definition editBudgetCategory (category : Category) (st : State) : State :=
  {| projects := projects st;
     selectedProjectTitle := selectedProjectTitle st;
     editingCategory := Some category;
     editAmount := InStr (numberToString (parseRM (amount category))) |}.

(** [Object.keys(budget).find(key => formatCategoryName(key) === name)] *)
Definition find_category_key (b : budget) (nm : value) : option string :=
  find (fun key => value_eqb (formatCategoryName key) nm) (map fst b).

Definition set_sb_budget (key v : string) (sb : ScriptBreakdown) : ScriptBreakdown :=
  {| sb_budget := option_map (set key v) (sb_budget sb) |}.

(** The two assignments of [saveBudgetEdit] on the project object. *)
Definition write_budget (key v : string) (p : Project) : Project :=
  {| title := title p;
     scriptBreakdown := option_map (set_sb_budget key v) (scriptBreakdown p);
     analysis_data :=
       option_map
         (fun ad => {| script_breakdown :=
                         option_map (set_sb_budget key v) (script_breakdown ad) |})
         (analysis_data p) |}.

(** The selected project is an element of the store's array: writing to
    it changes that element. *)
Fixpoint update_selected (sel : string) (f : Project -> Project)
    (ps : list Project) : list Project :=
  match ps with
  | [] => []
  | p :: r =>
      if String.eqb (title p) sel then f p :: r
      else p :: update_selected sel f r
  end.

Definition close_editor (ps : list Project) (st : State) : State :=
  {| projects := ps;
     selectedProjectTitle := selectedProjectTitle st;
     editingCategory := None;
     editAmount := InStr "" |}.

(** [saveBudgetEdit]: the state after it, and the alerts it shows. *)
Definition saveBudgetEdit (st : State) : State * list string :=
  match editingCategory st, selectedProject st with
  | Some category, Some project =>
      let newAmount := Number (editAmount st) in
      if isNaN newAmount || ltb newAmount pos_zero then
        (st, ["Please enter a valid amount"])
      else
        match project_budget project with
        | Some b =>
            match find_category_key b (name category) with
            | Some categoryKey =>
                if is_empty categoryKey then (close_editor (projects st) st, [])
                else
                  let v := "RM " ++ numberToString newAmount in
                  (close_editor
                     (update_selected (selectedProjectTitle st)
                        (write_budget categoryKey v) (projects st)) st, [])
            | None => (close_editor (projects st) st, [])
            end
        | None => (close_editor (projects st) st, [])
        end
  | _, _ => (st, [])
  end.

Definition cancelBudgetEdit (st : State) : State :=
  close_editor (projects st) st.

End BudgetView.

(** ** The chat panel: uploading a script *)

Module ChatPanel.
Import JSString JSNumber.

(** The [name] and [type] of a [File]. *)
Record File := { file_name : string; file_type : string }.

Inductive Sender := user | ai.

Record Action := { label : string; action : string }.

Record ChatMessage := {
  id : string;
  type : Sender;
  content : string;
  timestamp : Z;
  actions : option (list Action)
}.

(** The lengths read from the response of the analysis, [None] where
    [data.script_breakdown?.x?.length] is undefined. *)
Record UploadResponse := {
  scenes_length : option Z;
  characters_length : option Z;
  locations_length : option Z;
  props_length : option Z
}.

(** The reactive state of the panel, and the files handed to
    [uploadScriptFile] so far. *)
Record State := {
  messages : list ChatMessage;
  isLoading : bool;
  requests : list File
}.

(** One reading of the clock: [Date.now()] and [new Date()]. *)
Record Clock := { date_now : Z; new_date : Z }.

Definition allowedTypes : list string :=
  ["application/pdf"; "text/plain"; "text/x-fountain"].

Definition allowedExtensions : list string :=
  [".pdf"; ".txt"; ".fountain"; ".fdx"].

(** [xs.includes(x)] *)
Definition includes (xs : list string) (x : string) : bool :=
  existsb (String.eqb x) xs.

(** ['.' + file.name.split('.').pop()?.toLowerCase()] *)
Definition fileExtension (file : File) : string :=
  "." ++ toLowerCase (last (split_on "." (file_name file)) EmptyString).

Definition accepted (file : File) : bool :=
  includes allowedTypes (file_type file)
  || includes allowedExtensions (fileExtension file).

Definition push (m : ChatMessage) (st : State) : State :=
  {| messages := (messages st ++ [m])%list;
     isLoading := isLoading st;
     requests := requests st |}.

Definition set_loading (b : bool) (st : State) : State :=
  {| messages := messages st; isLoading := b; requests := requests st |}.

Definition record_request (f : File) (st : State) : State :=
  {| messages := messages st;
     isLoading := isLoading st;
     requests := (requests st ++ [f])%list |}.

Definition message (c : Clock) (t : Sender) (text : string)
    (acts : option (list Action)) : ChatMessage :=
  {| id := numberToString (of_Z (date_now c));
     type := t;
     content := text;
     timestamp := new_date c;
     actions := acts |}.

Definition unsupported_format_text : string :=
  "Please upload a valid script file (PDF, TXT, or FDX format).".

Definition analysis_failed_text : string :=
  "I encountered an error while analyzing your script. Please make sure the file is valid and try again.".

Definition quote : string := String "034" EmptyString.
Definition newline : string := String "010" EmptyString.
Definition bullet : string := "•".

(** [n || 0] written in a template literal. *)
Definition count_text (n : option Z) : string :=
  match n with
  | Some k => numberToString (of_Z k)
  | None => "0"
  end.

Definition analysis_text (file : File) (data : UploadResponse) : string :=
  "Great! I've analyzed your script " ++ quote ++ file_name file ++ quote
  ++ ". Here's what I found:" ++ newline ++ newline
  ++ bullet ++ " **" ++ count_text (scenes_length data) ++ " scenes** identified" ++ newline
  ++ bullet ++ " **" ++ count_text (characters_length data) ++ " characters** found" ++ newline
  ++ bullet ++ " **" ++ count_text (locations_length data) ++ " locations** detected" ++ newline
  ++ bullet ++ " **" ++ count_text (props_length data) ++ " props** identified" ++ newline ++ newline
  ++ "The script analysis is complete! You can now view the detailed breakdown in the main interface.".

Section Upload.
(** The request to the analysis service; [None] when it fails. *)
Variable uploadScriptFile : File -> option UploadResponse.

(** [uploadFile]; [c1] and [c2] are the clock readings at the first and
    at the second message it creates. *)
Definition uploadFile (c1 c2 : Clock) (file : File) (st : State) : State :=
  if negb (includes allowedTypes (file_type file))
     && negb (includes allowedExtensions (fileExtension file))
  then push (message c1 ai unsupported_format_text None) st
  else
    let st1 := set_loading true (push (message c1 user
                 ("Uploaded script file: " ++ file_name file) None) st) in
    let st2 := record_request file st1 in
    let st3 :=
      match uploadScriptFile file with
      | Some data =>
          push (message c2 ai (analysis_text file data)
                  (Some [ {| label := "View Full Analysis"; action := "view-analysis" |};
                          {| label := "Generate Budget"; action := "generate-budget" |} ]))
               st2
      | None => push (message c2 ai analysis_failed_text None) st2
      end in
    set_loading false st3.
End Upload.

End ChatPanel.

(** ** The auth store *)

Module AuthStore.
Import JSString.
Import stdpp.base stdpp.gmap stdpp.strings.

Record User := {
  id : string;
  username : string;
  email : string;
  full_name : option string;
  oauth_provider : option string;
  is_verified : bool;
  profile_picture_url : option string;
  created_at : string
}.

(** [Partial<User>]: the fields that are given. *)
Record PartialUser := {
  p_id : option string;
  p_username : option string;
  p_email : option string;
  p_full_name : option string;
  p_oauth_provider : option string;
  p_is_verified : option bool;
  p_profile_picture_url : option string;
  p_created_at : option string
}.

(** The two refs of the store, and the browser's [localStorage]. *)
Record Store := {
  accessToken : option string;
  user : option User;
  localStorage : gmap string string
}.

(** [!!accessToken.value] *)
Definition isAuthenticated (st : Store) : bool :=
  match accessToken st with
  | Some token => negb (is_empty token)
  | None => false
  end.

Definition currentUser (st : Store) : option User := user st.

Definition or_field {A} (new : option A) (old : A) : A :=
  match new with Some x => x | None => old end.

Definition or_optional {A} (new old : option A) : option A :=
  match new with Some x => Some x | None => old end.

(** [{ ...user, ...userData }] *)
Definition merge (u : User) (d : PartialUser) : User :=
  {| id := or_field (p_id d) (id u);
     username := or_field (p_username d) (username u);
     email := or_field (p_email d) (email u);
     full_name := or_optional (p_full_name d) (full_name u);
     oauth_provider := or_optional (p_oauth_provider d) (oauth_provider u);
     is_verified := or_field (p_is_verified d) (is_verified u);
     profile_picture_url :=
       or_optional (p_profile_picture_url d) (profile_picture_url u);
     created_at := or_field (p_created_at d) (created_at u) |}.

Section JSON.
(** [JSON.stringify] on users, and [JSON.parse]: [None] when it throws,
    [Some None] for the value [null]. *)
Variable stringify : User -> string.
Variable parse : string -> option (option User).

(** The setup of the store from [localStorage]; [None] when
    [JSON.parse] throws. *)
Definition create (ls : gmap string string) : option Store :=
  let token := ls !! "access_token" in
  match ls !! "user" with
  | Some s =>
      if is_empty s
      then Some {| accessToken := token; user := None; localStorage := ls |}
      else match parse s with
           | Some u => Some {| accessToken := token; user := u; localStorage := ls |}
           | None => None
           end
  | None => Some {| accessToken := token; user := None; localStorage := ls |}
  end.

Definition setAuth (token : string) (userData : User) (st : Store) : Store :=
  {| accessToken := Some token;
     user := Some userData;
     localStorage :=
       <["isLoggedIn" := "true"]>
         (<["user" := stringify userData]>
            (<["access_token" := token]> (localStorage st))) |}.

Definition logout (st : Store) : Store :=
  {| accessToken := None;
     user := None;
     localStorage :=
       delete "isLoggedIn" (delete "user" (delete "access_token" (localStorage st))) |}.

Definition updateUser (userData : PartialUser) (st : Store) : Store :=
  match user st with
  | Some u =>
      let u' := merge u userData in
      {| accessToken := accessToken st;
         user := Some u';
         localStorage := <["user" := stringify u']> (localStorage st) |}
  | None => st
  end.
End JSON.

Definition getAuthHeaders (st : Store) : list (string * string) :=
  match accessToken st with
  | Some token =>
      if is_empty token then [("Content-Type", "application/json")]
      else [("Authorization", "Bearer " +:+ token);
            ("Content-Type", "application/json")]
  | None => [("Content-Type", "application/json")]
  end.

End AuthStore.

(** ** The statements of the specification, and sample data *)

Module Spec.
Import JSString JSNumber JSObject BudgetView.

(** The seven category keys, in the order of their enumeration. *)
Definition fixed_enumeration : list string :=
  ["talent"; "location"; "propsSet"; "wardrobeMakeup"; "sfxVfx"; "crew";
   "miscellaneous"].

Fixpoint rank_in (keys : list string) (nm : value) : nat :=
  match keys with
  | [] => O
  | k :: r => if value_eqb (formatCategoryName k) nm then O else S (rank_in r nm)
  end.

(** The place of a displayed category in the fixed enumeration. *)
Definition enumeration_rank (nm : value) : nat := rank_in fixed_enumeration nm.

(** Categories with equal percent stand in the order of the fixed
    enumeration. *)
Definition ties_in_fixed_order (l : list Category) : Prop :=
  forall i j a c,
    (i < j)%nat -> nth_error l i = Some a -> nth_error l j = Some c ->
    same_value (percent a) (percent c) = true ->
    (enumeration_rank (name a) < enumeration_rank (name c))%nat.

(** A plain numeral: digits, or digits, a point and digits. *)
Definition plain_numeral (t : string) : bool :=
  let '(ip, r) := span is_digit t in
  negb (is_empty ip)
  && match r with
     | EmptyString => true
     | String c f => is_dot c && negb (is_empty f) && forallb_string is_digit f
     end.

(** ["RM "] followed by a plain numeral. *)
Definition currency_form (s : string) : bool :=
  match s with
  | String "R" (String "M" (String " " t)) => plain_numeral t
  | _ => false
  end.


(** The formats named by the specification: PDF, TXT and FDX. *)
Definition recognized_types : list string := ["application/pdf"; "text/plain"].
Definition recognized_extensions : list string := [".pdf"; ".txt"; ".fdx"].

End Spec.

Module Examples.
Import JSNumber JSObject BudgetView.

Definition sample_budget : budget :=
  [("talent", "RM 400"); ("crew", "RM 900"); ("propsSet", "RM 530");
   ("location", "RM 300")].

Definition tied_budget : budget :=
  [("talent", "RM 100"); ("crew", "RM 100"); ("location", "RM 100")].

Definition zero_budget : budget :=
  [("talent", "RM 0"); ("crew", "TBD")].

Definition mixed_budget : budget :=
  [("talent", "RM 1000"); ("crew", "RM 0"); ("location", "TBD")].

Definition sample_project : Project :=
  {| title := "The Last Guardian";
     scriptBreakdown := Some {| sb_budget := Some sample_budget |};
     analysis_data :=
       Some {| script_breakdown := Some {| sb_budget := Some sample_budget |} |} |}.

Definition other_project : Project :=
  {| title := "Second Feature";
     scriptBreakdown := Some {| sb_budget := Some tied_budget |};
     analysis_data := None |}.

(** The category "Talent" as the display of [sample_project] shows it. *)
Definition talent_category : Category :=
  category_of toLocaleString_enUS (total_of sample_budget) ("talent", "RM 400").

(** The editor open on "Talent", with [entered] in the amount field. *)
Definition editing (entered : input_value) : State :=
  {| projects := [other_project; sample_project];
     selectedProjectTitle := "The Last Guardian";
     editingCategory := Some talent_category;
     editAmount := entered |}.

End Examples.

Module ChatExamples.
Import ChatPanel.

Definition empty_panel : State :=
  {| messages := []; isLoading := false; requests := [] |}.

Definition noon : Clock := {| date_now := 1700000000000; new_date := 1700000000000 |}.

Definition fountain_script : File :=
  {| file_name := "script.fountain"; file_type := "" |}.

Definition pdf_script : File :=
  {| file_name := "Final.Draft.PDF"; file_type := "" |}.

Definition picture : File :=
  {| file_name := "poster.png"; file_type := "image/png" |}.

(** An analysis service that is down. *)
Definition unreachable (f : File) : option UploadResponse := None.

End ChatExamples.

Module AuthExamples.
Import stdpp.base stdpp.gmap stdpp.strings AuthStore.

Definition sample_user : User :=
  {| id := "u1"; username := "lyra"; email := "lyra@example.org";
     full_name := None; oauth_provider := Some "google"; is_verified := true;
     profile_picture_url := None; created_at := "2025-01-01T00:00:00Z" |}.

(** A stand-in for [JSON.stringify]: the id of the user. *)
Definition stringify_id (u : User) : string := id u.

Definition signed_out : Store :=
  {| accessToken := None; user := None; localStorage := ∅ |}.

End AuthExamples.

(** ** The chat panel: conversation and message formatting *)

Module ChatConversation.
Import JSString JSNumber ChatPanel.

(** The argument of [sendChatMessage]. *)
Record ChatRequest := {
  message : string;
  history : list ChatMessage
}.

(** What the panel reads of the answer: [response.response] and
    [response.actions], [None] where the field is missing. *)
Record ChatResponse := {
  response : option string;
  reply_actions : option (list Action)
}.

(** The panel: the messages and the loading flag, the text of the input
    field, and the requests handed to [sendChatMessage] so far. *)
Record Panel := {
  chat : State;
  currentMessage : string;
  sent : list ChatRequest
}.

(** [xs.slice(-n)] *)
Definition slice_last {A : Type} (n : nat) (xs : list A) : list A :=
  skipn (List.length xs - n) xs.

Definition fallback_text : string :=
  "Sorry, I encountered an error processing your request.".

Definition connection_failed_text : string :=
  "I'm sorry, I'm having trouble connecting to the server right now. Please try again later.".

(** [text || fallback] *)
Definition or_text (text : option string) (fallback : string) : string :=
  match text with
  | Some t => if is_empty t then fallback else t
  | None => fallback
  end.

(** [actions || []] *)
Definition or_nil (acts : option (list Action)) : list Action :=
  match acts with
  | Some l => l
  | None => []
  end.

(** *** [String.prototype.trim]

    The white space and the line terminators that [trim] strips, on the
    bytes of the text: TAB, LF, VT, FF, CR and SP; U+00A0, the bytes C2 A0;
    U+1680 (E1 9A 80); U+2000 to U+200A (E2 80 80 to E2 80 8A); U+2028 and
    U+2029 (E2 80 A8 and E2 80 A9); U+202F (E2 80 AF); U+205F (E2 81 9F);
    U+3000 (E3 80 80) and U+FEFF (EF BB BF). *)

Definition space2 (c c2 : ascii) : bool :=
  (code c =? 194) && (code c2 =? 160).

Definition space3 (c c2 c3 : ascii) : bool :=
  ((code c =? 225) && (code c2 =? 154) && (code c3 =? 128))
  || ((code c =? 226) && (code c2 =? 128)
      && (((128 <=? code c3) && (code c3 <=? 138))
          || (code c3 =? 168) || (code c3 =? 169) || (code c3 =? 175)))
  || ((code c =? 226) && (code c2 =? 129) && (code c3 =? 159))
  || ((code c =? 227) && (code c2 =? 128) && (code c3 =? 128))
  || ((code c =? 239) && (code c2 =? 187) && (code c3 =? 191)).

Fixpoint trimStart (s : string) : string :=
  match s with
  | EmptyString => EmptyString
  | String c r =>
      if is_space c then trimStart r
      else
        match r with
        | String c2 r2 =>
            if space2 c c2 then trimStart r2
            else
              match r2 with
              | String c3 r3 => if space3 c c2 c3 then trimStart r3 else s
              | EmptyString => s
              end
        | EmptyString => s
        end
  end.

(** The text up to its last character that is no white space: what is left
    is cut where nothing but white space follows. *)
Fixpoint trimEnd (s : string) : string :=
  match s with
  | EmptyString => EmptyString
  | String c r =>
      if is_empty (trimStart s) then EmptyString else String c (trimEnd r)
  end.

Definition trim (s : string) : string := trimEnd (trimStart s).

Section Chat.
(** The request to the chat service; [None] when it fails. *)
Variable sendChatMessage : ChatRequest -> option ChatResponse.

(** [sendMessage], from the call to the end of its [finally] block, with no
    other handler run while the request is pending; [c1] and [c2] are the
    clock readings at the first and at the second message it creates. *)
Definition sendMessage (c1 c2 : Clock) (p : Panel) : Panel :=
  if is_empty (trim (currentMessage p)) || isLoading (chat p) then p
  else
    let userMessage := ChatPanel.message c1 user (currentMessage p) None in
    let st1 := push userMessage (chat p) in
    let query := currentMessage p in
    let st2 := set_loading true st1 in
    let request := {| message := query; history := slice_last 10 (messages st2) |} in
    let st3 :=
      match sendChatMessage request with
      | Some r =>
          push (ChatPanel.message c2 ai (or_text (response r) fallback_text)
                  (Some (or_nil (reply_actions r)))) st2
      | None => push (ChatPanel.message c2 ai connection_failed_text None) st2
      end in
    {| chat := set_loading false st3;
       currentMessage := "";
       sent := (sent p ++ [request])%list |}.
End Chat.

Section Upload.
Variable uploadScriptFile : File -> option UploadResponse.

(** [handleFileSelect] and [handleFileDrop]: [files] is the file list of
    the input element or of the drop, empty when there is none. *)
Definition handleFileSelect (c1 c2 : Clock) (files : list File) (st : State)
    : State :=
  match files with
  | file :: _ => uploadFile uploadScriptFile c1 c2 file st
  | [] => st
  end.

Definition handleFileDrop (c1 c2 : Clock) (files : list File) (st : State)
    : State :=
  match files with
  | file :: _ => uploadFile uploadScriptFile c1 c2 file st
  | [] => st
  end.
End Upload.

(** *** [formatMessage]

    The three replacements, on the bytes of the text.  The dot of a regular
    expression matches no line terminator: LF, CR, and U+2028 and U+2029,
    which are the bytes E2 80 A8 and E2 80 A9. *)

Definition is_star (c : ascii) : bool := code c =? 42.

Definition is_newline (c : ascii) : bool := (code c =? 10) || (code c =? 13).

(** U+2028 or U+2029 starts at [c], [r] being what follows [c]. *)
Definition wide_break (c : ascii) (r : string) : bool :=
  match r with
  | String c2 (String c3 _) =>
      (code c =? 226) && (code c2 =? 128)
      && ((code c3 =? 168) || (code c3 =? 169))
  | _ => false
  end.

Definition line_terminator (c : ascii) (r : string) : bool :=
  is_newline c || wide_break c r.

Definition strong_open : string :=
  "<strong class=" ++ quote ++ "font-inter-semibold" ++ quote ++ ">".

Definition strong_close : string := "</strong>".

(** [s.replace(/\*\*(.*?)\*\*/g, '<strong ...>$1</strong>')]: [bold] is the
    replacement from a place outside a match on, [bold_group] the rest of a
    match whose opening stars are read, if the line has closing stars. *)
Fixpoint bold (s : string) : string :=
  match s with
  | EmptyString => EmptyString
  | String c r =>
      match r with
      | String c2 r' =>
          if is_star c && is_star c2 then
            match bold_group r' with
            | Some t => strong_open ++ t
            | None => String c (bold r)
            end
          else String c (bold r)
      | EmptyString => String c EmptyString
      end
  end
with bold_group (s : string) : option string :=
  match s with
  | EmptyString => None
  | String c r =>
      match r with
      | String c2 r' =>
          if is_star c && is_star c2 then Some (strong_close ++ bold r')
          else if line_terminator c r then None
          else option_map (String c) (bold_group r)
      | EmptyString => None
      end
  end.

Definition bullet_open : string :=
  "<div class=" ++ quote ++ "flex items-start gap-2 my-1" ++ quote
  ++ "><span class=" ++ quote ++ "text-secondary text-xs mt-1" ++ quote
  ++ ">" ++ bullet ++ "</span><span>".

Definition bullet_close : string := "</span></div>".

(** Where the replacement of the bullet lines stands: at the start of a
    line, further in a line, or in the text of a bullet line. *)
Inductive place := LineStart | InLine | InBullet.

Definition closing (p : place) : string :=
  match p with
  | InBullet => bullet_close
  | _ => EmptyString
  end.

Definition onward (p : place) : place :=
  match p with
  | InBullet => InBullet
  | _ => InLine
  end.

(** The bullet and the space after it start at [c]. *)
Definition bullet_start (c : ascii) (r : string) : bool :=
  match r with
  | String c2 (String c3 (String c4 _)) =>
      (code c =? 226) && (code c2 =? 128) && (code c3 =? 162)
      && (code c4 =? 32)
  | _ => false
  end.

(** [s.replace(/^• (.*$)/gm, '<div ...>•</span><span>$1</span></div>')] *)
Fixpoint bullets (p : place) (s : string) : string :=
  match s with
  | EmptyString => closing p
  | String c r =>
      if is_newline c then closing p ++ String c (bullets LineStart r)
      else
        match r with
        | String c2 (String c3 r3) =>
            if wide_break c r then
              closing p ++ String c (String c2 (String c3 (bullets LineStart r3)))
            else
              match p, r3 with
              | LineStart, String c4 r4 =>
                  if bullet_start c r then bullet_open ++ bullets InBullet r4
                  else String c (bullets (onward p) r)
              | _, _ => String c (bullets (onward p) r)
              end
        | _ => String c (bullets (onward p) r)
        end
  end.

(** [s.replace(/\n/g, '<br/>')] *)
Fixpoint line_breaks (s : string) : string :=
  match s with
  | EmptyString => EmptyString
  | String c r =>
      if code c =? 10 then "<br/>" ++ line_breaks r
      else String c (line_breaks r)
  end.

Definition formatMessage (content : string) : string :=
  line_breaks (bullets LineStart (bold content)).

(** Text that the replacements leave alone: no star, no line feed and no
    byte E2, with which the bullet starts. *)
Definition plain_char (c : ascii) : bool :=
  negb (code c =? 42) && negb (code c =? 10) && negb (code c =? 226).

(** Plain text of one line: no carriage return either. *)
Definition line_char (c : ascii) : bool :=
  plain_char c && negb (code c =? 13).

(** Text of one line that may hold stars: no line feed, no carriage return
    and no byte E2. *)
Definition inline_char (c : ascii) : bool :=
  negb (code c =? 10) && negb (code c =? 13) && negb (code c =? 226).

End ChatConversation.

(** ** The OAuth callback page *)

Module OAuthCallback.
Import JSString AuthStore.

(** What [urlParams.get] returns for the parameters the page reads. *)
Record Params := {
  access_token : option string;
  user_param : option string;
  code : option string;
  state : option string;
  error_param : option string
}.

(** The two refs of the page. *)
Record View := { loading : bool; error : string }.

Definition initial_view : View := {| loading := true; error := "" |}.

(** The three branches of the template. *)
Inductive Screen := ProcessingLogin | LoginFailed | LoginSuccessful.

Definition screen (v : View) : Screen :=
  if loading v then ProcessingLogin
  else if negb (is_empty (error v)) then LoginFailed
  else LoginSuccessful.

(** [!!x] for a string or null. *)
Definition present (x : option string) : bool :=
  match x with
  | Some s => negb (is_empty s)
  | None => false
  end.

(** The page after [onMounted]: its refs, the auth store, and whether the
    timer that leads to the projects page is set. *)
Record Outcome := {
  view : View;
  store : Store;
  redirect : bool
}.

Definition failed (msg : string) (st : Store) : Outcome :=
  {| view := {| loading := false; error := msg |};
     store := st;
     redirect := false |}.

Section Callback.
Variable stringify : User -> string.
(** [decodeURIComponent] and [JSON.parse], [None] when they throw; the
    value parsed is a user object. *)
Variable decodeURIComponent : string -> option string.
Variable parse : string -> option User.

Definition onMounted (q : Params) (st : Store) : Outcome :=
  if present (access_token q) && present (user_param q) then
    match access_token q, user_param q with
    | Some accessToken, Some userParam =>
        match decodeURIComponent userParam with
        | Some decoded =>
            match parse decoded with
            | Some userData =>
                {| view := initial_view;
                   store := setAuth stringify accessToken userData st;
                   redirect := true |}
            | None => failed "Failed to process login callback" st
            end
        | None => failed "Failed to process login callback" st
        end
    | _, _ => failed "Failed to process login callback" st
    end
  else
    match error_param q with
    | Some errorParam =>
        if is_empty errorParam then
          if present (code q)
          then failed "OAuth callback handling not fully implemented" st
          else failed "No authorization code received" st
        else failed ("OAuth error: " ++ errorParam) st
    | None =>
        if present (code q)
        then failed "OAuth callback handling not fully implemented" st
        else failed "No authorization code received" st
    end.
End Callback.

End OAuthCallback.

(** ** The budget view: summary and rendered rows *)

Module BudgetSummary.
Import JSString JSNumber JSObject BudgetView.

(** [Math.round]: the nearest integer, the larger one of two; a result of
    0 keeps the sign of the argument. *)
Definition Math_round (x : number) : number :=
  match x with
  | S754_finite s m e =>
      if 0 <=? e then x
      else
        let n := (2 * cond_Zopp s (Zpos m) + 2 ^ (- e)) / (2 * 2 ^ (- e)) in
        if n =? 0 then S754_zero s else of_Z n
  | _ => x
  end.

Record Summary := {
  totalBudget : string;
  spent : string;
  spentPercent : number;
  remaining : string;
  remainingPercent : number;
  projectedTotal : string;
  projectedNote : string
}.

Definition no_data : Summary :=
  {| totalBudget := "RM 0";
     spent := "RM 0";
     spentPercent := pos_zero;
     remaining := "RM 0";
     remainingPercent := pos_zero;
     projectedTotal := "RM 0";
     projectedNote := "No data" |}.

Section Locale.
Variable toLocaleString : number -> string.

Definition summary_of (budgetObj : budget) : Summary :=
  let totalBudget := total_of budgetObj in
  let spentPercent := of_Z 75 in
  let spent := Math_round (mul totalBudget (div spentPercent hundred)) in
  let remaining := sub totalBudget spent in
  let remainingPercent := Math_round (mul (div remaining totalBudget) hundred) in
  let projected := Math_round (mul totalBudget (of_decimal false 97 (-2))) in
  let projectedDiff := sub totalBudget projected in
  {| totalBudget := "RM " ++ toLocaleString totalBudget;
     spent := "RM " ++ toLocaleString spent;
     spentPercent := spentPercent;
     remaining := "RM " ++ toLocaleString remaining;
     remainingPercent := remainingPercent;
     projectedTotal := "RM " ++ toLocaleString projected;
     projectedNote :=
       if gtb projectedDiff pos_zero
       then numberToString
              (Math_round (mul (div projectedDiff totalBudget) hundred))
            ++ "% under budget"
       else "On track" |}.

(** The computed [summary] of the selected project. *)
Definition summary (selectedProject : option Project) : Summary :=
  match selectedProject with
  | Some project =>
      match project_budget project with
      | Some budgetObj => summary_of budgetObj
      | None => no_data
      end
  | None => no_data
  end.
End Locale.

(** The rows of the breakdown that the template renders: those whose name
    is neither 'SFX & VFX' nor 'Miscellaneous'. *)
Definition rendered (cats : list Category) : list Category :=
  filter (fun cat => negb (value_eqb (name cat) (Str "SFX & VFX"))
                     && negb (value_eqb (name cat) (Str "Miscellaneous")))
    cats.

End BudgetSummary.

(** ** Display names and the keys they come from *)

Module CategoryNames.
Import JSString JSNumber JSObject BudgetView.

(** Takes out the space that stands before a capital letter. *)
Fixpoint unspace (s : string) : string :=
  match s with
  | EmptyString => EmptyString
  | String c r =>
      match r with
      | String c2 _ =>
          if (code c =? 32) && is_upper c2 then unspace r
          else String c (unspace r)
      | EmptyString => String c EmptyString
      end
  end.

Definition lower_first (s : string) : string :=
  match s with
  | EmptyString => EmptyString
  | String c r => String (to_lower_char c) r
  end.

(** The key that [formatCategoryName] writes as [s] when the name map has
    no entry for it. *)
Definition key_of_name (s : string) : string := unspace (lower_first s).

(** The two keys of the name map whose display name another key has too. *)
Definition colliding (k1 k2 : string) : Prop :=
  (k1 = "propsSet" /\ k2 = "props &Set")
  \/ (k1 = "wardrobeMakeup" /\ k2 = "wardrobe &Makeup").

(** Text of ASCII characters, on which the model of the letter case is
    that of JavaScript. *)
Definition is_ascii (c : ascii) : bool := code c <? 128.

End CategoryNames.

(** ** The auth store and the browser storage *)

Module AuthPersistence.
Import JSString.
Import stdpp.base stdpp.gmap stdpp.strings.
Import AuthStore.

(** The three keys of [localStorage] that the store writes. *)
Definition store_keys : list string := ["access_token"; "user"; "isLoggedIn"].

(** The storage holds what the refs hold: the token, the JSON of the user,
    and the flag 'true' exactly when there is a token. *)
Definition persisted (stringify : User -> string) (st : Store) : Prop :=
  localStorage st !! "access_token" = accessToken st
  /\ localStorage st !! "user" = option_map stringify (user st)
  /\ localStorage st !! "isLoggedIn"
     = match accessToken st with Some _ => Some "true" | None => None end.

End AuthPersistence.

(** ** Sample conversations, callbacks and budgets *)

Module ConversationExamples.
Import ChatPanel ChatConversation ChatExamples.

(** The panel with a first message typed in. *)
Definition greeting_panel : Panel :=
  {| chat := empty_panel; currentMessage := "How many scenes?"; sent := [] |}.

(** A chat service that answers with the message it was sent. *)
Definition echo (r : ChatRequest) : option ChatResponse :=
  Some {| response := Some (message r); reply_actions := None |}.

(** The panel with a no-break space, a space and an ideographic space
    typed in. *)
Definition blank_panel : Panel :=
  {| chat := empty_panel;
     currentMessage :=
       String "194" (String "160" (String " "
         (String "227" (String "128" (String "128" EmptyString)))));
     sent := [] |}.

End ConversationExamples.

Module CallbackExamples.
Import AuthStore OAuthCallback AuthExamples.

(** The URL of a redirect that carries the token and the user. *)
Definition token_params : Params :=
  {| access_token := Some "t0"; user_param := Some "u1"; code := None;
     state := None; error_param := None |}.

(** The URL of a redirect with an authorization code. *)
Definition code_params : Params :=
  {| access_token := None; user_param := None; code := Some "4/0Ab";
     state := Some "xyz"; error_param := None |}.

(** Stand-ins for [decodeURIComponent] and [JSON.parse] that go with
    [stringify_id]. *)
Definition decode_plain (s : string) : option string := Some s.

Definition parse_id (s : string) : option User :=
  if String.eqb s "u1" then Some sample_user else None.

Definition parse_stored (s : string) : option (option User) :=
  if String.eqb s "u1" then Some (Some sample_user) else None.

(** An update of the e-mail address only. *)
Definition new_email : PartialUser :=
  {| p_id := None; p_username := None; p_email := Some "lyra@example.com";
     p_full_name := None; p_oauth_provider := None; p_is_verified := None;
     p_profile_picture_url := None; p_created_at := None |}.

End CallbackExamples.

Module BudgetExamples.
Import JSNumber JSObject BudgetView.

(** A budget with an amount of two points, which is not a number. *)
Definition broken_budget : budget :=
  [("talent", "RM 1.2.3"); ("crew", "RM 100")].

(** A budget with a key of its own beside a key of the name map. *)
Definition custom_budget : budget :=
  [("extraCosts", "RM 50"); ("talent", "RM 400")].





End BudgetExamples.

(** * Properties *)

(** ** Rounding keeps signs and never goes below the least exponent *)

Module JSNumberFacts.
Import JSString JSNumber.

Lemma emin_value : emin = -1074.
Proof. reflexivity. Qed.

Lemma digits2_pos_size (p : positive) : digits2_pos p = Pos.size p.
Proof. induction p; simpl; congruence. Qed.

Lemma pow2_digits_le (p : positive) :
  2 ^ (Zpos (digits2_pos p) - 1) <= Zpos p.
Proof.
  rewrite digits2_pos_size.
  pose proof (Pos.size_le p) as H.
  assert (H' : 2 ^ Zpos (Pos.size p) <= 2 * Zpos p).
  { change 2 with (Zpos 2) at 1. rewrite <- Pos2Z.inj_pow.
    change (2 * Zpos p) with (Zpos p~0). exact H. }
  replace (Zpos (Pos.size p)) with (Zpos (Pos.size p) - 1 + 1) in H' by lia.
  rewrite Z.pow_add_r in H' by lia.
  change (2 ^ 1) with 2 in H'. lia.
Qed.

Lemma shr_m_of_loc (m : Z) (l : location) :
  shr_m (shr_record_of_loc m l) = m.
Proof. destruct l as [|[]]; reflexivity. Qed.

Lemma shr_1_m (mrs : shr_record) :
  0 <= shr_m mrs -> shr_m (shr_1 mrs) = Z.div2 (shr_m mrs).
Proof.
  destruct mrs as [m r s]; simpl.
  destruct m as [|[p|p|]|p]; simpl; intros H; try reflexivity; lia.
Qed.

Ltac pow2_side :=
  first [ apply Z.pow_pos_nonneg; lia | apply Z.pow_nonzero; lia | lia ].

Lemma iter_shr_m (k : positive) :
  forall mrs, 0 <= shr_m mrs ->
    shr_m (iter_pos shr_1 k mrs) = shr_m mrs / 2 ^ Zpos k.
Proof.
  induction k as [k IH|k IH|]; intros mrs Hm; simpl iter_pos.
  - assert (H1 : 0 <= shr_m (shr_1 mrs)).
    { rewrite shr_1_m by assumption. rewrite Z.div2_div.
      apply Z.div_pos; lia. }
    assert (H2 : 0 <= shr_m (iter_pos shr_1 k (shr_1 mrs))).
    { rewrite IH by assumption. apply Z.div_pos; [assumption|].
      apply Z.pow_pos_nonneg; lia. }
    rewrite IH, IH, shr_1_m by assumption.
    rewrite Z.div2_div, !Z.div_div by pow2_side.
    f_equal.
    replace (Zpos k~1) with (1 + Zpos k + Zpos k) by lia.
    rewrite !Z.pow_add_r by lia. change (2 ^ 1) with 2. ring.
  - assert (H2 : 0 <= shr_m (iter_pos shr_1 k mrs)).
    { rewrite IH by assumption. apply Z.div_pos; [assumption|].
      apply Z.pow_pos_nonneg; lia. }
    rewrite IH, IH by assumption.
    rewrite Z.div_div by pow2_side.
    f_equal.
    replace (Zpos k~0) with (Zpos k + Zpos k) by lia.
    rewrite Z.pow_add_r by lia. reflexivity.
  - rewrite shr_1_m by assumption. rewrite Z.div2_div. reflexivity.
Qed.

(** One alignment step of the rounding: the significand stays
    non-negative, stays positive from the least exponent on, and the
    exponent ends at or above the least one. *)
Lemma shr_fexp_spec (m e : Z) (l : location) (mrs : shr_record) (e' : Z) :
  0 <= m ->
  shr_fexp prec emax m e l = (mrs, e') ->
  0 <= shr_m mrs /\ emin <= e' /\ (0 < m -> emin <= e -> 0 < shr_m mrs).
Proof.
  intros Hm. unfold shr_fexp, shr.
  assert (Hf : emin <= fexp prec emax (Zdigits2 m + e)).
  { unfold fexp, emin. apply Z.le_max_r. }
  destruct (fexp prec emax (Zdigits2 m + e) - e) as [|k|k] eqn:Hk;
    intros E; inversion E; subst; clear E.
  - rewrite shr_m_of_loc. repeat split; lia.
  - rewrite iter_shr_m by (rewrite shr_m_of_loc; assumption).
    rewrite shr_m_of_loc.
    assert (Hp : 0 < 2 ^ Zpos k) by (apply Z.pow_pos_nonneg; lia).
    repeat split.
    + apply Z.div_pos; lia.
    + lia.
    + intros Hpos He.
      destruct m as [|p|p]; try lia.
      simpl Zdigits2 in *.
      pose proof (pow2_digits_le p) as Hd.
      assert (Hk' : Zpos k <= Zpos (digits2_pos p) - 1).
      { unfold fexp in Hk. fold emin in Hk. unfold prec in Hk. lia. }
      apply Z.div_str_pos. split; [assumption|].
      apply Z.le_trans with (2 ^ (Zpos (digits2_pos p) - 1)); [|assumption].
      apply Z.pow_le_mono_r; lia.
  - rewrite shr_m_of_loc. repeat split; lia.
Qed.

Lemma round_nearest_even_bounds (m : Z) (l : location) :
  m <= round_nearest_even m l.
Proof.
  destruct l as [|[]]; simpl; try lia.
  destruct (Z.even m); lia.
Qed.


Lemma binary_round_aux_rounded (sx : bool) (mx ex : Z) (lx : location) :
  0 <= mx ->
  rounded sx (0 < mx /\ emin <= ex) (binary_round_aux prec emax sx mx ex lx).
Proof.
  intros Hm. unfold binary_round_aux.
  destruct (shr_fexp prec emax mx ex lx) as [mrs' e'] eqn:E1.
  destruct (shr_fexp_spec _ _ _ _ _ Hm E1) as (H1 & H2 & H3).
  pose proof (round_nearest_even_bounds (shr_m mrs') (loc_of_shr_record mrs')) as Hr.
  destruct (shr_fexp prec emax _ e' loc_Exact) as [mrs'' e''] eqn:E2.
  apply shr_fexp_spec in E2; [|lia].
  destruct E2 as (H4 & H5 & H6).
  destruct (shr_m mrs'') as [|m|m] eqn:Em.
  - constructor. intros [Hp He]. specialize (H3 Hp He). lia.
  - destruct (e'' <=? emax - prec); constructor. assumption.
  - lia.
Qed.

Lemma rounded_weaken (sx : bool) (P Q : Prop) (x : number) :
  (Q -> P) -> rounded sx P x -> rounded sx Q x.
Proof.
  intros H [Hn| |m e He]; constructor; auto.
Qed.

Lemma div_finite_rounded (sx sy : bool) (mx my : positive) (ex ey : Z) :
  rounded (xorb sx sy) False
    (SFdiv prec emax (S754_finite sx mx ex) (S754_finite sy my ey)).
Proof.
  unfold SFdiv, SFdiv_core_binary.
  set (m' := match _ - _ with Z0 => _ | Zpos _ => _ | Zneg _ => _ end).
  assert (Hm' : 0 <= m').
  { unfold m'. destruct (_ - _); try lia. apply Z.shiftl_nonneg. lia. }
  pose proof (Z.div_pos m' (Zpos my) Hm' ltac:(lia)) as Hq.
  unfold Z.div in Hq. destruct (Z.div_eucl m' (Zpos my)) as [q r].
  eapply rounded_weaken; [|apply binary_round_aux_rounded; assumption].
  intros [].
Qed.

Lemma of_decimal_rounded (neg : bool) (m e10 : Z) :
  rounded neg False (of_decimal neg m e10).
Proof.
  unfold of_decimal. destruct m as [|p|p].
  - constructor. auto.
  - destruct (0 <=? e10).
    + pose proof (div_finite_rounded neg false (p * Z.to_pos (10 ^ e10)) 1 0 0) as H.
      rewrite xorb_false_r in H. exact H.
    + pose proof (div_finite_rounded neg false p (Z.to_pos (10 ^ (- e10))) 0 0) as H.
      rewrite xorb_false_r in H. exact H.
  - constructor. auto.
Qed.


(** *** Shapes of numbers *)


Lemma rounded_well_formed (sx : bool) (P : Prop) (x : number) :
  rounded sx P x -> well_formed x.
Proof. intros [H| |m e H]; simpl; auto. Qed.

Lemma rounded_sign_clear (P : Prop) (x : number) :
  rounded false P x -> sign_clear x.
Proof. intros [H| |m e H]; simpl; auto. Qed.

Lemma rounded_not_nan (sx : bool) (P : Prop) (x : number) :
  rounded sx P x -> isNaN x = false.
Proof. intros [H| |m e H]; reflexivity. Qed.

Lemma sign_clear_not_negative (x : number) :
  sign_clear x -> ltb x pos_zero = false.
Proof. destruct x as [s|s| |s m e]; simpl; intros H; subst; reflexivity. Qed.

(** *** Characters kept by the string functions *)

Lemma forallb_drop_while (p q : ascii -> bool) (s : string) :
  forallb_string p s = true -> forallb_string p (drop_while q s) = true.
Proof.
  induction s as [|c r IH]; simpl; intros H; [reflexivity|].
  apply andb_true_iff in H. destruct H as [Hc Hr].
  destruct (q c); simpl; auto. rewrite Hc, Hr. reflexivity.
Qed.

Lemma forallb_drop_while_end (p q : ascii -> bool) (s : string) :
  forallb_string p s = true -> forallb_string p (drop_while_end q s) = true.
Proof.
  induction s as [|c r IH]; simpl; intros H; [reflexivity|].
  apply andb_true_iff in H. destruct H as [Hc Hr]. specialize (IH Hr).
  destruct (drop_while_end q r) as [|c' r'].
  - destruct (q c); simpl; rewrite ?Hc; reflexivity.
  - simpl in *. rewrite Hc, IH. reflexivity.
Qed.

Lemma forallb_trim (p : ascii -> bool) (s : string) :
  forallb_string p s = true -> forallb_string p (trim s) = true.
Proof.
  intros H. unfold trim.
  apply forallb_drop_while_end, forallb_drop_while, H.
Qed.

Lemma forallb_filter_string (p : ascii -> bool) (s : string) :
  forallb_string p (filter_string p s) = true.
Proof.
  induction s as [|c r IH]; simpl; [reflexivity|].
  destruct (p c) eqn:E; simpl; rewrite ?E; assumption.
Qed.

Lemma forallb_string_impl (p q : ascii -> bool) (s : string) :
  (forall c, p c = true -> q c = true) ->
  forallb_string p s = true -> forallb_string q s = true.
Proof.
  intros Hpq. induction s as [|c r IH]; simpl; [reflexivity|].
  intros H. apply andb_true_iff in H. destruct H as [Hc Hr].
  rewrite (Hpq _ Hc), (IH Hr). reflexivity.
Qed.

(** *** Results of [StringToNumber] *)

Lemma StrUnsignedDecimalLiteral_shape (neg : bool) (s : string) :
  StrUnsignedDecimalLiteral neg s = nan
  \/ rounded neg False (StrUnsignedDecimalLiteral neg s).
Proof.
  unfold StrUnsignedDecimalLiteral.
  destruct (String.eqb s "Infinity"); [right; constructor|].
  destruct (span is_digit s) as [ip r1].
  destruct (match r1 with
            | String "." r => span is_digit r
            | _ => (EmptyString, r1)
            end) as [fp r2].
  destruct (is_empty ip && is_empty fp); [left; reflexivity|].
  destruct (radix_value 10 0 (ip ++ fp)) as [m|]; [|left; reflexivity].
  destruct (parse_exponent r2) as [e|]; [|left; reflexivity].
  right. apply of_decimal_rounded.
Qed.

Lemma NonDecimalIntegerLiteral_shape (s : string) (x : number) :
  NonDecimalIntegerLiteral s = Some x -> x = nan \/ rounded false False x.
Proof.
  unfold NonDecimalIntegerLiteral.
  destruct s as [|c s']; [discriminate|].
  destruct c as [[] [] [] [] [] [] [] []]; try discriminate.
  destruct s' as [|p r]; [discriminate|].
  destruct (if (code p =? 120) || (code p =? 88) then Some 16
            else if (code p =? 111) || (code p =? 79) then Some 8
            else if (code p =? 98) || (code p =? 66) then Some 2
            else None) as [b|]; [|discriminate].
  intros E. inversion E; subst; clear E.
  destruct (is_empty r); [left; reflexivity|].
  destruct (radix_value b 0 r); [|left; reflexivity].
  right. apply of_decimal_rounded.
Qed.

Lemma StringToNumber_well_formed (s : string) :
  well_formed (StringToNumber s).
Proof.
  unfold StringToNumber.
  destruct (is_empty (trim s)); [exact I|].
  destruct (NonDecimalIntegerLiteral (trim s)) as [x|] eqn:E.
  - apply NonDecimalIntegerLiteral_shape in E.
    destruct E as [->|H]; [exact I|]. eapply rounded_well_formed, H.
  - assert (H : forall neg t, well_formed (StrUnsignedDecimalLiteral neg t)).
    { intros neg t. destruct (StrUnsignedDecimalLiteral_shape neg t) as [->|H];
        [exact I|]. eapply rounded_well_formed, H. }
    destruct (trim s) as [|c r]; [apply H|].
    destruct c as [[] [] [] [] [] [] [] []]; apply H.
Qed.


Lemma StringToNumber_sign_clear (s : string) :
  forallb_string not_minus s = true -> sign_clear (StringToNumber s).
Proof.
  intros Hs. apply forallb_trim in Hs.
  unfold StringToNumber.
  destruct (is_empty (trim s)); [reflexivity|].
  destruct (NonDecimalIntegerLiteral (trim s)) as [x|] eqn:E.
  - apply NonDecimalIntegerLiteral_shape in E.
    destruct E as [->|H]; [exact I|]. eapply rounded_sign_clear, H.
  - assert (H : forall t, sign_clear (StrUnsignedDecimalLiteral false t)).
    { intros t. destruct (StrUnsignedDecimalLiteral_shape false t) as [->|H];
        [exact I|]. eapply rounded_sign_clear, H. }
    destruct (trim s) as [|c r]; [apply H|].
    simpl in Hs. apply andb_true_iff in Hs. destruct Hs as [Hc _].
    destruct c as [[] [] [] [] [] [] [] []]; try apply H; discriminate.
Qed.

(** *** The sign of a difference *)

Lemma shl_align_value (m : positive) (e ez : Z) :
  ez <= e -> Zpos (fst (shl_align m e ez)) = Zpos m * 2 ^ (e - ez).
Proof.
  intros H. unfold shl_align.
  destruct (ez - e) as [|d|d] eqn:E; simpl fst.
  - replace (e - ez) with 0 by lia. simpl. lia.
  - lia.
  - replace (e - ez) with (Zpos d) by lia.
    change (Pos.iter xO m d) with (shift_pos d m).
    rewrite shift_pos_correct. apply Z.mul_comm.
Qed.


Lemma rounded_positive (P : Prop) (x : number) :
  rounded false P x -> P -> gtb x pos_zero = true.
Proof. intros [H| |m e H] HP; [contradiction|reflexivity|reflexivity]. Qed.

Lemma rounded_negative (P : Prop) (x : number) :
  rounded true P x -> gtb x pos_zero = false.
Proof. intros [H| |m e H]; reflexivity. Qed.

Lemma binary_round_rounded (sx : bool) (m : positive) (e : Z) :
  emin <= e -> rounded sx True (binary_round prec emax sx m e).
Proof.
  intros He. unfold binary_round.
  destruct (shl_align m e (fexp prec emax (Zpos (digits2_pos m) + e)))
    as [mz ez] eqn:E.
  assert (Hez : emin <= ez).
  { unfold shl_align in E.
    destruct (fexp prec emax (Zpos (digits2_pos m) + e) - e) eqn:D;
      inversion E; subst; try assumption.
    unfold fexp. fold emin. apply Z.le_max_r. }
  eapply rounded_weaken;
    [|apply (binary_round_aux_rounded sx (Zpos mz) ez loc_Exact); lia].
  intros _. split; [lia|assumption].
Qed.

(** The comparison function [b - a] of the sort is positive exactly when
    [b] is the greater of two positive finite numbers. *)
Lemma sub_finite_sign (mx my : positive) (ex ey : Z) :
  emin <= ex -> emin <= ey ->
  gtb (sub (S754_finite false my ey) (S754_finite false mx ex)) pos_zero
  = negb (units (S754_finite false my ey) <=? units (S754_finite false mx ex)).
Proof.
  intros Hx Hy. unfold sub, SFsub. simpl cond_Zopp.
  set (ez := Z.min ey ex).
  rewrite !shl_align_value by (unfold ez; lia).
  assert (Hp : 0 < 2 ^ (ez - emin)) by (apply Z.pow_pos_nonneg; unfold ez; lia).
  assert (Uy : Zpos my * 2 ^ (ey - emin)
               = Zpos my * 2 ^ (ey - ez) * 2 ^ (ez - emin)).
  { rewrite <- Z.mul_assoc, <- Z.pow_add_r by (unfold ez; lia).
    do 2 f_equal. lia. }
  assert (Ux : Zpos mx * 2 ^ (ex - emin)
               = Zpos mx * 2 ^ (ex - ez) * 2 ^ (ez - emin)).
  { rewrite <- Z.mul_assoc, <- Z.pow_add_r by (unfold ez; lia).
    do 2 f_equal. lia. }
  simpl units. rewrite Uy, Ux.
  set (A := Zpos my * 2 ^ (ey - ez)). set (B := Zpos mx * 2 ^ (ex - ez)).
  assert (Hez : emin <= ez) by (unfold ez; lia).
  destruct (A - B) as [|d|d] eqn:D; unfold binary_normalize.
  - assert (A = B) by lia. subst A. rewrite H.
    rewrite Z.leb_refl. reflexivity.
  - rewrite (rounded_positive _ _ (binary_round_rounded false d ez Hez) I).
    symmetry. apply negb_true_iff, Z.leb_gt. nia.
  - rewrite (rounded_negative _ _ (binary_round_rounded true d ez Hez)).
    symmetry. apply negb_false_iff, Z.leb_le. nia.
Qed.


Lemma positive_number_cases (x : number) :
  positive_number x ->
  x = S754_infinity false
  \/ exists m e, x = S754_finite false m e /\ emin <= e.
Proof.
  intros [Hg Hw]. destruct x as [s|[]| |[] m e]; try discriminate.
  - left. reflexivity.
  - right. exists m, e. split; [reflexivity|exact Hw].
Qed.

Lemma sub_sign (x y : number) :
  positive_number x -> positive_number y ->
  gtb (sub y x) pos_zero = negb (value_leb y x).
Proof.
  intros Hx Hy.
  destruct (positive_number_cases x Hx) as [->|(mx & ex & -> & Hex)];
    destruct (positive_number_cases y Hy) as [->|(my & ey & -> & Hey)];
    try reflexivity.
  rewrite sub_finite_sign by assumption. reflexivity.
Qed.

Lemma value_leb_total (x y : number) :
  positive_number x -> positive_number y ->
  value_leb x y = true \/ value_leb y x = true.
Proof.
  intros Hx Hy.
  destruct (positive_number_cases x Hx) as [->|(mx & ex & -> & Hex)];
    destruct (positive_number_cases y Hy) as [->|(my & ey & -> & Hey)];
    simpl; auto.
  rewrite !Z.leb_le. lia.
Qed.

Lemma value_leb_trans (x y z : number) :
  value_leb x y = true -> value_leb y z = true -> value_leb x z = true.
Proof.
  destruct x as [sx|[]| |sx mx ex]; destruct y as [sy|[]| |sy my ey];
    destruct z as [sz|[]| |sz mz ez];
    simpl; auto; try discriminate; rewrite !Z.leb_le; lia.
Qed.


(** *** Sums of amounts *)

(** What an amount is: not negative, and with an exact [units]. *)
Lemma add_amounts (x y : number) :
  sign_clear x -> sign_clear y -> well_formed x -> well_formed y ->
  sign_clear (add x y) /\ well_formed (add x y)
  /\ (strict_eqb (add x y) pos_zero = true -> x = pos_zero /\ y = pos_zero).
Proof.
  destruct x as [sx|sx| |sx mx ex]; destruct y as [sy|sy| |sy my ey];
    simpl; intros Sx Sy Wx Wy; subst;
    try (repeat split; solve [auto | discriminate]).
  set (z := binary_normalize _ _ _ _ _).
  assert (R : rounded false True z).
  { unfold z, binary_normalize. apply binary_round_rounded. lia. }
  repeat split.
  - eapply rounded_sign_clear, R.
  - eapply rounded_well_formed, R.
  - destruct R; try discriminate. contradiction.
  - destruct R; try discriminate. contradiction.
Qed.

Lemma strict_eqb_zero (x : number) :
  sign_clear x -> strict_eqb x pos_zero = true -> x = pos_zero.
Proof.
  destruct x as [s|s| |s m e]; simpl; intros Hs H; subst;
    try reflexivity; discriminate.
Qed.

Lemma fold_add_zero (l : list number) :
  forall acc,
    sign_clear acc -> well_formed acc ->
    Forall (fun x => sign_clear x /\ well_formed x) l ->
    strict_eqb (fold_left add l acc) pos_zero = true ->
    acc = pos_zero /\ Forall (fun x => x = pos_zero) l.
Proof.
  induction l as [|x r IH]; simpl; intros acc Sa Wa Hl Hz.
  - split; [apply strict_eqb_zero; assumption|constructor].
  - inversion Hl as [|? ? [Sx Wx] Hr]; subst.
    destruct (add_amounts acc x Sa Sx Wa Wx) as (S' & W' & Z').
    destruct (IH _ S' W' Hr Hz) as [Hacc Hall].
    rewrite Hacc in Z'. destruct (Z' eq_refl) as [-> ->].
    split; [reflexivity|constructor; [reflexivity|assumption]].
Qed.


(** *** Strings of digits and points *)

Lemma append_empty_r (s : string) : s ++ "" = s.
Proof.
  induction s as [|c s IH]; [reflexivity|].
  change (String c (s ++ "") = String c s). congruence.
Qed.

Lemma span_spec (p : ascii -> bool) (s : string) :
  forall ip r, span p s = (ip, r) ->
    s = ip ++ r /\ forallb_string p ip = true
    /\ (r = EmptyString \/ exists c r', r = String c r' /\ p c = false).
Proof.
  induction s as [|c s IH]; simpl; intros ip r E.
  - inversion E; subst. repeat split. left. reflexivity.
  - destruct (p c) eqn:Pc.
    + destruct (span p s) as [a b]. inversion E; subst.
      destruct (IH _ _ eq_refl) as (-> & Ha & Hb).
      simpl. rewrite Pc, Ha. repeat split. exact Hb.
    + inversion E; subst. repeat split. right. exists c, s. auto.
Qed.

Lemma span_all (p : ascii -> bool) (s : string) :
  forallb_string p s = true -> span p s = (s, EmptyString).
Proof.
  induction s as [|c s IH]; simpl; intros H; [reflexivity|].
  apply andb_true_iff in H. destruct H as [Hc Hs].
  rewrite Hc, (IH Hs). reflexivity.
Qed.

Lemma forallb_string_app (p : ascii -> bool) (a b : string) :
  forallb_string p (a ++ b) = forallb_string p a && forallb_string p b.
Proof.
  induction a as [|c a IH]; simpl; [reflexivity|].
  rewrite IH, andb_assoc. reflexivity.
Qed.

Lemma radix_value_digits (u : string) :
  forallb_string is_digit u = true ->
  forall acc, exists m, radix_value 10 acc u = Some m.
Proof.
  induction u as [|c u IH]; simpl; intros H acc; [eauto|].
  apply andb_true_iff in H. destruct H as [Hc Hu].
  unfold digit_value. rewrite Hc.
  unfold is_digit in Hc. apply andb_true_iff in Hc.
  rewrite !Z.leb_le in Hc.
  replace (code c - 48 <? 10) with true by (symmetry; apply Z.ltb_lt; lia).
  apply IH, Hu.
Qed.

Lemma dot_char (c : ascii) : is_dot c = true -> c = "."%char.
Proof.
  destruct c as [[] [] [] [] [] [] [] []]; intros H;
    try discriminate H; reflexivity.
Qed.

Lemma digit_or_dot_not_space (c : ascii) :
  digit_or_dot c = true -> is_space c = false.
Proof.
  destruct c as [[] [] [] [] [] [] [] []]; intros H;
    try discriminate H; reflexivity.
Qed.

Lemma drop_while_end_none (p : ascii -> bool) (s : string) :
  forallb_string (fun c => negb (p c)) s = true -> drop_while_end p s = s.
Proof.
  induction s as [|c s IH]; simpl; intros H; [reflexivity|].
  apply andb_true_iff in H. destruct H as [Hc Hs].
  rewrite (IH Hs). apply negb_true_iff in Hc. rewrite Hc.
  destruct s; reflexivity.
Qed.

Lemma trim_digits_dots (t : string) :
  forallb_string digit_or_dot t = true -> trim t = t.
Proof.
  intros H. unfold trim.
  assert (Hn : forallb_string (fun c => negb (is_space c)) t = true).
  { eapply forallb_string_impl; [|exact H].
    intros c Hc. rewrite (digit_or_dot_not_space c Hc). reflexivity. }
  replace (drop_while is_space t) with t.
  - apply drop_while_end_none, Hn.
  - destruct t as [|c r]; [reflexivity|]. simpl in *.
    apply andb_true_iff in Hn. destruct Hn as [Hc _].
    apply negb_true_iff in Hc. rewrite Hc. reflexivity.
Qed.

Lemma rest_is_dot (p : string) (c : ascii) (r : string) :
  forallb_string digit_or_dot (p ++ String c r) = true ->
  is_digit c = false ->
  c = "."%char /\ forallb_string digit_or_dot r = true.
Proof.
  rewrite forallb_string_app. simpl. intros H Hc.
  apply andb_true_iff in H. destruct H as [_ H].
  apply andb_true_iff in H. destruct H as [H Hr].
  unfold digit_or_dot in H. rewrite Hc in H. simpl in H.
  split; [apply dot_char, H|exact Hr].
Qed.

Lemma not_infinity (t : string) :
  forallb_string digit_or_dot t = true -> String.eqb t "Infinity" = false.
Proof.
  intros H. destruct t as [|c r]; [reflexivity|]. simpl in H.
  apply andb_true_iff in H. destruct H as [Hc _]. simpl.
  destruct (Ascii.eqb_spec c "I"); [subst; discriminate Hc|reflexivity].
Qed.

(** Among the strings of digits and points, the literals without digits
    and those with two points are not numbers; all others are. *)
Lemma StrUnsignedDecimalLiteral_digits_dots (t : string) :
  forallb_string digit_or_dot t = true ->
  isNaN (StrUnsignedDecimalLiteral false t) = negb (unsigned_decimal t).
Proof.
  intros H. unfold StrUnsignedDecimalLiteral, unsigned_decimal.
  rewrite (not_infinity t H).
  destruct (span is_digit t) as [ip r1] eqn:E1.
  destruct (span_spec _ _ _ _ E1) as (-> & Hip & [->|(c & r & -> & Hc)]).
  - destruct (is_empty ip) eqn:Ei; [reflexivity|]. simpl.
    rewrite append_empty_r.
    destruct (radix_value_digits ip Hip 0) as [m ->].
    simpl. apply (rounded_not_nan _ _ _ (of_decimal_rounded false m _)).
  - destruct (rest_is_dot _ _ _ H Hc) as [-> Hr]. simpl is_dot.
    destruct (span is_digit r) as [fp r2] eqn:E2.
    destruct (span_spec _ _ _ _ E2) as (-> & Hfp & [->|(c2 & r3 & -> & Hc2)]).
    + rewrite append_empty_r, Hfp. simpl andb.
      destruct (is_empty ip && is_empty fp); [reflexivity|].
      destruct (radix_value_digits (ip ++ fp)
                  ltac:(rewrite forallb_string_app, Hip, Hfp; reflexivity) 0)
        as [m ->].
      simpl. apply (rounded_not_nan _ _ _ (of_decimal_rounded false m _)).
    + assert (Hf : forallb_string is_digit (fp ++ String c2 r3) = false).
      { rewrite forallb_string_app. simpl. rewrite Hc2, andb_false_r. reflexivity. }
      rewrite Hf. simpl andb.
      destruct (rest_is_dot _ _ _ Hr Hc2) as [-> _].
      destruct (is_empty ip && is_empty fp); [reflexivity|].
      destruct (radix_value 10 0 (ip ++ fp)); reflexivity.
Qed.

(** A string of digits and points is read as an unsigned decimal literal. *)
Lemma StringToNumber_unsigned (t : string) :
  forallb_string digit_or_dot t = true -> is_empty t = false ->
  StringToNumber t = StrUnsignedDecimalLiteral false t.
Proof.
  intros H Hne. unfold StringToNumber. rewrite (trim_digits_dots t H), Hne.
  destruct t as [|c r]; [discriminate|].
  simpl in H. apply andb_true_iff in H. destruct H as [Hc Hr].
  assert (HN : NonDecimalIntegerLiteral (String c r) = None).
  { destruct r as [|p r']; [destruct c as [[] [] [] [] [] [] [] []]; reflexivity|].
    simpl in Hr. apply andb_true_iff in Hr. destruct Hr as [Hp _].
    assert (Hrad : (if (code p =? 120) || (code p =? 88) then Some 16
                    else if (code p =? 111) || (code p =? 79) then Some 8
                    else if (code p =? 98) || (code p =? 66) then Some 2
                    else None) = None).
    { unfold digit_or_dot, is_digit, is_dot in Hp.
      apply orb_true_iff in Hp. rewrite andb_true_iff, !Z.leb_le, Z.eqb_eq in Hp.
      repeat match goal with
             | |- context [?a =? ?b] =>
                 replace (a =? b) with false by (symmetry; apply Z.eqb_neq; lia)
             end.
      reflexivity. }
    unfold NonDecimalIntegerLiteral. rewrite Hrad.
    destruct c as [[] [] [] [] [] [] [] []]; reflexivity. }
  rewrite HN.
  destruct c as [[] [] [] [] [] [] [] []]; try discriminate Hc; reflexivity.
Qed.

Lemma StringToNumber_digits_dots (t : string) :
  forallb_string digit_or_dot t = true ->
  isNaN (StringToNumber t) = negb (is_empty t) && negb (unsigned_decimal t).
Proof.
  intros H. destruct (is_empty t) eqn:E.
  - destruct t; [reflexivity|discriminate].
  - rewrite (StringToNumber_unsigned t H E).
    apply StrUnsignedDecimalLiteral_digits_dots, H.
Qed.

(** *** Digits written and read back *)

Lemma append_cons (c : ascii) (s t : string) :
  String c s ++ t = String c (s ++ t).
Proof. reflexivity. Qed.

Lemma append_assoc (a b c : string) : (a ++ b) ++ c = a ++ (b ++ c).
Proof.
  induction a as [|x a IH]; [reflexivity|].
  rewrite !append_cons, IH. reflexivity.
Qed.

Lemma length_append (a b : string) :
  String.length (a ++ b) = (String.length a + String.length b)%nat.
Proof.
  induction a as [|x a IH]; [reflexivity|].
  rewrite append_cons. simpl. rewrite IH. reflexivity.
Qed.

Lemma radix_value_app (r : Z) (s1 s2 : string) :
  forall a,
    radix_value r a (s1 ++ s2)
    = match radix_value r a s1 with
      | Some v => radix_value r v s2
      | None => None
      end.
Proof.
  induction s1 as [|c s1 IH]; intros a; [reflexivity|].
  rewrite append_cons. simpl.
  destruct (digit_value c) as [d|]; [|reflexivity].
  destruct (d <? r); [apply IH|reflexivity].
Qed.

Lemma digit_char_value (d : Z) :
  0 <= d <= 9 ->
  digit_value (digit_char d) = Some d /\ is_digit (digit_char d) = true.
Proof.
  intros H.
  assert (H' : d = 0 \/ d = 1 \/ d = 2 \/ d = 3 \/ d = 4 \/ d = 5 \/ d = 6
               \/ d = 7 \/ d = 8 \/ d = 9) by lia.
  repeat (destruct H' as [->|H']; [split; reflexivity|]).
  subst. split; reflexivity.
Qed.

Lemma digits_acc_spec (fuel : nat) :
  forall n acc,
    0 <= n < 2 ^ Z.of_nat fuel -> fuel <> O ->
    exists ds,
      digits_acc fuel n acc = ds ++ acc
      /\ forallb_string is_digit ds = true
      /\ is_empty ds = false
      /\ forall a,
           radix_value 10 a ds = Some (a * 10 ^ Z.of_nat (String.length ds) + n).
Proof.
  induction fuel as [|f IH]; intros n acc Hn Hf; [congruence|].
  simpl digits_acc.
  assert (Hd : 0 <= n mod 10 <= 9) by (pose proof (Z.mod_pos_bound n 10); lia).
  destruct (digit_char_value _ Hd) as [Hv Hi].
  destruct (Z.ltb_spec n 10) as [Hlt|Hge].
  - exists (String (digit_char (n mod 10)) EmptyString).
    repeat split; [simpl; rewrite Hi; reflexivity|].
    intros a. simpl. rewrite Hv. simpl.
    rewrite Z.mod_small by lia.
    replace (n <? 10) with true by (symmetry; apply Z.ltb_lt; lia).
    change (10 ^ Z.of_nat 1) with 10. reflexivity.
  - assert (Hf' : f <> O).
    { intros ->. simpl in Hn. lia. }
    assert (Hn' : 0 <= n / 10 < 2 ^ Z.of_nat f).
    { split; [apply Z.div_pos; lia|].
      apply Z.div_lt_upper_bound; [lia|].
      rewrite Nat2Z.inj_succ, Z.pow_succ_r in Hn by lia. lia. }
    destruct (IH (n / 10) (String (digit_char (n mod 10)) acc) Hn' Hf')
      as (ds & E & Hds & Hne & Hr).
    exists (ds ++ String (digit_char (n mod 10)) EmptyString).
    split; [rewrite E, append_assoc; reflexivity|].
    split; [rewrite forallb_string_app, Hds; simpl; rewrite Hi; reflexivity|].
    split; [destruct ds; [discriminate|reflexivity]|].
    intros a. rewrite radix_value_app, Hr. simpl. rewrite Hv.
    replace (n mod 10 <? 10) with true by (symmetry; apply Z.ltb_lt; lia).
    f_equal. rewrite length_append. simpl String.length.
    rewrite Nat2Z.inj_add, Z.pow_add_r by lia.
    change (10 ^ Z.of_nat 1) with 10.
    pose proof (Z.div_mod n 10 ltac:(lia)). lia.
Qed.

(** The digits written for [n] are read back as [n]. *)
Lemma digits_of_Z_spec (n : Z) :
  0 <= n ->
  forallb_string is_digit (digits_of_Z n) = true
  /\ is_empty (digits_of_Z n) = false
  /\ radix_value 10 0 (digits_of_Z n) = Some n.
Proof.
  intros Hn. unfold digits_of_Z.
  destruct (digits_acc_spec (S (Z.to_nat (Z.log2 n))) n EmptyString)
    as (ds & E & Hds & Hne & Hr).
  - split; [assumption|].
    rewrite Nat2Z.inj_succ, Z2Nat.id by apply Z.log2_nonneg.
    destruct (Z.eq_dec n 0) as [->|Hz]; [reflexivity|].
    apply Z.log2_spec. lia.
  - discriminate.
  - rewrite E, append_empty_r. repeat split; try assumption.
    rewrite Hr. reflexivity.
Qed.

Lemma take_skip_string (j : nat) (s : string) :
  take_string j s ++ skip_string j s = s.
Proof.
  revert s. induction j as [|j IH]; intros [|c s]; try reflexivity.
  simpl. rewrite append_cons, IH. reflexivity.
Qed.

Lemma length_take_string (j : nat) (s : string) :
  (j <= String.length s)%nat -> String.length (take_string j s) = j.
Proof.
  revert s. induction j as [|j IH]; intros [|c s]; simpl; intros H;
    try reflexivity; try lia.
  rewrite IH by lia. reflexivity.
Qed.

Lemma span_app (p : ascii -> bool) (a : string) (c : ascii) (b : string) :
  forallb_string p a = true -> p c = false ->
  span p (a ++ String c b) = (a, String c b).
Proof.
  intros Ha Hc. induction a as [|x a IH]; simpl in *.
  - rewrite Hc. reflexivity.
  - apply andb_true_iff in Ha. destruct Ha as [Hx Ha].
    rewrite Hx, (IH Ha). reflexivity.
Qed.

(** Digits, a point and digits are read as the integer they spell, scaled
    by the number of digits after the point. *)
Lemma StringToNumber_fixed (ip fp : string) (n : Z) :
  forallb_string is_digit ip = true -> is_empty ip = false ->
  forallb_string is_digit fp = true ->
  radix_value 10 0 (ip ++ fp) = Some n ->
  StringToNumber (ip ++ "." ++ fp)
  = of_decimal false n (- Z.of_nat (String.length fp)).
Proof.
  intros Hip Hne Hfp Hv.
  assert (Hd : forall u, forallb_string is_digit u = true ->
                         forallb_string digit_or_dot u = true).
  { intros u. apply forallb_string_impl. intros c Hc.
    unfold digit_or_dot. rewrite Hc. reflexivity. }
  assert (Hall : forallb_string digit_or_dot (ip ++ "." ++ fp) = true).
  { rewrite forallb_string_app, (Hd _ Hip). rewrite append_cons. simpl.
    apply (Hd _ Hfp). }
  rewrite StringToNumber_unsigned;
    [|exact Hall|destruct ip; [discriminate|reflexivity]].
  unfold StrUnsignedDecimalLiteral. rewrite (not_infinity _ Hall).
  rewrite append_cons. change ("" ++ fp) with fp.
  rewrite (span_app is_digit ip "." fp Hip eq_refl).
  rewrite (span_all is_digit fp Hfp), Hne, Hv. reflexivity.
Qed.

Lemma round_half_up_scaled_nonneg (m : positive) (e f : Z) :
  0 <= f -> 0 <= round_half_up_scaled m e f.
Proof.
  intros Hf. unfold round_half_up_scaled.
  assert (0 < 10 ^ f) by (apply Z.pow_pos_nonneg; lia).
  destruct (Z.leb_spec 0 e).
  - assert (0 < 2 ^ e) by (apply Z.pow_pos_nonneg; lia). nia.
  - assert (0 < 2 ^ (- e)) by (apply Z.pow_pos_nonneg; lia).
    apply Z.div_pos; nia.
Qed.


(** [+x.toFixed(1)] for a positive number below 1e21: the number nearest to
    [n / 10], where [n] is the integer nearest to [10 * x]. *)
Lemma toFixed_one_decimal (m : positive) (e : Z) :
  at_least_1e21 m e = false ->
  StringToNumber (toFixed (S754_finite false m e) 1)
  = of_decimal false (round_half_up_scaled m e 1) (-1).
Proof.
  intros H. unfold toFixed. rewrite H.
  change ("" ++ ?s) with s.
  set (n := round_half_up_scaled m e (Z.of_nat 1)).
  assert (Hn : 0 <= n) by (apply round_half_up_scaled_nonneg; simpl; lia).
  destruct (digits_of_Z_spec n Hn) as (Hds & Hne & Hv).
  unfold fixed_string. set (ds := digits_of_Z n) in *.
  destruct (Nat.leb_spec (String.length ds) 1) as [Hk|Hk].
  - destruct ds as [|c [|c' r]]; try discriminate; [|simpl in Hk; lia].
    change (StringToNumber ("0" ++ "." ++ String c "")
            = of_decimal false n (-1)).
    apply (StringToNumber_fixed "0" (String c "") n); try reflexivity.
    + exact Hds.
    + rewrite radix_value_app. simpl radix_value at 2. exact Hv.
  - set (k := String.length ds) in *.
    assert (Hs : ds = take_string (k - 1) ds ++ skip_string (k - 1) ds)
      by (symmetry; apply take_skip_string).
    assert (Hl : String.length (skip_string (k - 1) ds) = 1%nat).
    { pose proof (length_take_string (k - 1) ds ltac:(unfold k; lia)) as Ht.
      apply (f_equal String.length) in Hs. rewrite length_append, Ht in Hs.
      fold k in Hs. lia. }
    rewrite Hs in Hds. rewrite forallb_string_app in Hds.
    apply andb_true_iff in Hds. destruct Hds as [Ht Hsk].
    replace (-1) with (- Z.of_nat (String.length (skip_string (k - 1) ds)))
      by (rewrite Hl; reflexivity).
    apply StringToNumber_fixed; try assumption.
    + destruct (take_string (k - 1) ds) eqn:Et; [|reflexivity].
      pose proof (length_take_string (k - 1) ds ltac:(unfold k; lia)) as Hlt.
      rewrite Et in Hlt. simpl in Hlt. lia.
    + rewrite <- Hs. exact Hv.
Qed.


(** *** Exact values of the roundings *)

Lemma digits_bounds (p : positive) :
  2 ^ (Zdigits2 (Zpos p) - 1) <= Zpos p < 2 ^ Zdigits2 (Zpos p).
Proof.
  split; [apply pow2_digits_le|].
  simpl. rewrite digits2_pos_size.
  pose proof (Pos.size_gt p) as H.
  change 2 with (Zpos 2). rewrite <- Pos2Z.inj_pow. exact H.
Qed.

Lemma digits_nonneg (m : Z) : 0 <= m -> 0 <= Zdigits2 m.
Proof. destruct m; simpl; lia. Qed.

Lemma digits_unique (m d : Z) :
  0 < m -> 2 ^ (d - 1) <= m < 2 ^ d -> Zdigits2 m = d.
Proof.
  intros Hm [Hl Hu]. destruct m as [|p|p]; try lia.
  pose proof (digits_bounds p) as [Bl Bu].
  set (D := Zdigits2 (Zpos p)) in *.
  assert (HD : 0 < D) by (unfold D; simpl; lia).
  assert (Hd : 0 < d).
  { destruct (Z.ltb_spec 0 d); [assumption|].
    exfalso.
    assert (2 ^ d <= 1).
    { destruct (Z.eq_dec d 0) as [->|]; [simpl; lia|].
      rewrite Z.pow_neg_r by lia. lia. }
    lia. }
  destruct (Z.lt_trichotomy D d) as [H|[H|H]]; [|exact H|].
  - assert (2 ^ D <= 2 ^ (d - 1)) by (apply Z.pow_le_mono_r; lia). lia.
  - assert (2 ^ d <= 2 ^ (D - 1)) by (apply Z.pow_le_mono_r; lia). lia.
Qed.

Lemma digits_lt_pow (m n : Z) :
  0 <= m -> 0 <= n -> m < 2 ^ n -> Zdigits2 m <= n.
Proof.
  intros Hm Hn H. destruct m as [|p|p]; try lia; [simpl; lia|].
  pose proof (digits_bounds p) as [Bl _].
  destruct (Z.leb_spec (Zdigits2 (Zpos p)) n); [assumption|].
  assert (2 ^ n <= 2 ^ (Zdigits2 (Zpos p) - 1)) by (apply Z.pow_le_mono_r; lia).
  lia.
Qed.

Lemma digits_div (m k : Z) :
  0 < m -> 0 <= k ->
  Zdigits2 (m / 2 ^ k) = Z.max 0 (Zdigits2 m - k).
Proof.
  intros Hm Hk. destruct m as [|p|p]; try lia.
  pose proof (digits_bounds p) as [Bl Bu].
  set (D := Zdigits2 (Zpos p)) in *.
  assert (HD : 0 < D) by (unfold D; simpl; lia).
  assert (Hp : 0 < 2 ^ k) by (apply Z.pow_pos_nonneg; lia).
  destruct (Z.leb_spec D k) as [Hle|Hgt].
  - rewrite Z.div_small; [simpl; lia|].
    split; [lia|]. apply Z.lt_le_trans with (2 ^ D); [lia|].
    apply Z.pow_le_mono_r; lia.
  - rewrite Z.max_r by lia. apply digits_unique.
    + apply Z.div_str_pos. split; [lia|].
      apply Z.le_trans with (2 ^ (D - 1)); [|lia]. apply Z.pow_le_mono_r; lia.
    + split.
      * apply Z.div_le_lower_bound; [lia|].
        rewrite <- Z.pow_add_r by lia. replace (k + (D - k - 1)) with (D - 1) by lia.
        exact Bl.
      * apply Z.div_lt_upper_bound; [lia|].
        rewrite <- Z.pow_add_r by lia. replace (k + (D - k)) with D by lia.
        exact Bu.
Qed.

Lemma digits_le_pow (m n : Z) :
  0 <= m -> Zdigits2 m <= n -> m < 2 ^ n.
Proof.
  intros Hm H. destruct m as [|p|p]; try lia.
  - simpl in H. apply Z.pow_pos_nonneg; lia.
  - pose proof (digits_bounds p) as [_ Bu].
    apply Z.lt_le_trans with (2 ^ Zdigits2 (Zpos p)); [exact Bu|].
    apply Z.pow_le_mono_r; [lia|exact H].
Qed.

Lemma shr_fexp_value (m e : Z) (l : location) (mrs : shr_record) (e' : Z) :
  0 <= m ->
  shr_fexp prec emax m e l = (mrs, e') ->
  shr_m mrs = m / 2 ^ Z.max 0 (fexp prec emax (Zdigits2 m + e) - e)
  /\ e' = e + Z.max 0 (fexp prec emax (Zdigits2 m + e) - e)
  /\ (Z.max 0 (fexp prec emax (Zdigits2 m + e) - e) = 0 ->
      mrs = shr_record_of_loc m l).
Proof.
  intros Hm. unfold shr_fexp, shr.
  destruct (fexp prec emax (Zdigits2 m + e) - e) as [|k|k] eqn:Hk;
    intros E; inversion E; subst; clear E.
  - simpl. rewrite shr_m_of_loc, Z.div_1_r. repeat split. lia.
  - rewrite Z.max_r by lia.
    rewrite iter_shr_m by (rewrite shr_m_of_loc; assumption).
    rewrite shr_m_of_loc. repeat split. lia.
  - rewrite Z.max_l by lia. simpl.
    rewrite shr_m_of_loc, Z.div_1_r. repeat split. lia.
Qed.

Lemma round_nearest_even_upper (m : Z) (l : location) :
  round_nearest_even m l <= m + 1.
Proof.
  destruct l as [|[]]; simpl; try lia.
  destruct (Z.even m); lia.
Qed.


Lemma fexp_ge (x : Z) : emin <= fexp prec emax x /\ x - prec <= fexp prec emax x.
Proof. unfold fexp. fold emin. lia. Qed.

Lemma fexp_cases (x : Z) :
  fexp prec emax x = emin \/ fexp prec emax x = x - prec.
Proof. unfold fexp. fold emin. lia. Qed.

Lemma binary_round_aux_value (sx : bool) (mx ex : Z) (lx : location) :
  0 <= mx ->
  exists m2,
    mx / 2 ^ Z.max 0 (fexp prec emax (Zdigits2 mx + ex) - ex) <= m2
    /\ m2 <= mx / 2 ^ Z.max 0 (fexp prec emax (Zdigits2 mx + ex) - ex) + 1
    /\ (Z.max 0 (fexp prec emax (Zdigits2 mx + ex) - ex) = 0 ->
        lx = loc_Exact -> m2 = mx)
    /\ emin <= ex + Z.max 0 (fexp prec emax (Zdigits2 mx + ex) - ex)
    /\ rounds_to sx m2 (ex + Z.max 0 (fexp prec emax (Zdigits2 mx + ex) - ex))
         (binary_round_aux prec emax sx mx ex lx).
Proof.
  intros Hm. unfold binary_round_aux.
  set (k := Z.max 0 (fexp prec emax (Zdigits2 mx + ex) - ex)).
  destruct (shr_fexp prec emax mx ex lx) as [mrs' e'] eqn:E1.
  destruct (shr_fexp_value _ _ _ _ _ Hm E1) as (V1 & -> & X1). fold k in V1, X1 |- *.
  set (m2 := round_nearest_even (shr_m mrs') (loc_of_shr_record mrs')).
  pose proof (round_nearest_even_bounds (shr_m mrs') (loc_of_shr_record mrs')) as Rl.
  pose proof (round_nearest_even_upper (shr_m mrs') (loc_of_shr_record mrs')) as Ru.
  fold m2 in Rl, Ru. rewrite V1 in Rl, Ru.
  pose proof (fexp_ge (Zdigits2 mx + ex)) as [F1 F2].
  assert (Hk : 0 <= k) by (unfold k; lia).
  assert (Hp : 0 < 2 ^ k) by (apply Z.pow_pos_nonneg; lia).
  assert (Hq : 0 <= mx / 2 ^ k) by (apply Z.div_pos; lia).
  assert (He : emin <= ex + k) by (unfold k; lia).
  assert (Hd1 : mx / 2 ^ k < 2 ^ prec).
  { destruct (Z.eq_dec mx 0) as [->|Hz].
    - rewrite Z.div_0_l by lia. reflexivity.
    - apply digits_le_pow; [assumption|].
      rewrite digits_div by lia. unfold k. unfold prec in *. lia. }
  exists m2. split; [exact Rl|]. split; [exact Ru|]. split; [|split; [exact He|]].
  { intros K0 ->. unfold m2. rewrite (X1 K0). reflexivity. }
  destruct (shr_fexp prec emax m2 (ex + k) loc_Exact) as [mrs'' e''] eqn:E2.
  assert (H2 : 0 <= m2) by lia.
  destruct (shr_fexp_value _ _ _ _ _ H2 E2) as (V2 & -> & _).
  pose proof (fexp_cases (Zdigits2 m2 + (ex + k))) as FC.
  pose proof (fexp_ge (Zdigits2 m2 + (ex + k))) as [G1 G2].
  destruct (Z.eq_dec m2 0) as [Z0|NZ].
  - rewrite Z0 in *. simpl Zdigits2 in *.
    replace (Z.max 0 (fexp prec emax (0 + (ex + k)) - (ex + k))) with 0 in V2
      by (unfold prec in *; lia).
    rewrite Z.div_0_l in V2 by lia. rewrite V2. constructor. reflexivity.
  - destruct (Z.ltb_spec m2 (2 ^ prec)) as [Hlt|Hge].
    + assert (D2 : Zdigits2 m2 <= prec)
        by (apply digits_lt_pow; [lia|unfold prec; lia|exact Hlt]).
      replace (Z.max 0 (fexp prec emax (Zdigits2 m2 + (ex + k)) - (ex + k)))
        with 0 in * by lia.
      rewrite Z.div_1_r in V2. rewrite V2.
      destruct m2 as [|p|p]; try lia.
      rewrite Z.add_0_r.
      match goal with |- context [?a <=? ?b] => destruct (Z.leb_spec a b) as [Hf|Ho] end.
      * constructor; [lia|exact D2|reflexivity].
      * constructor; [lia|].
        apply Z.le_trans with (1 * 2 ^ (ex + k - emin)).
        -- rewrite Z.mul_1_l. apply Z.pow_le_mono_r; lia.
        -- apply Z.mul_le_mono_nonneg_r; [apply Z.pow_nonneg|]; lia.
    + assert (E53 : m2 = 2 ^ prec) by lia.
      assert (D2 : Zdigits2 m2 = prec + 1).
      { apply digits_unique; [lia|]. rewrite E53.
        replace (prec + 1 - 1) with prec by lia. split; [lia|].
        apply Z.pow_lt_mono_r; unfold prec; lia. }
      replace (Z.max 0 (fexp prec emax (Zdigits2 m2 + (ex + k)) - (ex + k)))
        with 1 in * by (unfold prec in *; lia).
      rewrite E53 in V2. change (2 ^ prec / 2 ^ 1) with (2 ^ 52) in V2.
      rewrite V2. change (2 ^ 52) with (Zpos (2 ^ 52)).
      match goal with |- context [?a <=? ?b] => destruct (Z.leb_spec a b) as [Hf|Ho] end.
      * constructor; [lia|vm_compute; discriminate|].
        rewrite E53. replace (ex + k + 1 - emin) with (1 + (ex + k - emin)) by lia.
        rewrite Z.pow_add_r by lia.
        change (Zpos (2 ^ 52) * (2 ^ 1 * ?x)) with (2 ^ 52 * (2 * x)).
        change (2 ^ prec) with (2 ^ 52 * 2). ring.
      * constructor; [lia|]. rewrite E53.
        rewrite <- Z.pow_add_r by (unfold prec; lia).
        apply Z.pow_le_mono_r; unfold prec in *; lia.
Qed.

Lemma digits_shift (m d : Z) :
  0 < m -> 0 <= d -> Zdigits2 (m * 2 ^ d) = Zdigits2 m + d.
Proof.
  intros Hm Hd. destruct m as [|p|p]; try lia.
  pose proof (digits_bounds p) as [Bl Bu].
  set (D := Zdigits2 (Zpos p)) in *.
  assert (HD : 0 < D) by (unfold D; simpl; lia).
  assert (Hp : 0 < 2 ^ d) by (apply Z.pow_pos_nonneg; lia).
  apply digits_unique; [nia|].
  replace (D + d - 1) with (D - 1 + d) by lia.
  rewrite !Z.pow_add_r by lia. nia.
Qed.

(** Dropping the last [k] bits of a sum of floating-point numbers does not
    take it below a summand. *)
Lemma floor_keeps_summand (mx a M k : Z) :
  0 < mx < 2 ^ prec -> 0 <= a -> mx * 2 ^ a <= M ->
  0 <= k -> Zdigits2 M = k + prec ->
  mx * 2 ^ a <= M / 2 ^ k * 2 ^ k.
Proof.
  intros Hmx Ha Hle Hk HD.
  assert (HM : 0 < M).
  { assert (0 < 2 ^ a) by (apply Z.pow_pos_nonneg; lia). nia. }
  assert (Hp : 0 < 2 ^ k) by (apply Z.pow_pos_nonneg; lia).
  destruct M as [|p|p]; try lia.
  pose proof (digits_bounds p) as [Bl Bu]. rewrite HD in Bl, Bu.
  destruct (Z.ltb_spec (mx * 2 ^ a) (2 ^ (k + prec - 1))) as [Hs|Hb].
  - apply Z.lt_le_incl. apply Z.lt_le_trans with (2 ^ (k + prec - 1)); [exact Hs|].
    replace (k + prec - 1) with (prec - 1 + k) by lia.
    rewrite Z.pow_add_r by (unfold prec; lia).
    apply Z.mul_le_mono_nonneg_r; [lia|].
    apply Z.div_le_lower_bound; [lia|].
    rewrite Z.mul_comm, <- Z.pow_add_r by (unfold prec; lia).
    replace (prec - 1 + k) with (k + prec - 1) by lia. exact Bl.
  - assert (Hak : k <= a).
    { destruct (Z.leb_spec k a); [assumption|exfalso].
      assert (2 ^ a * 2 ^ prec <= 2 ^ (k + prec - 1)).
      { rewrite <- Z.pow_add_r by (unfold prec; lia).
        apply Z.pow_le_mono_r; unfold prec; lia. }
      assert (0 < 2 ^ a) by (apply Z.pow_pos_nonneg; lia). nia. }
    replace a with (a - k + k) by lia.
    rewrite Z.pow_add_r, Z.mul_assoc by lia.
    apply Z.mul_le_mono_nonneg_r; [lia|].
    apply Z.div_le_lower_bound; [lia|].
    rewrite Z.mul_comm, <- Z.mul_assoc, <- Z.pow_add_r by lia.
    replace (a - k + k) with a by lia. exact Hle.
Qed.


Lemma rounds_to_canonical (sx : bool) (m2 e2 : Z) (x : number) :
  rounds_to sx m2 e2 x -> canonical x.
Proof. intros [H|H H'|m3 e3 H1 H2 H3]; simpl; auto. Qed.

Lemma rounds_to_sign_clear (m2 e2 : Z) (x : number) :
  rounds_to false m2 e2 x -> sign_clear x.
Proof. intros [H|H H'|m3 e3 H1 H2 H3]; reflexivity. Qed.

(** The rounding of a positive sum is at least each summand. *)
Lemma binary_round_lower (M : positive) (ez mx a : Z) :
  emin <= ez -> 0 < mx < 2 ^ prec -> 0 <= a -> mx * 2 ^ a <= Zpos M ->
  canonical (binary_round prec emax false M ez)
  /\ sign_clear (binary_round prec emax false M ez)
  /\ (binary_round prec emax false M ez = S754_infinity false
      \/ exists m3 e3,
           binary_round prec emax false M ez = S754_finite false m3 e3
           /\ mx * 2 ^ a * 2 ^ (ez - emin) <= Zpos m3 * 2 ^ (e3 - emin)).
Proof.
  intros Hez Hmx Ha Hle. unfold binary_round.
  pose proof (fexp_ge (Zpos (digits2_pos M) + ez)) as [F1 F2].
  pose proof (fexp_cases (Zpos (digits2_pos M) + ez)) as FC.
  change (Zpos (digits2_pos M)) with (Zdigits2 (Zpos M)) in *.
  assert (Hpz : 0 < 2 ^ (ez - emin)) by (apply Z.pow_pos_nonneg; lia).
  unfold shl_align.
  destruct (fexp prec emax (Zdigits2 (Zpos M) + ez) - ez) as [|d|d] eqn:Hd.
  - (* no alignment, no shift *)
    destruct (binary_round_aux_value false (Zpos M) ez loc_Exact ltac:(lia))
      as (m2 & L & U & X & E & R).
    rewrite Hd in *. simpl Z.max in *. rewrite Z.add_0_r in R.
    rewrite (X eq_refl eq_refl) in R.
    split; [eapply rounds_to_canonical, R|].
    split; [eapply rounds_to_sign_clear, R|].
    inversion R as [H|H H'|m3 e3 H1 H2 H3]; [lia|left; reflexivity|].
    right. exists m3, e3. split; [reflexivity|]. rewrite H3. nia.
  - (* the sum has more than 53 bits: it is shifted by [d] *)
    destruct (binary_round_aux_value false (Zpos M) ez loc_Exact ltac:(lia))
      as (m2 & L & U & X & E & R).
    rewrite Hd in *. rewrite Z.max_r in * by lia.
    assert (HD : Zdigits2 (Zpos M) = Zpos d + prec) by lia.
    pose proof (floor_keeps_summand mx a (Zpos M) (Zpos d) Hmx Ha Hle ltac:(lia) HD)
      as Hk.
    assert (Hp : 0 < 2 ^ Zpos d) by (apply Z.pow_pos_nonneg; lia).
    split; [eapply rounds_to_canonical, R|].
    split; [eapply rounds_to_sign_clear, R|].
    inversion R as [H|H H'|m3 e3 H1 H2 H3].
    + assert (0 < 2 ^ a) by (apply Z.pow_pos_nonneg; lia). nia.
    + left. reflexivity.
    + right. exists m3, e3. split; [reflexivity|]. rewrite H3.
      replace (ez + Zpos d - emin) with (Zpos d + (ez - emin)) by lia.
      rewrite Z.pow_add_r, Z.mul_assoc by lia.
      apply Z.mul_le_mono_nonneg_r; [lia|].
      apply Z.le_trans with (1 := Hk).
      apply Z.mul_le_mono_nonneg_r; lia.
  - (* the sum is aligned to the exponent of its format: exact *)
    set (mz := Pos.iter xO M d).
    assert (Hmz : Zpos mz = Zpos M * 2 ^ Zpos d).
    { unfold mz. change (Pos.iter xO M d) with (shift_pos d M).
      rewrite shift_pos_correct. apply Z.mul_comm. }
    set (ez' := fexp prec emax (Zdigits2 (Zpos M) + ez)) in *.
    assert (Hz : ez = ez' + Zpos d) by lia.
    destruct (binary_round_aux_value false (Zpos mz) ez' loc_Exact ltac:(lia))
      as (m2 & L & U & X & E & R).
    assert (HD : Zdigits2 (Zpos mz) + ez' = Zdigits2 (Zpos M) + ez).
    { rewrite Hmz, digits_shift by lia. lia. }
    rewrite HD in *. fold ez' in X, R, E.
    replace (Z.max 0 (ez' - ez')) with 0 in * by lia.
    rewrite Z.add_0_r in R. rewrite (X eq_refl eq_refl) in R.
    split; [eapply rounds_to_canonical, R|].
    split; [eapply rounds_to_sign_clear, R|].
    inversion R as [H|H H'|m3 e3 H1 H2 H3]; [lia|left; reflexivity|].
    right. exists m3, e3. split; [reflexivity|]. rewrite H3, Hmz.
    replace (ez - emin) with (Zpos d + (ez' - emin)) by lia.
    rewrite Z.pow_add_r by lia.
    assert (0 < 2 ^ (ez' - emin)) by (apply Z.pow_pos_nonneg; lia).
    assert (0 < 2 ^ Zpos d) by (apply Z.pow_pos_nonneg; lia). nia.
Qed.

Lemma canonical_well_formed (x : number) : canonical x -> well_formed x.
Proof. destruct x as [s|s| |s m e]; simpl; tauto. Qed.

Lemma units_split (m : positive) (e ez : Z) :
  emin <= ez -> ez <= e ->
  Zpos m * 2 ^ (e - emin) = Zpos m * 2 ^ (e - ez) * 2 ^ (ez - emin).
Proof.
  intros H1 H2. rewrite <- Z.mul_assoc, <- Z.pow_add_r by lia.
  do 2 f_equal. lia.
Qed.

Lemma add_finite_lower (mx my : positive) (ex ey : Z) :
  canonical (S754_finite false mx ex) -> canonical (S754_finite false my ey) ->
  sign_clear (add (S754_finite false mx ex) (S754_finite false my ey))
  /\ canonical (add (S754_finite false mx ex) (S754_finite false my ey))
  /\ (isNaN (add (S754_finite false mx ex) (S754_finite false my ey)) = false ->
      value_leb (S754_finite false mx ex)
        (add (S754_finite false mx ex) (S754_finite false my ey)) = true
      /\ value_leb (S754_finite false my ey)
           (add (S754_finite false mx ex) (S754_finite false my ey)) = true).
Proof.
  intros [Ex Dx] [Ey Dy]. unfold add, SFadd.
  set (ez := Z.min ex ey).
  assert (Hez : emin <= ez) by (unfold ez; lia).
  pose proof (shl_align_value mx ex ez ltac:(unfold ez; lia)) as Ax.
  pose proof (shl_align_value my ey ez ltac:(unfold ez; lia)) as Ay.
  set (a := fst (shl_align mx ex ez)) in *.
  set (b := fst (shl_align my ey ez)) in *.
  unfold binary_normalize, cond_Zopp.
  change (Zpos a + Zpos b) with (Zpos (a + b)). cbv iota.
  assert (Bx : 0 < Zpos mx < 2 ^ prec)
    by (split; [lia|apply digits_le_pow; [lia|exact Dx]]).
  assert (By : 0 < Zpos my < 2 ^ prec)
    by (split; [lia|apply digits_le_pow; [lia|exact Dy]]).
  destruct (binary_round_lower (a + b) ez (Zpos mx) (ex - ez) Hez Bx
              ltac:(unfold ez; lia) ltac:(lia)) as (C & S & Lx).
  destruct (binary_round_lower (a + b) ez (Zpos my) (ey - ez) Hez By
              ltac:(unfold ez; lia) ltac:(lia)) as (_ & _ & Ly).
  split; [exact S|]. split; [exact C|]. intros _.
  destruct Lx as [Lx|(m3 & e3 & Lx & Vx)].
  - rewrite Lx. split; reflexivity.
  - destruct Ly as [Ly|(m4 & e4 & Ly & Vy)]; [congruence|].
    rewrite Lx in Ly. inversion Ly; subst m4 e4. rewrite Lx.
    unfold value_leb, units, cond_Zopp.
    rewrite (units_split mx ex ez), (units_split my ey ez) by (unfold ez; lia).
    split; apply Z.leb_le; assumption.
Qed.

(** A sum of two amounts is at least each of them. *)
Lemma add_lower (x y : number) :
  sign_clear x -> sign_clear y -> canonical x -> canonical y ->
  sign_clear (add x y) /\ canonical (add x y)
  /\ (isNaN (add x y) = false ->
      value_leb x (add x y) = true /\ value_leb y (add x y) = true).
Proof.
  destruct x as [sx|sx| |sx mx ex]; destruct y as [sy|sy| |sy my ey];
    intros Sx Sy Cx Cy; simpl in Sx, Sy; subst;
    try (apply add_finite_lower; assumption);
    simpl; unfold cond_Zopp;
    repeat split;
    solve [auto | apply Cx | apply Cy | discriminate | apply Z.leb_refl
           | apply Z.leb_le; apply Z.mul_nonneg_nonneg;
             [lia|apply Z.pow_nonneg; lia]].
Qed.

(** Every amount is at most the total, when the total is a number. *)
Lemma fold_add_lower (l : list number) :
  forall acc,
    sign_clear acc -> canonical acc ->
    Forall (fun x => sign_clear x /\ canonical x) l ->
    sign_clear (fold_left add l acc) /\ canonical (fold_left add l acc)
    /\ (isNaN (fold_left add l acc) = false ->
        value_leb acc (fold_left add l acc) = true
        /\ Forall (fun x => value_leb x (fold_left add l acc) = true) l).
Proof.
  induction l as [|x r IH]; simpl; intros acc Sa Ca Hl.
  - split; [exact Sa|]. split; [exact Ca|]. intros N. split; [|constructor].
    destruct acc as [s|s| |s m e]; simpl in *; subst;
      try reflexivity; try discriminate; apply Z.leb_refl.
  - inversion Hl as [|? ? [Sx Cx] Hr]; subst.
    destruct (add_lower acc x Sa Sx Ca Cx) as (S' & C' & L').
    destruct (IH _ S' C' Hr) as (S2 & C2 & L2).
    split; [exact S2|]. split; [exact C2|]. intros N.
    destruct (L2 N) as [Hacc Hall].
    assert (N' : isNaN (add acc x) = false).
    { destruct (add acc x); try reflexivity. discriminate. }
    destruct (L' N') as [L1 L3].
    split; [eapply value_leb_trans; eassumption|].
    constructor; [eapply value_leb_trans; eassumption|exact Hall].
Qed.

Lemma pow2_le_shift (m1 m2 a b d : Z) :
  0 <= a -> 0 <= b -> 0 <= a + d -> 0 <= b + d ->
  m1 * 2 ^ a <= m2 * 2 ^ b -> m1 * 2 ^ (a + d) <= m2 * 2 ^ (b + d).
Proof.
  intros Ha Hb Had Hbd H.
  destruct (Z.leb_spec 0 d) as [Hd|Hd].
  - rewrite !Z.pow_add_r, !Z.mul_assoc by lia.
    apply Z.mul_le_mono_nonneg_r; [apply Z.pow_nonneg; lia|exact H].
  - assert (Hp : 0 < 2 ^ (- d)) by (apply Z.pow_pos_nonneg; lia).
    apply (proj2 (Z.mul_le_mono_pos_r _ _ (2 ^ (- d)) Hp)).
    rewrite <- !Z.mul_assoc, <- !Z.pow_add_r by lia.
    replace (a + d + - d) with a by lia.
    replace (b + d + - d) with b by lia. exact H.
Qed.

(** A rounding of at most [c], for a small integer [c], is 0 or a number
    that is at most [c + 1]. *)
Lemma binary_round_aux_upper (mx ex c : Z) (lx : location) :
  0 <= mx -> 0 < c -> c < 2 ^ (prec - 1) -> ex <= 0 ->
  mx <= c * 2 ^ (- ex) ->
  binary_round_aux prec emax false mx ex lx = S754_zero false
  \/ exists m e,
       binary_round_aux prec emax false mx ex lx = S754_finite false m e
       /\ emin <= e /\ Zdigits2 (Zpos m) <= prec
       /\ Zpos m * 2 ^ (e - emin) <= (c + 1) * 2 ^ (- emin).
Proof.
  intros Hm Hc Hc' Hex Hle.
  destruct (binary_round_aux_value false mx ex lx Hm) as (m2 & L & U & _ & E & R).
  set (k := Z.max 0 (fexp prec emax (Zdigits2 mx + ex) - ex)) in *.
  assert (Hk : 0 <= k) by (unfold k; lia).
  assert (Hd : Zdigits2 mx + ex <= prec - 1).
  { assert (Zdigits2 mx <= prec - 1 - ex); [|lia].
    apply digits_lt_pow; [exact Hm|unfold prec; lia|].
    apply Z.le_lt_trans with (1 := Hle).
    replace (prec - 1 - ex) with (prec - 1 + - ex) by lia.
    rewrite Z.pow_add_r by (unfold prec; lia).
    apply Z.mul_lt_mono_pos_r; [apply Z.pow_pos_nonneg; lia|exact Hc']. }
  assert (HE : ex + k <= 0).
  { pose proof (fexp_cases (Zdigits2 mx + ex)) as FC.
    pose proof emin_value as Ev. unfold k. unfold prec in *. lia. }
  assert (Hq : mx / 2 ^ k <= c * 2 ^ (- (ex + k))).
  { apply Z.div_le_upper_bound; [apply Z.pow_pos_nonneg; lia|].
    rewrite Z.mul_comm, <- Z.mul_assoc, <- Z.pow_add_r by lia.
    replace (- (ex + k) + k) with (- ex) by lia. exact Hle. }
  assert (Hp : 1 <= 2 ^ (- (ex + k))).
  { change 1 with (2 ^ 0). apply Z.pow_le_mono_r; lia. }
  assert (H2 : m2 * 2 ^ (ex + k - emin) <= (c + 1) * 2 ^ (- emin)).
  { replace (- emin) with (- (ex + k) + (ex + k - emin)) by lia.
    rewrite Z.pow_add_r, Z.mul_assoc by lia.
    apply Z.mul_le_mono_nonneg_r; [apply Z.pow_nonneg; lia|]. nia. }
  inversion R as [H|H H'|m3 e3 H1 H3 H4].
  - left. reflexivity.
  - exfalso.
    assert (2 ^ (emax - prec + 1 - emin) <= (c + 1) * 2 ^ (- emin)) by lia.
    assert (Hs : 2 ^ (prec + - emin) <= 2 ^ (emax - prec + 1 - emin))
      by (apply Z.pow_le_mono_r; pose proof emin_value; unfold emax, prec in *; lia).
    rewrite Z.pow_add_r in Hs by (pose proof emin_value; unfold prec; lia).
    assert (0 < 2 ^ (- emin))
      by (apply Z.pow_pos_nonneg; pose proof emin_value; lia).
    assert (2 * 2 ^ (prec - 1) = 2 ^ prec) by reflexivity. nia.
  - right. exists m3, e3. split; [reflexivity|].
    split; [exact H1|]. split; [exact H3|]. rewrite H4. exact H2.
Qed.

(** An amount divided by a total that is not less is at most 2. *)
Lemma div_upper (ma mt : positive) (ea et : Z) :
  emin <= ea -> emin <= et ->
  Zpos ma * 2 ^ (ea - emin) <= Zpos mt * 2 ^ (et - emin) ->
  div (S754_finite false ma ea) (S754_finite false mt et) = S754_zero false
  \/ exists m e,
       div (S754_finite false ma ea) (S754_finite false mt et)
       = S754_finite false m e
       /\ emin <= e /\ Zdigits2 (Zpos m) <= prec
       /\ Zpos m * 2 ^ (e - emin) <= 2 * 2 ^ (- emin).
Proof.
  intros Ea Et Hle. unfold div, SFdiv, SFdiv_core_binary.
  change (xorb false false) with false.
  pose proof (digits_bounds ma) as [Al Au].
  pose proof (digits_bounds mt) as [Tl Tu].
  set (d1 := Zdigits2 (Zpos ma)) in *. set (d2 := Zdigits2 (Zpos mt)) in *.
  assert (P1 : 0 < d1) by (unfold d1; simpl; lia).
  assert (P2 : 0 < d2) by (unfold d2; simpl; lia).
  assert (Hd : d1 + ea - (d2 + et) <= 0).
  { assert (H : 2 ^ (d1 - 1 + (ea - emin)) < 2 ^ (d2 + (et - emin))).
    { rewrite !Z.pow_add_r by lia.
      assert (0 < 2 ^ (ea - emin)) by (apply Z.pow_pos_nonneg; lia).
      assert (0 < 2 ^ (et - emin)) by (apply Z.pow_pos_nonneg; lia). nia. }
    apply Z.pow_lt_mono_r_iff in H; lia. }
  set (e' := Z.min (fexp prec emax (d1 + ea - (d2 + et))) (ea - et)).
  assert (He' : e' <= 0).
  { pose proof (fexp_cases (d1 + ea - (d2 + et))) as FC.
    pose proof emin_value as Ev. unfold e'. unfold prec in *. lia. }
  set (m' := match ea - et - e' with
             | 0 => Zpos ma
             | Zpos _ => Z.shiftl (Zpos ma) (ea - et - e')
             | Zneg _ => 0
             end).
  assert (Hm' : m' = Zpos ma * 2 ^ (ea - et - e')).
  { unfold m'. destruct (ea - et - e') as [|s|s] eqn:Es.
    - simpl. lia.
    - apply Z.shiftl_mul_pow2. lia.
    - unfold e' in Es. lia. }
  assert (Hq : m' / Zpos mt <= 1 * 2 ^ (- e')).
  { apply Z.div_le_upper_bound; [lia|]. rewrite Hm', Z.mul_1_l.
    replace (ea - et - e') with (ea - emin + (emin - et - e')) by lia.
    replace (- e') with (et - emin + (emin - et - e')) by lia.
    apply pow2_le_shift; try lia; unfold e'; lia. }
  assert (Hq0 : 0 <= m' / Zpos mt).
  { apply Z.div_pos; [|lia]. rewrite Hm'.
    apply Z.mul_nonneg_nonneg; [lia|apply Z.pow_nonneg; lia]. }
  unfold Z.div in Hq, Hq0. destruct (Z.div_eucl m' (Zpos mt)) as [q r].
  simpl fst in Hq, Hq0.
  apply (binary_round_aux_upper q e' 1); try assumption; try lia.
Qed.

(** Such a number is below 1e21, where [toFixed] changes its notation. *)
Lemma below_1e21 (m : positive) (e : Z) :
  emin <= e -> Zpos m * 2 ^ (e - emin) <= 201 * 2 ^ (- emin) ->
  at_least_1e21 m e = false.
Proof.
  intros He Hle. pose proof emin_value as Ev.
  unfold at_least_1e21, fraction_of.
  destruct (Z.leb_spec 0 e) as [H|H]; apply Z.leb_gt.
  - assert (Hs : Zpos m * 2 ^ e <= 201 * 2 ^ 0).
    { replace e with (e - emin + emin) at 1 by lia.
      replace 0 with (- emin + emin) by lia.
      apply pow2_le_shift; try lia. }
    change (2 ^ 0) with 1 in Hs. lia.
  - assert (Hs : Zpos m * 2 ^ 0 <= 201 * 2 ^ (- e)).
    { replace 0 with (e - emin + (emin - e)) at 1 by lia.
      replace (- e) with (- emin + (emin - e)) by lia.
      apply pow2_le_shift; try lia. }
    change (2 ^ 0) with 1 in Hs.
    assert (0 < 2 ^ (- e)) by (apply Z.pow_pos_nonneg; lia). lia.
Qed.

Lemma div_finite_canonical (sx sy : bool) (mx my : positive) (ex ey : Z) :
  canonical (SFdiv prec emax (S754_finite sx mx ex) (S754_finite sy my ey)).
Proof.
  unfold SFdiv, SFdiv_core_binary.
  set (m' := match _ - _ with Z0 => _ | Zpos _ => _ | Zneg _ => _ end).
  assert (Hm' : 0 <= m').
  { unfold m'. destruct (_ - _); try lia. apply Z.shiftl_nonneg. lia. }
  pose proof (Z.div_pos m' (Zpos my) Hm' ltac:(lia)) as Hq.
  unfold Z.div in Hq. destruct (Z.div_eucl m' (Zpos my)) as [q r].
  simpl fst in Hq.
  destruct (binary_round_aux_value (xorb sx sy) q
              (Z.min (fexp prec emax (Zdigits2 (Zpos mx) + ex
                                      - (Zdigits2 (Zpos my) + ey))) (ex - ey))
              (new_location (Zpos my) r) Hq) as (m2 & _ & _ & _ & _ & R).
  eapply rounds_to_canonical, R.
Qed.

Lemma of_decimal_canonical (neg : bool) (m e10 : Z) :
  canonical (of_decimal neg m e10).
Proof.
  unfold of_decimal. destruct m as [|p|p]; try exact I.
  destruct (0 <=? e10); apply div_finite_canonical.
Qed.

Lemma StrUnsignedDecimalLiteral_canonical (neg : bool) (s : string) :
  canonical (StrUnsignedDecimalLiteral neg s).
Proof.
  unfold StrUnsignedDecimalLiteral.
  destruct (String.eqb s "Infinity"); [exact I|].
  destruct (span is_digit s) as [ip r1].
  destruct (match r1 with
            | String "." r => span is_digit r
            | _ => (EmptyString, r1)
            end) as [fp r2].
  destruct (is_empty ip && is_empty fp); [exact I|].
  destruct (radix_value 10 0 (ip ++ fp)) as [m|]; [|exact I].
  destruct (parse_exponent r2) as [e|]; [|exact I].
  apply of_decimal_canonical.
Qed.

Lemma NonDecimalIntegerLiteral_canonical (s : string) (x : number) :
  NonDecimalIntegerLiteral s = Some x -> canonical x.
Proof.
  unfold NonDecimalIntegerLiteral.
  destruct s as [|c s']; [discriminate|].
  destruct c as [[] [] [] [] [] [] [] []]; try discriminate.
  destruct s' as [|p r]; [discriminate|].
  destruct (if (code p =? 120) || (code p =? 88) then Some 16
            else if (code p =? 111) || (code p =? 79) then Some 8
            else if (code p =? 98) || (code p =? 66) then Some 2
            else None) as [b|]; [|discriminate].
  intros E. inversion E; subst; clear E.
  destruct (is_empty r); [exact I|].
  destruct (radix_value b 0 r); [|exact I].
  apply of_decimal_canonical.
Qed.

Lemma StringToNumber_canonical (s : string) : canonical (StringToNumber s).
Proof.
  unfold StringToNumber.
  destruct (is_empty (trim s)); [exact I|].
  destruct (NonDecimalIntegerLiteral (trim s)) as [x|] eqn:E.
  - eapply NonDecimalIntegerLiteral_canonical, E.
  - destruct (trim s) as [|c r]; [apply StrUnsignedDecimalLiteral_canonical|].
    destruct c as [[] [] [] [] [] [] [] []];
      apply StrUnsignedDecimalLiteral_canonical.
Qed.

End JSNumberFacts.

(** ** The conversions on known values *)

Module NumberExamples.
Import JSString JSNumber.

Example reads_decimal_literals :
  map StringToNumber ["0.1"; " 12 "; ""; "5."; ".5"; "1e21"; "-0"; "0x1F"]
  = [S754_finite false 7205759403792794 (-56);
     S754_finite false 6755399441055744 (-49);
     S754_zero false;
     S754_finite false 5629499534213120 (-50);
     S754_finite false 4503599627370496 (-53);
     S754_finite false 7629394531250000 17;
     S754_zero true;
     S754_finite false 8725724278030336 (-48)].
Proof. vm_compute. reflexivity. Qed.

Example rejects_other_strings :
  map (fun s => isNaN (StringToNumber s))
    ["1.2.3"; "."; "1e"; "abc"; "12px"; "0x"; "1 2"; "Infinity"]
  = [true; true; true; true; true; true; true; false].
Proof. vm_compute. reflexivity. Qed.

Example rounds_to_nearest_even :
  StringToNumber "9007199254740993" = StringToNumber "9007199254740992"
  /\ StringToNumber "1.8e308" = pos_infinity
  /\ StringToNumber "2e-324" = pos_zero
  /\ add (StringToNumber "0.1") (StringToNumber "0.2")
     = StringToNumber "0.30000000000000004".
Proof.
  repeat (split; [vm_compute; reflexivity|]). vm_compute. reflexivity.
Qed.

Example writes_shortest_decimals :
  map (fun s => numberToString (StringToNumber s))
    ["0.1"; "1e21"; "1e20"; "123456789012345678901"; "0.000001"; "0.0000001";
     "1.7976931348623157e308"; "5e-324"; "2130"; "18.8"; "1234.5"; "-1.5e-10"]
  = ["0.1"; "1e+21"; "100000000000000000000"; "123456789012345680000";
     "0.000001"; "1e-7"; "1.7976931348623157e+308"; "5e-324"; "2130"; "18.8";
     "1234.5"; "-1.5e-10"].
Proof. vm_compute. reflexivity. Qed.

Example toFixed_rounds_the_exact_value :
  map (fun s => toFixed (StringToNumber s) 1)
    ["1.005"; "0.05"; "0.25"; "1.45"; "0"; "-0.01"; "1e21"; "99.95"; "8.345"]
  = ["1.0"; "0.1"; "0.3"; "1.4"; "0.0"; "-0.0"; "1e+21"; "100.0"; "8.3"].
Proof. vm_compute. reflexivity. Qed.

Example groups_thousands :
  map (fun s => toLocaleString_enUS (StringToNumber s))
    ["400"; "1000"; "1234.5"; "1234567.891"; "0.0004"; "1e21"]
  = ["400"; "1,000"; "1,234.5"; "1,234,567.891"; "0";
     "1,000,000,000,000,000,000,000"].
Proof. vm_compute. reflexivity. Qed.

End NumberExamples.

(** ** The stable sort *)

Module SortFacts.
Import JSNumber JSNumberFacts BudgetView.

Section ByKey.
Context {A : Type} (key : A -> number).

Lemma insert_sorted_Permutation (x : A) (l : list A) :
  Permutation (insert_sorted (descending key) x l) (x :: l).
Proof.
  induction l as [|y r IH]; simpl; [apply Permutation_refl|].
  destruct (gtb (descending key x y) pos_zero).
  - eapply Permutation_trans; [apply perm_skip, IH|apply perm_swap].
  - apply Permutation_refl.
Qed.

Lemma sort_Permutation (l : list A) :
  Permutation (sort (descending key) l) l.
Proof.
  induction l as [|x r IH]; simpl; [constructor|].
  eapply Permutation_trans; [apply insert_sorted_Permutation|].
  apply perm_skip, IH.
Qed.

Lemma sort_keyed (l : list A) :
  Forall (keyed key) l -> Forall (keyed key) (sort (descending key) l).
Proof.
  intros H. rewrite Forall_forall in *. intros a Ha. apply H.
  eapply Permutation_in; [apply sort_Permutation|exact Ha].
Qed.

Lemma insert_sorted_StronglySorted (x : A) (l : list A) :
  (keyed key) x -> Forall (keyed key) l ->
  StronglySorted (precedes key) l ->
  StronglySorted (precedes key) (insert_sorted (descending key) x l).
Proof.
  intros Hx Hl Hs. induction Hs as [|y r Hs IH Hy]; simpl.
  - repeat constructor.
  - inversion Hl as [|? ? Ky Kr]; subst.
    unfold BudgetView.descending at 1. rewrite (sub_sign _ _ Hx Ky).
    destruct (value_leb (key y) (key x)) eqn:E; simpl.
    + constructor; [constructor; assumption|].
      constructor; [exact E|].
      rewrite Forall_forall in *. intros z Hz.
      unfold precedes in *. eapply value_leb_trans; [apply Hy, Hz|exact E].
    + constructor; [apply IH, Kr|].
      rewrite Forall_forall in *. intros z Hz.
      apply (Permutation_in _ (insert_sorted_Permutation x r)) in Hz.
      destruct Hz as [<-|Hz]; [|apply Hy, Hz].
      destruct (value_leb_total _ _ Hx Ky) as [H|H]; [exact H|congruence].
Qed.

(** The sorted array is in (descending key) order of the keys. *)
Lemma sort_StronglySorted (l : list A) :
  Forall (keyed key) l -> StronglySorted (precedes key) (sort (descending key) l).
Proof.
  induction l as [|x r IH]; simpl; intros H; [constructor|].
  inversion H; subst.
  apply insert_sorted_StronglySorted; auto using sort_keyed.
Qed.

Lemma insert_sorted_stable (p : number) (x : A) (l : list A) :
  (keyed key) x -> Forall (keyed key) l ->
  filter (fun a => same_value (key a) p) (insert_sorted (descending key) x l)
  = filter (fun a => same_value (key a) p) (x :: l).
Proof.
  intros Hx Hl. induction l as [|y r IH]; [reflexivity|].
  inversion Hl as [|? ? Ky Kr]; subst. specialize (IH Kr).
  simpl insert_sorted.
  unfold BudgetView.descending at 1. rewrite (sub_sign _ _ Hx Ky).
  destruct (value_leb (key y) (key x)) eqn:E; simpl negb; cbv iota;
    [reflexivity|].
  simpl filter in *. rewrite IH.
  destruct (same_value (key x) p) eqn:Ex;
    destruct (same_value (key y) p) eqn:Ey; try reflexivity.
  unfold same_value in Ex, Ey.
  apply andb_true_iff in Ex, Ey. destruct Ex as [_ Ex], Ey as [Ey _].
  rewrite (value_leb_trans _ _ _ Ey Ex) in E. discriminate.
Qed.

(** Elements with equal keys keep the order they had before the sort. *)
Lemma sort_stable (p : number) (l : list A) :
  Forall (keyed key) l ->
  filter (fun a => same_value (key a) p) (sort (descending key) l)
  = filter (fun a => same_value (key a) p) l.
Proof.
  induction l as [|x r IH]; intros H; [reflexivity|].
  inversion H; subst. simpl sort.
  rewrite insert_sorted_stable by auto using sort_keyed.
  simpl. rewrite IH by assumption. reflexivity.
Qed.
End ByKey.

End SortFacts.

(** ** Reading and writing tables *)

Module TableFacts.
Import JSString JSObject.

Lemma lookup_replace_same (key v : string) (t : table) :
  lookup key t <> None -> lookup key (replace key v t) = Some v.
Proof.
  induction t as [|[k w] r IH]; simpl; intros H; [congruence|].
  destruct (String.eqb k key) eqn:E; simpl; rewrite E; auto.
Qed.

Lemma lookup_replace_other (key v k : string) (t : table) :
  k <> key -> lookup k (replace key v t) = lookup k t.
Proof.
  intros Hk. induction t as [|[k' w] r IH]; simpl; [reflexivity|].
  destruct (String.eqb_spec k' key) as [->|Hne]; simpl.
  - destruct (String.eqb_spec key k); [congruence|reflexivity].
  - rewrite IH. reflexivity.
Qed.


Lemma lookup_app (k : string) (t u : table) :
  lookup k (t ++ u)%list
  = match lookup k t with Some v => Some v | None => lookup k u end.
Proof.
  induction t as [|[k' w] r IH]; simpl; [reflexivity|].
  destruct (String.eqb k' k); auto.
Qed.

Lemma lookup_insert_index_same (i : Z) (key v : string) (t : table) :
  lookup key t = None -> lookup key (insert_index i key v t) = Some v.
Proof.
  induction t as [|[k w] r IH]; simpl; intros H.
  - rewrite String.eqb_refl. reflexivity.
  - destruct (String.eqb k key) eqn:E; [discriminate|].
    destruct (array_index k) as [j|]; [destruct (j <? i)|]; simpl;
      rewrite ?E, ?String.eqb_refl; auto.
Qed.

Lemma lookup_insert_index_other (i : Z) (key v k : string) (t : table) :
  k <> key -> lookup k (insert_index i key v t) = lookup k t.
Proof.
  intros Hk.
  assert (E : String.eqb key k = false) by (apply String.eqb_neq; congruence).
  induction t as [|[k' w] r IH]; simpl; [rewrite E; reflexivity|].
  destruct (array_index k') as [j|]; [destruct (j <? i)|]; simpl;
    rewrite ?E, ?IH; reflexivity.
Qed.

(** After [t[key] = v], the key holds [v]. *)
Lemma lookup_set_same (key v : string) (t : table) :
  lookup key (set key v t) = Some v.
Proof.
  unfold set. destruct (lookup key t) eqn:E.
  - apply lookup_replace_same. congruence.
  - destruct (array_index key).
    + apply lookup_insert_index_same, E.
    + rewrite lookup_app, E. simpl. rewrite String.eqb_refl. reflexivity.
Qed.

(** After [t[key] = v], every other key holds what it held. *)
Lemma lookup_set_other (key v k : string) (t : table) :
  k <> key -> lookup k (set key v t) = lookup k t.
Proof.
  intros Hk. unfold set. destruct (lookup key t) eqn:E.
  - apply lookup_replace_other, Hk.
  - destruct (array_index key).
    + apply lookup_insert_index_other, Hk.
    + rewrite lookup_app. destruct (lookup k t); [reflexivity|].
      simpl. destruct (String.eqb_spec key k); [congruence|reflexivity].
Qed.


Lemma lookup_in_keys (key : string) (t : table) :
  In key (map fst t) -> lookup key t <> None.
Proof.
  induction t as [|[k w] r IH]; simpl; [intros []|].
  intros [->|H]; [rewrite String.eqb_refl; discriminate|].
  destruct (String.eqb k key); [discriminate|auto].
Qed.

End TableFacts.

(** ** The budget aggregator *)

Module BreakdownFacts.
Import JSString JSNumber JSObject JSNumberFacts SortFacts TableFacts BudgetView.

Section Locale.
Variable toLocaleString : number -> string.



Lemma breakdown_of_unfold (b : budget) :
  (breakdown_of toLocaleString) b =
  if strict_eqb (total_of b) pos_zero then []
  else sort (descending percent) (candidates toLocaleString b).
Proof. reflexivity. Qed.

Lemma percent_well_formed (total : number) (entry : string * string) :
  well_formed (percent (category_of toLocaleString total entry)).
Proof. destruct entry as [key val]. apply StringToNumber_well_formed. Qed.

Lemma candidates_keyed (b : budget) :
  Forall (keyed percent) (candidates toLocaleString b).
Proof.
  unfold candidates. apply Forall_forall. intros item Hin.
  apply filter_In in Hin. destruct Hin as [Hin Hpos].
  apply in_map_iff in Hin. destruct Hin as (entry & <- & _).
  split; [exact Hpos|apply percent_well_formed].
Qed.

Lemma positive_not_zero (x : number) :
  gtb x pos_zero = true -> strict_eqb x pos_zero = false.
Proof.
  destruct x as [s|[]| |[] m e]; simpl; intros H; try discriminate; reflexivity.
Qed.


Lemma breakdown_of_subset (b : budget) (item : Category) :
  In item (breakdown_of toLocaleString b) -> In item (candidates toLocaleString b).
Proof.
  rewrite breakdown_of_unfold.
  destruct (strict_eqb (total_of b) pos_zero); [intros []|].
  apply Permutation_in, sort_Permutation.
Qed.

Lemma breakdown_of_origin (b : budget) (item : Category) :
  In item (breakdown_of toLocaleString b) ->
  gtb (percent item) pos_zero = true
  /\ exists key val, In (key, val) b
                     /\ item = (category_of toLocaleString) (total_of b) (key, val).
Proof.
  intros H. apply breakdown_of_subset, filter_In in H.
  destruct H as [H Hp]. split; [exact Hp|].
  apply in_map_iff in H. destruct H as ([key val] & <- & Hin).
  exists key, val. split; [exact Hin|reflexivity].
Qed.

Lemma zero_amount_percent (total : number) :
  gtb (StringToNumber (toFixed (mul (div pos_zero total) hundred) 1)) pos_zero
  = false.
Proof.
  destruct total as [[]|[]| |[] m e]; vm_compute; reflexivity.
Qed.

Lemma keep_not_minus (c : ascii) :
  digit_or_dot c = true -> not_minus c = true.
Proof.
  unfold digit_or_dot, is_digit, is_dot, not_minus. intros H.
  apply negb_true_iff, Z.eqb_neq. intros E. rewrite E in H. discriminate.
Qed.

Lemma parseRM_amount (val : string) :
  sign_clear (parseRM val) /\ well_formed (parseRM val).
Proof.
  unfold parseRM. destruct (is_empty val); [split; [reflexivity|exact I]|].
  split; [|apply StringToNumber_well_formed].
  apply StringToNumber_sign_clear.
  eapply forallb_string_impl; [apply keep_not_minus|].
  apply forallb_filter_string.
Qed.

(** A total of 0 is the sum of amounts that are all 0. *)
Lemma total_zero_amounts (b : budget) :
  strict_eqb (total_of b) pos_zero = true ->
  forall key val, In (key, val) b -> parseRM val = pos_zero.
Proof.
  intros Hz key val Hin. unfold total_of in Hz.
  apply fold_add_zero in Hz; [| reflexivity | exact I |].
  - destruct Hz as [_ Hall]. rewrite Forall_forall in Hall.
    apply Hall. apply (in_map snd) in Hin. apply (in_map parseRM) in Hin.
    exact Hin.
  - apply Forall_forall. intros x Hx. apply in_map_iff in Hx.
    destruct Hx as (v & <- & _). apply parseRM_amount.
Qed.

Lemma candidates_total_zero (b : budget) :
  strict_eqb (total_of b) pos_zero = true -> candidates toLocaleString b = [].
Proof.
  intros Hz. pose proof (total_zero_amounts b Hz) as Ha.
  unfold candidates. generalize (total_of b) as total. intros total. clear Hz.
  induction b as [|[key val] l IH]; [reflexivity|].
  simpl map. simpl filter. unfold percent at 1, category_of at 1.
  rewrite (Ha key val (or_introl eq_refl)), zero_amount_percent.
  apply IH. intros k v Hin. apply (Ha k v). right. exact Hin.
Qed.

Lemma hundred_value : hundred = S754_finite false (100 * 2 ^ 46) (-46).
Proof. vm_compute. reflexivity. Qed.

(** A number that is at most 2, times 100, is at most 201. *)
Lemma mul_hundred_upper (m : positive) (e : Z) :
  emin <= e -> Zpos m * 2 ^ (e - emin) <= 2 * 2 ^ (- emin) ->
  mul (S754_finite false m e) hundred = S754_zero false
  \/ exists m' e',
       mul (S754_finite false m e) hundred = S754_finite false m' e'
       /\ emin <= e' /\ Zdigits2 (Zpos m') <= prec
       /\ Zpos m' * 2 ^ (e' - emin) <= 201 * 2 ^ (- emin).
Proof.
  intros He Hle. rewrite hundred_value. unfold mul, SFmul.
  change (xorb false false) with false.
  pose proof emin_value as Ev.
  assert (He1 : e <= 1).
  { assert (H : 2 ^ (e - emin) <= 2 ^ (1 - emin)).
    { replace (1 - emin) with (1 + - emin) by lia.
      rewrite (Z.pow_add_r 2 1) by lia. change (2 ^ 1) with 2.
      assert (0 < 2 ^ (e - emin)) by (apply Z.pow_pos_nonneg; lia). nia. }
    apply Z.pow_le_mono_r_iff in H; lia. }
  assert (Hs : Zpos m * 2 ^ 46 <= 2 * 2 ^ (46 - e)).
  { replace 46 with (e - emin + (emin - e + 46)) at 1 by lia.
    replace (46 - e) with (- emin + (emin - e + 46)) by lia.
    apply pow2_le_shift; try lia. }
  apply (binary_round_aux_upper _ (e + -46) 200); try lia.
  - reflexivity.
  - rewrite Pos2Z.inj_mul.
    replace (- (e + -46)) with (46 - e) by lia.
    change (Zpos (100 * 2 ^ 46)) with (100 * 2 ^ 46). lia.
Qed.

(** The operand of [toFixed] in the percent of an amount that is at most
    the total: 0, NaN (both amount and total infinite), or a positive number
    below 1e21. *)
Lemma percent_operand (a t : number) :
  sign_clear a -> canonical a -> sign_clear t -> canonical t ->
  value_leb a t = true -> strict_eqb t pos_zero = false ->
  mul (div a t) hundred = pos_zero
  \/ mul (div a t) hundred = nan
  \/ exists m e,
       mul (div a t) hundred = S754_finite false m e
       /\ at_least_1e21 m e = false.
Proof.
  intros Sa Ca St Ct Hle Hz. rewrite hundred_value.
  destruct t as [st|st| |st mt et]; simpl in St; subst;
    [discriminate Hz| | |];
    destruct a as [sa|sa| |sa ma ea]; simpl in Sa; subst;
    try discriminate Hle;
    try (left; reflexivity); try (right; left; reflexivity).
  rewrite <- hundred_value.
  destruct Ca as [Ea Da], Ct as [Et Dt].
  apply Z.leb_le in Hle. simpl in Hle.
  destruct (div_upper ma mt ea et Ea Et Hle) as [->|(m & e & -> & He & _ & Hv)];
    [left; vm_compute; reflexivity|].
  destruct (mul_hundred_upper m e He Hv) as [->|(m' & e' & -> & He' & _ & Hv')];
    [left; reflexivity|].
  right. right. exists m', e'. split; [reflexivity|].
  apply below_1e21; assumption.
Qed.

Lemma parseRM_canonical (val : string) : canonical (parseRM val).
Proof.
  unfold parseRM. destruct (is_empty val); [exact I|].
  apply StringToNumber_canonical.
Qed.

(** Every amount is at most a total that is a number. *)
Lemma total_of_bounds (b : budget) :
  sign_clear (total_of b) /\ canonical (total_of b)
  /\ (isNaN (total_of b) = false ->
      forall key val, In (key, val) b ->
        value_leb (parseRM val) (total_of b) = true).
Proof.
  unfold total_of.
  destruct (fold_add_lower (map parseRM (map snd b)) pos_zero eq_refl I)
    as (S & C & L).
  { apply Forall_forall. intros x Hx. apply in_map_iff in Hx.
    destruct Hx as (v & <- & _).
    split; [apply parseRM_amount|apply parseRM_canonical]. }
  split; [exact S|]. split; [exact C|]. intros N key val Hin.
  destruct (L N) as [_ Hall]. rewrite Forall_forall in Hall.
  apply Hall. apply (in_map snd) in Hin. apply (in_map parseRM) in Hin.
  exact Hin.
Qed.

(** The percent of a displayed category is [toFixed(1)] of a positive
    number below 1e21. *)
Lemma displayed_operand (b : budget) (key val : string) :
  In (key, val) b ->
  gtb (percent (category_of toLocaleString (total_of b) (key, val))) pos_zero
  = true ->
  exists m e,
    mul (div (parseRM val) (total_of b)) hundred = S754_finite false m e
    /\ at_least_1e21 m e = false.
Proof.
  intros Hin Hpos. simpl percent in Hpos.
  destruct (total_of_bounds b) as (St & Ct & Hle).
  destruct (parseRM_amount val) as [Sa _].
  pose proof (parseRM_canonical val) as Ca.
  destruct (strict_eqb (total_of b) pos_zero) eqn:Hz.
  { rewrite (total_zero_amounts b Hz key val Hin) in Hpos.
    rewrite zero_amount_percent in Hpos. discriminate. }
  destruct (isNaN (total_of b)) eqn:N.
  { destruct (total_of b); try discriminate.
    destruct (parseRM val); vm_compute in Hpos; discriminate. }
  destruct (percent_operand _ _ Sa Ca St Ct (Hle eq_refl key val Hin) Hz)
    as [E|[E|E]]; [| |exact E];
    rewrite E in Hpos; vm_compute in Hpos; discriminate.
Qed.


(** C2: for the mapping talent "RM 400", crew "RM 900", propsSet "RM 530",
    location "RM 300" the total is 2130, the percents are crew 42.3,
    propsSet 24.9, talent 18.8 and location 14.1, displayed in that order. *)
Theorem sample_budget_breakdown :
  total_of Examples.sample_budget = of_Z 2130
  /\ numberToString (total_of Examples.sample_budget) = "2130"
  /\ map name (breakdown_of toLocaleString Examples.sample_budget)
     = map formatCategoryName ["crew"; "propsSet"; "talent"; "location"]
  /\ map percent (breakdown_of toLocaleString Examples.sample_budget)
     = map StringToNumber ["42.3"; "24.9"; "18.8"; "14.1"]
  /\ map (fun c => numberToString (percent c))
         (breakdown_of toLocaleString Examples.sample_budget)
     = ["42.3"; "24.9"; "18.8"; "14.1"].
Proof.
  repeat (split; [vm_compute; reflexivity|]). vm_compute. reflexivity.
Qed.

(** C3, as amended: the displayed sequence is in descending order of
    percent, and the categories that share a percent stand in the order in
    which the budget mapping lists them (the sort is stable), which is the
    fixed enumeration order only when the mapping lists its keys so. *)
Theorem breakdown_sorted_stable (b : budget) :
  StronglySorted (fun a c => value_leb (percent c) (percent a) = true)
    (breakdown_of toLocaleString b)
  /\ forall p,
       filter (fun a => same_value (percent a) p) (breakdown_of toLocaleString b)
       = filter (fun a => same_value (percent a) p) (candidates toLocaleString b).
Proof.
  rewrite breakdown_of_unfold.
  destruct (strict_eqb (total_of b) pos_zero) eqn:E.
  - split; [constructor|]. intros p.
    rewrite (candidates_total_zero b E). reflexivity.
  - split.
    + apply (sort_StronglySorted percent), candidates_keyed.
    + intros p. apply sort_stable, candidates_keyed.
Qed.

(** C4: no displayed category has percent 0: every displayed percent is
    greater than 0, and an entry of the mapping whose computed percent is 0,
    or whose amount is 0, is not displayed.  The breakdown is a value
    computed from the mapping [b], which nothing assigns to: the key of such
    an entry is still one that a lookup in [b] finds. *)
Theorem zero_percent_not_displayed (b : budget) :
  (forall item, In item (breakdown_of toLocaleString b) ->
     gtb (percent item) pos_zero = true
     /\ strict_eqb (percent item) pos_zero = false)
  /\ (forall key val,
        In (key, val) b ->
        strict_eqb (percent (category_of toLocaleString (total_of b) (key, val)))
          pos_zero = true
        \/ parseRM val = pos_zero ->
        ~ In (category_of toLocaleString (total_of b) (key, val))
             (breakdown_of toLocaleString b)
        /\ lookup key b <> None).
Proof.
  split.
  - intros item Hin. apply breakdown_of_origin in Hin.
    destruct Hin as [Hpos _]. split; [exact Hpos|].
    apply positive_not_zero, Hpos.
  - intros key val Hentry Hz. split.
    + intros Hin. apply breakdown_of_origin in Hin. destruct Hin as [Hpos _].
      destruct Hz as [Hz|Hz].
      * rewrite (positive_not_zero _ Hpos) in Hz. discriminate.
      * simpl in Hpos. rewrite Hz, zero_amount_percent in Hpos. discriminate.
    + apply lookup_in_keys. apply (in_map fst) in Hentry. exact Hentry.
Qed.

(** C5, as amended: [parseRM] reads the string left after all characters
    other than digits and points are removed.  It raises nothing, and its
    result is never negative: it is 0 when nothing is left (as for "TBD"),
    a number that is not negative when what is left is a decimal numeral,
    and NaN otherwise (as for "1.2.3"). *)
Theorem parseRM_amount_or_nan (val : string) :
  parseRM val
  = (if is_empty val then pos_zero
     else StringToNumber (filter_string digit_or_dot val))
  /\ ltb (parseRM val) pos_zero = false
  /\ (is_empty (filter_string digit_or_dot val) = true -> parseRM val = pos_zero)
  /\ isNaN (parseRM val)
     = negb (is_empty (filter_string digit_or_dot val))
       && negb (unsigned_decimal (filter_string digit_or_dot val))
  /\ (isNaN (parseRM val) = false -> leb pos_zero (parseRM val) = true).
Proof.
  destruct (parseRM_amount val) as [Hs Hw].
  split; [reflexivity|].
  split; [apply sign_clear_not_negative, Hs|].
  split; [|split].
  - unfold parseRM. destruct (is_empty val); [reflexivity|].
    destruct (filter_string digit_or_dot val); [reflexivity|discriminate].
  - unfold parseRM. destruct val as [|c r]; [reflexivity|].
    simpl is_empty at 1. cbv iota.
    apply StringToNumber_digits_dots, forallb_filter_string.
  - destruct (parseRM val) as [s|s| |s m e]; simpl in *; subst;
      try reflexivity; discriminate.
Qed.

End Locale.

End BreakdownFacts.

(** ** Display names and the keys they come from *)

Module NameFacts.
Import JSString JSNumber JSObject BudgetView CategoryNames.

Lemma lower_upper_char (c : ascii) :
  is_upper c = false -> to_lower_char (to_upper_char c) = c.
Proof.
  destruct c as [[] [] [] [] [] [] [] []]; intros H;
    try discriminate H; reflexivity.
Qed.

Lemma space_before_upper_head (s : string) :
  match space_before_upper s with
  | String c _ => is_upper c = false
  | EmptyString => True
  end.
Proof.
  destruct s as [|c r]; simpl; [exact I|].
  destruct (is_upper c) eqn:E; [reflexivity|exact E].
Qed.

Lemma unspace_space_before_upper (s : string) :
  unspace (space_before_upper s) = s.
Proof.
  induction s as [|c r IH]; [reflexivity|].
  simpl space_before_upper.
  pose proof (space_before_upper_head r) as Hh.
  destruct (is_upper c) eqn:E.
  - change (unspace (String " " (String c (space_before_upper r))))
      with (if (code " " =? 32) && is_upper c
            then unspace (String c (space_before_upper r))
            else String " " (unspace (String c (space_before_upper r)))).
    rewrite E. simpl andb. cbv iota.
    destruct (space_before_upper r) as [|c2 r2] eqn:Er.
    + simpl in IH. subst r. reflexivity.
    + change (unspace (String c (String c2 r2)))
        with (if (code c =? 32) && is_upper c2
              then unspace (String c2 r2)
              else String c (unspace (String c2 r2))).
      rewrite Hh, andb_false_r, IH. reflexivity.
  - destruct (space_before_upper r) as [|c2 r2] eqn:Er.
    + simpl in IH. subst r. reflexivity.
    + change (unspace (String c (String c2 r2)))
        with (if (code c =? 32) && is_upper c2
              then unspace (String c2 r2)
              else String c (unspace (String c2 r2))).
      rewrite Hh, andb_false_r, IH. reflexivity.
Qed.

(** The name written for a key without entry in the name map tells the
    key. *)
Lemma key_of_name_fallback (key : string) :
  key_of_name (upper_first (space_before_upper key)) = key.
Proof.
  unfold key_of_name.
  pose proof (space_before_upper_head key) as Hh.
  rewrite <- (unspace_space_before_upper key) at 2.
  f_equal. destruct (space_before_upper key) as [|c r]; [reflexivity|].
  unfold upper_first.
  destruct ((code c =? 10) || (code c =? 13)) eqn:E.
  - simpl. f_equal. unfold to_lower_char. rewrite Hh. reflexivity.
  - simpl. rewrite lower_upper_char by exact Hh. reflexivity.
Qed.

Lemma lookup_some_in (key v : string) (t : table) :
  lookup key t = Some v -> In (key, v) t.
Proof.
  induction t as [|[k w] r IH]; simpl; [discriminate|].
  destruct (String.eqb_spec k key) as [->|Hne].
  - intros E. inversion E. left. reflexivity.
  - intros E. right. apply IH, E.
Qed.

Lemma nameMap_names_distinct (k1 k2 v : string) :
  In (k1, v) nameMap -> In (k2, v) nameMap -> k1 = k2.
Proof.
  simpl. intros Hv Hw.
  repeat match goal with
         | H : _ \/ _ |- _ => destruct H
         | H : False |- _ => destruct H
         end; congruence.
Qed.

(** The keys outside the name map that are written like one of its
    names. *)
Lemma fallback_name_in_map (k v key : string) :
  In (k, v) nameMap -> lookup key nameMap = None ->
  v = upper_first (space_before_upper key) ->
  (k = "propsSet" /\ key = "props &Set")
  \/ (k = "wardrobeMakeup" /\ key = "wardrobe &Makeup").
Proof.
  intros Hv Lc Hk.
  assert (Hc : key_of_name v = key)
    by (rewrite Hk; apply key_of_name_fallback).
  assert (Hcases : In (k, v, key_of_name v)
            (map (fun e => (e, key_of_name (snd e))) nameMap))
    by (apply (in_map (fun e => (e, key_of_name (snd e)))), Hv).
  rewrite Hc in Hcases. clear Hv Hc.
  vm_compute in Hcases.
  repeat match goal with
         | H : _ \/ _ |- _ => destruct H
         | H : False |- _ => destruct H
         end;
    match goal with
    | H : (_, _, _) = (k, v, key) |- _ => inversion H; clear H
    end; subst;
    first [ discriminate Lc
          | match goal with
            | H : _ = upper_first _ |- _ => vm_compute in H; discriminate H
            end
          | left; split; reflexivity
          | right; split; reflexivity ].
Qed.

(** What [formatCategoryName] returns: the entry of the name map, a member
    of [Object.prototype], or the name written from the key. *)
Lemma formatCategoryName_cases (key : string) :
  (exists v, In (key, v) nameMap /\ formatCategoryName key = Str v)
  \/ (lookup key nameMap = None /\ formatCategoryName key = Inherited key)
  \/ (lookup key nameMap = None
      /\ formatCategoryName key
         = Str (upper_first (space_before_upper key))).
Proof.
  unfold formatCategoryName, get.
  destruct (lookup key nameMap) as [v|] eqn:E.
  - left. exists v.
    assert (Hin : In (key, v) nameMap) by (apply lookup_some_in, E).
    split; [exact Hin|].
    simpl in Hin.
    repeat (destruct Hin as [Hin|Hin];
            [inversion Hin; subst; reflexivity|]).
    contradiction.
  - destruct (existsb (String.eqb key) object_prototype_keys);
      [right; left|right; right]; split; reflexivity.
Qed.

(** Two keys have the same display name only when they are the same, or
    when one is propsSet or wardrobeMakeup and the other the key that is
    written like its name. *)
Lemma same_name_keys (a c : string) :
  formatCategoryName a = formatCategoryName c ->
  a = c \/ colliding a c \/ colliding c a.
Proof.
  intros Heq.
  destruct (formatCategoryName_cases a) as [(v & Hv & Ea)|[[La Ea]|[La Ea]]];
    destruct (formatCategoryName_cases c) as [(w & Hw & Ec)|[[Lc Ec]|[Lc Ec]]];
    rewrite Ea, Ec in Heq; try discriminate Heq.
  - inversion Heq; subst w. left. exact (nameMap_names_distinct _ _ _ Hv Hw).
  - inversion Heq as [Hk].
    destruct (fallback_name_in_map a v c Hv Lc Hk) as [[-> ->]|[-> ->]];
      right; left; [left|right]; split; reflexivity.
  - inversion Heq. left. reflexivity.
  - inversion Heq as [Hk].
    symmetry in Hk.
    destruct (fallback_name_in_map c w a Hw La Hk) as [[-> ->]|[-> ->]];
      right; right; [left|right]; split; reflexivity.
  - inversion Heq as [Hk]. left.
    rewrite <- (key_of_name_fallback a), <- (key_of_name_fallback c), Hk.
    reflexivity.
Qed.

End NameFacts.

(** ** The budget editor *)

Module EditFacts.
Import JSString JSNumber JSObject BudgetView TableFacts BreakdownFacts.
Import CategoryNames NameFacts.

Lemma find_category_key_in (b : budget) (nm : value) (key : string) :
  find_category_key b nm = Some key ->
  In key (map fst b) /\ value_eqb (formatCategoryName key) nm = true.
Proof. intros H. apply find_some in H. exact H. Qed.

Lemma value_eqb_eq (a b : value) : value_eqb a b = true <-> a = b.
Proof.
  destruct a as [x|x], b as [y|y]; simpl; split; intros H;
    try discriminate; try (apply String.eqb_eq in H; congruence);
    inversion H; apply String.eqb_refl.
Qed.

(** Where display names tell the keys of the mapping apart, as they do for
    the seven fixed keys, the key found for a displayed category is the key
    of the entry it was computed from. *)
Lemma find_category_key_origin (b : budget) (key : string) :
  In key (map fst b) ->
  (forall k, In k (map fst b) ->
             formatCategoryName k = formatCategoryName key -> k = key) ->
  find_category_key b (formatCategoryName key) = Some key.
Proof.
  unfold find_category_key. induction (map fst b) as [|k ks IH]; simpl;
    [intros []|].
  intros Hin Hinj.
  destruct (value_eqb (formatCategoryName k) (formatCategoryName key)) eqn:E.
  - apply value_eqb_eq in E. f_equal. apply Hinj; auto.
  - destruct Hin as [->|Hin].
    + assert (H : value_eqb (formatCategoryName key) (formatCategoryName key) = true)
        by (apply value_eqb_eq; reflexivity).
      congruence.
    + apply IH; auto.
Qed.

Lemma fixed_names_distinct :
  NoDup (map formatCategoryName Spec.fixed_enumeration).
Proof.
  vm_compute.
  repeat (constructor; [simpl; intuition discriminate|]). constructor.
Qed.

(** The selected project is the first one with the selected title, and a
    write to it changes that element of the array only. *)
Lemma update_selected_split (sel : string) (f : Project -> Project)
    (ps : list Project) (p : Project) :
  find (fun q => String.eqb (title q) sel) ps = Some p ->
  exists before after,
    ps = (before ++ p :: after)%list
    /\ update_selected sel f ps = (before ++ f p :: after)%list
    /\ find (fun q => String.eqb (title q) sel) before = None.
Proof.
  induction ps as [|q r IH]; simpl; [discriminate|].
  destruct (String.eqb (title q) sel) eqn:E.
  - intros H. inversion H; subst. exists [], r. repeat split.
  - intros H. destruct (IH H) as (before & after & -> & -> & Hb).
    exists (q :: before), after. repeat split. simpl. rewrite E. exact Hb.
Qed.

Lemma find_split (A : Type) (f : A -> bool) (before after : list A) (x : A) :
  find f before = None -> f x = true ->
  find f (before ++ x :: after)%list = Some x.
Proof.
  induction before as [|y l IH]; simpl; intros Hb Hx; [rewrite Hx; reflexivity|].
  destruct (f y); [discriminate|auto].
Qed.

Lemma project_budget_write (key v : string) (p : Project) :
  project_budget (write_budget key v p) = option_map (set key v) (project_budget p)
  /\ analysis_budget (write_budget key v p)
     = option_map (set key v) (analysis_budget p)
  /\ title (write_budget key v p) = title p.
Proof.
  unfold project_budget, analysis_budget, write_budget. simpl.
  destruct (scriptBreakdown p) as [[sb]|]; destruct (analysis_data p) as [[[[ab]|]]|];
    repeat split.
Qed.

(** What a successful edit does. *)
Lemma saveBudgetEdit_success (st : State) (category : Category)
    (project : Project) (b : budget) (key : string) :
  editingCategory st = Some category ->
  selectedProject st = Some project ->
  isNaN (Number (editAmount st)) = false ->
  ltb (Number (editAmount st)) pos_zero = false ->
  project_budget project = Some b ->
  find_category_key b (name category) = Some key ->
  is_empty key = false ->
  exists before after,
    projects st = (before ++ project :: after)%list
    /\ projects (fst (saveBudgetEdit st))
       = (before
          ++ write_budget key ("RM " ++ numberToString (Number (editAmount st)))
               project :: after)%list
    /\ selectedProject (fst (saveBudgetEdit st))
       = Some (write_budget key
                 ("RM " ++ numberToString (Number (editAmount st))) project)
    /\ editingCategory (fst (saveBudgetEdit st)) = None
    /\ snd (saveBudgetEdit st) = [].
Proof.
  intros Hc Hp Hn Hneg Hb Hk He.
  unfold saveBudgetEdit. rewrite Hc, Hp, Hn, Hneg, Hb, Hk, He. simpl.
  unfold selectedProject in *. simpl.
  destruct (update_selected_split (selectedProjectTitle st)
              (write_budget key ("RM " ++ numberToString (Number (editAmount st))))
              _ _ Hp) as (before & after & E1 & E2 & E3).
  exists before, after. rewrite E2. repeat split; [exact E1|].
  apply find_split; [exact E3|].
  destruct (project_budget_write key
              ("RM " ++ numberToString (Number (editAmount st))) project)
    as (_ & _ & ->).
  apply find_some in Hp. apply Hp.
Qed.

(** C8: an amount that is not a number or is negative, or a category name
    that no key of the mapping has, leaves every project, and so the whole
    budget mapping, as it was; a refused amount changes nothing at all and
    shows the alert. *)
Theorem saveBudgetEdit_rejected_unchanged (st : State) :
  (isNaN (Number (editAmount st)) = true
   \/ ltb (Number (editAmount st)) pos_zero = true
   \/ (forall category project b,
         editingCategory st = Some category ->
         selectedProject st = Some project ->
         project_budget project = Some b ->
         find_category_key b (name category) = None)) ->
  projects (fst (saveBudgetEdit st)) = projects st
  /\ selectedProject (fst (saveBudgetEdit st)) = selectedProject st
  /\ (isNaN (Number (editAmount st)) = true
      \/ ltb (Number (editAmount st)) pos_zero = true ->
      fst (saveBudgetEdit st) = st).
Proof.
  intros H. unfold saveBudgetEdit.
  destruct (editingCategory st) as [category|] eqn:Hc; [|repeat split].
  destruct (selectedProject st) as [project|] eqn:Hp; [|repeat split; auto].
  destruct (isNaN (Number (editAmount st)) || ltb (Number (editAmount st)) pos_zero)
    eqn:Hv; [repeat split; auto|].
  apply orb_false_iff in Hv. destruct Hv as [Hn Hneg].
  assert (Hsel : forall ps, selectedProject (close_editor ps st)
                            = find (fun p => String.eqb (title p) (selectedProjectTitle st)) ps)
    by reflexivity.
  destruct H as [H|[H|H]]; try congruence.
  destruct (project_budget project) as [b|] eqn:Hb.
  - rewrite (H category project b eq_refl eq_refl Hb). simpl.
    repeat split; try (intros [?|?]; congruence).
    rewrite Hsel. exact Hp.
  - simpl. repeat split; try (intros [?|?]; congruence).
    rewrite Hsel. exact Hp.
Qed.



(** C6, as amended: every currency string the program renders is "RM "
    followed by the rendering of a number: in the displayed breakdown, of the
    parsed amount by [toLocaleString] of the locale (digits grouped in
    thousands in en-US), and in a budget edit, of the entered number by the
    default conversion to a string (which writes 1e+21 and 1e-7 with an
    exponent). *)
Theorem rendered_currency_strings (toLocaleString : number -> string) :
  (forall b item,
     In item (breakdown_of toLocaleString b) ->
     exists key val,
       In (key, val) b
       /\ amount item = "RM " ++ toLocaleString (parseRM val))
  /\ (forall st category project b key,
        editingCategory st = Some category ->
        selectedProject st = Some project ->
        isNaN (Number (editAmount st)) = false ->
        ltb (Number (editAmount st)) pos_zero = false ->
        project_budget project = Some b ->
        find_category_key b (name category) = Some key ->
        is_empty key = false ->
        exists project',
          selectedProject (fst (saveBudgetEdit st)) = Some project'
          /\ option_map (lookup key) (project_budget project')
             = Some (Some ("RM " ++ numberToString (Number (editAmount st))))).
Proof.
  split.
  - intros b item Hin. apply breakdown_of_origin in Hin.
    destruct Hin as (_ & key & val & Hin & ->).
    exists key, val. split; [exact Hin|reflexivity].
  - intros st category project b key Hc Hp Hn Hneg Hb Hk He.
    destruct (saveBudgetEdit_success st category project b key Hc Hp Hn Hneg Hb Hk He)
      as (_ & _ & _ & _ & E3 & _).
    eexists. split; [exact E3|].
    destruct (project_budget_write key
                ("RM " ++ numberToString (Number (editAmount st))) project)
      as (-> & _ & _).
    rewrite Hb. simpl. rewrite lookup_set_same. reflexivity.
Qed.

End EditFacts.

(** ** The upload validation *)

Module ChatFacts.
Import JSString JSNumber ChatPanel.

Section Upload.
Variable uploadScriptFile : File -> option UploadResponse.

Lemma accepted_negb (file : File) :
  negb (includes allowedTypes (file_type file))
  && negb (includes allowedExtensions (fileExtension file))
  = negb (accepted file).
Proof. unfold accepted. rewrite negb_orb. reflexivity. Qed.

Lemma recognized_extension_allowed (ext : string) :
  includes Spec.recognized_extensions ext = true ->
  includes allowedExtensions ext = true.
Proof.
  unfold includes, Spec.recognized_extensions, allowedExtensions. simpl.
  destruct (String.eqb ext ".pdf"); [reflexivity|].
  destruct (String.eqb ext ".txt"); [reflexivity|].
  destruct (String.eqb ext ".fdx"); [intros _|discriminate].
  destruct (String.eqb ext ".fountain"); reflexivity.
Qed.

(** C7, as amended: a file whose declared type is none of application/pdf,
    text/plain, text/x-fountain and whose extension (the lower-cased last
    dot-separated part of its name) is none of .pdf, .txt, .fountain, .fdx
    gets the unsupported-format message and no analysis request is sent;
    every other file, so every file with a PDF, TXT or FDX extension, is
    handed to the analysis. *)
Theorem uploadFile_validation (c1 c2 : Clock) (file : File) (st : State) :
  (accepted file = false ->
   uploadFile uploadScriptFile c1 c2 file st
   = push (message c1 ai unsupported_format_text None) st
   /\ requests (uploadFile uploadScriptFile c1 c2 file st) = requests st
   /\ isLoading (uploadFile uploadScriptFile c1 c2 file st) = isLoading st)
  /\ (accepted file = true ->
      requests (uploadFile uploadScriptFile c1 c2 file st)
      = (requests st ++ [file])%list)
  /\ (includes Spec.recognized_extensions (fileExtension file) = true ->
      accepted file = true).
Proof.
  unfold uploadFile. rewrite accepted_negb.
  split; [|split].
  - intros H. rewrite H. simpl. repeat split.
  - intros H. rewrite H. simpl.
    destruct (uploadScriptFile file); reflexivity.
  - intros H. unfold accepted.
    rewrite (recognized_extension_allowed _ H). apply orb_true_r.
Qed.
End Upload.

End ChatFacts.

(** ** The auth store *)

Module AuthFacts.
Import stdpp.base stdpp.gmap stdpp.strings.
Import JSString AuthStore.

Lemma isAuthenticated_iff (st : Store) :
  isAuthenticated st = true
  <-> exists token, accessToken st = Some token /\ token <> EmptyString.
Proof.
  unfold isAuthenticated. split.
  - destruct (accessToken st) as [token|]; [|discriminate].
    intros H. exists token. split; [reflexivity|].
    destruct token; [discriminate|discriminate].
  - intros (token & -> & Hne). destruct token; [contradiction|reflexivity].
Qed.

(** C10, as amended: [isAuthenticated] holds exactly when the stored access
    token is neither null nor the empty string.  After [setAuth] the token
    and the user are set, in the store and in [localStorage], and
    [isAuthenticated] is true when the token is not empty; after [logout]
    the token and the user are null, [localStorage] has lost them, and
    [isAuthenticated] is false. *)
Theorem auth_store_invariant (stringify : User -> string) (token : string)
    (userData : User) (st : Store) :
  (isAuthenticated st = true
   <-> exists t, accessToken st = Some t /\ t <> EmptyString)
  /\ (accessToken (setAuth stringify token userData st) = Some token
      /\ user (setAuth stringify token userData st) = Some userData
      /\ localStorage (setAuth stringify token userData st) !! "access_token"
         = Some token
      /\ localStorage (setAuth stringify token userData st) !! "user"
         = Some (stringify userData)
      /\ (token <> EmptyString ->
          isAuthenticated (setAuth stringify token userData st) = true))
  /\ (isAuthenticated (logout st) = false
      /\ accessToken (logout st) = None
      /\ user (logout st) = None
      /\ localStorage (logout st) !! "access_token" = None
      /\ localStorage (logout st) !! "user" = None).
Proof.
  split; [apply isAuthenticated_iff|]. split.
  - split; [reflexivity|]. split; [reflexivity|]. split; [|split].
    + simpl. rewrite lookup_insert_ne by discriminate.
      rewrite lookup_insert_ne by discriminate. apply lookup_insert_eq.
    + simpl. rewrite lookup_insert_ne by discriminate. apply lookup_insert_eq.
    + intros Hne. apply isAuthenticated_iff. exists token. split; [reflexivity|exact Hne].
  - split; [reflexivity|]. split; [reflexivity|]. split; [reflexivity|]. split.
    + simpl. rewrite lookup_delete_ne by discriminate.
      rewrite lookup_delete_ne by discriminate. apply lookup_delete_eq.
    + simpl. rewrite lookup_delete_ne by discriminate. apply lookup_delete_eq.
Qed.

End AuthFacts.

(** ** Checks on sample data *)

Module SampleFacts.
Import JSString JSNumber JSObject BudgetView Spec Examples BreakdownFacts.
Import CategoryNames BudgetExamples.


Example sample_budget_display :
  map (fun c => (name c, amount c, numberToString (percent c), color c))
      (breakdown_of toLocaleString_enUS sample_budget)
  = [(Str "Crew", "RM 900", "42.3", Str "#FF9900");
     (Str "Props & Set", "RM 530", "24.9", Str "#3DD65B");
     (Str "Talent", "RM 400", "18.8", Str "#00C6FB");
     (Str "Location", "RM 300", "14.1", Str "#FFD233")]
  /\ map percent (breakdown_of toLocaleString_enUS sample_budget)
     = [of_decimal false 423 (-1); of_decimal false 249 (-1);
        of_decimal false 188 (-1); of_decimal false 141 (-1)].
Proof. split; vm_compute; reflexivity. Qed.

Example category_names :
  map formatCategoryName ["propsSet"; "sfxVfx"; "extraCosts"; "Crew"; "toString"]
  = [Str "Props & Set"; Str "SFX & VFX"; Str "Extra Costs"; Str " Crew";
     Inherited "toString"].
Proof. vm_compute. reflexivity. Qed.

(** With three equal amounts the display lists talent, crew, location as
    the mapping does, although location stands before crew in the fixed
    enumeration. *)
Lemma tied_budget_counterexample :
  map name (breakdown_of toLocaleString_enUS tied_budget)
  = [Str "Talent"; Str "Crew"; Str "Location"]
  /\ ~ ties_in_fixed_order (breakdown_of toLocaleString_enUS tied_budget).
Proof.
  split; [vm_compute; reflexivity|].
  intros H.
  set (crew := category_of toLocaleString_enUS (total_of tied_budget)
                 ("crew", "RM 100")).
  set (location := category_of toLocaleString_enUS (total_of tied_budget)
                     ("location", "RM 100")).
  assert (H1 : nth_error (breakdown_of toLocaleString_enUS tied_budget) 1
               = Some crew) by (vm_compute; reflexivity).
  assert (H2 : nth_error (breakdown_of toLocaleString_enUS tied_budget) 2
               = Some location) by (vm_compute; reflexivity).
  assert (H3 : same_value (percent crew) (percent location) = true)
    by (vm_compute; reflexivity).
  specialize (H 1%nat 2%nat crew location (le_n 2) H1 H2 H3).
  assert (H4 : enumeration_rank (name crew) = 5%nat) by (vm_compute; reflexivity).
  assert (H5 : enumeration_rank (name location) = 1%nat)
    by (vm_compute; reflexivity).
  rewrite H4, H5 in H. lia.
Qed.

Lemma zero_percent_not_displayed_witness :
  ~ In (category_of toLocaleString_enUS (total_of mixed_budget) ("crew", "RM 0"))
       (breakdown_of toLocaleString_enUS mixed_budget)
  /\ lookup "crew" mixed_budget <> None.
Proof.
  apply (proj2 (zero_percent_not_displayed toLocaleString_enUS mixed_budget)
               "crew" "RM 0").
  - simpl. auto.
  - right. vm_compute. reflexivity.
Defined.

(** Two points in what is left of the string: the result is NaN, which is
    neither 0 nor a non-negative amount. *)
Lemma parseRM_two_points_counterexample :
  StringToNumber "1.2.3" = nan
  /\ parseRM "RM 1.2.3" = nan
  /\ leb pos_zero (parseRM "RM 1.2.3") = false
  /\ parseRM "RM 1.2.3" <> pos_zero.
Proof.
  repeat (split; [vm_compute; reflexivity|]). vm_compute. discriminate.
Qed.

Lemma parseRM_amount_or_nan_witness :
  parseRM "TBD" = pos_zero /\ leb pos_zero (parseRM "RM 1,234.50") = true.
Proof.
  split.
  - apply (proj1 (proj2 (proj2 (parseRM_amount_or_nan "TBD")))). reflexivity.
  - apply (proj2 (proj2 (proj2 (proj2 (parseRM_amount_or_nan "RM 1,234.50"))))).
    vm_compute. reflexivity.
Defined.


(** An entered amount of 1e21 is written back as "RM 1e+21", and the
    display of 1000 in en-US is "RM 1,000": neither is "RM " followed by a
    plain numeral. *)
Lemma exponent_amount_counterexample :
  (exists project b,
     selectedProject (fst (saveBudgetEdit (editing (InStr "1e21")))) = Some project
     /\ project_budget project = Some b
     /\ lookup "talent" b = Some "RM 1e+21")
  /\ currency_form "RM 1e+21" = false
  /\ map amount (breakdown_of toLocaleString_enUS mixed_budget) = ["RM 1,000"]
  /\ currency_form "RM 1,000" = false.
Proof.
  split.
  - exists (write_budget "talent" "RM 1e+21" sample_project),
           (set "talent" "RM 1e+21" sample_budget).
    split; [vm_compute; reflexivity|].
    split; vm_compute; reflexivity.
  - split; [vm_compute; reflexivity|].
    split; vm_compute; reflexivity.
Qed.

Lemma rendered_currency_strings_witness :
  (exists key val,
     In (key, val) sample_budget
     /\ amount talent_category = "RM " ++ toLocaleString_enUS (parseRM val))
  /\ exists project',
       selectedProject (fst (saveBudgetEdit (editing (InNum (of_Z 450)))))
       = Some project'
       /\ option_map (lookup "talent") (project_budget project')
          = Some (Some ("RM " ++ numberToString (of_Z 450))).
Proof.
  split.
  - apply (proj1 (EditFacts.rendered_currency_strings toLocaleString_enUS)
             sample_budget talent_category).
    vm_compute. auto 6.
  - apply (proj2 (EditFacts.rendered_currency_strings toLocaleString_enUS)
             (editing (InNum (of_Z 450))) talent_category sample_project
             sample_budget "talent");
      vm_compute; reflexivity.
Defined.

Lemma saveBudgetEdit_rejected_unchanged_witness :
  projects (fst (saveBudgetEdit (editing (InStr "abc"))))
  = projects (editing (InStr "abc"))
  /\ projects (fst (saveBudgetEdit (editing (InNum (of_Z (-5))))))
     = projects (editing (InNum (of_Z (-5)))).
Proof.
  split.
  - apply (EditFacts.saveBudgetEdit_rejected_unchanged (editing (InStr "abc"))).
    left. vm_compute. reflexivity.
  - apply (EditFacts.saveBudgetEdit_rejected_unchanged
             (editing (InNum (of_Z (-5))))).
    right. left. vm_compute. reflexivity.
Defined.



(** A Fountain script with no declared type is outside PDF, TXT and FDX,
    and is sent to the analysis all the same. *)
Lemma fountain_counterexample :
  ChatPanel.includes recognized_types
    (ChatPanel.file_type ChatExamples.fountain_script) = false
  /\ ChatPanel.includes recognized_extensions
       (ChatPanel.fileExtension ChatExamples.fountain_script) = false
  /\ ChatPanel.requests
       (ChatPanel.uploadFile ChatExamples.unreachable ChatExamples.noon
          ChatExamples.noon ChatExamples.fountain_script
          ChatExamples.empty_panel)
     = [ChatExamples.fountain_script].
Proof.
  repeat (split; [vm_compute; reflexivity|]). vm_compute. reflexivity.
Qed.

Lemma uploadFile_validation_witness :
  ChatPanel.requests
    (ChatPanel.uploadFile ChatExamples.unreachable ChatExamples.noon
       ChatExamples.noon ChatExamples.picture ChatExamples.empty_panel) = []
  /\ ChatPanel.requests
       (ChatPanel.uploadFile ChatExamples.unreachable ChatExamples.noon
          ChatExamples.noon ChatExamples.pdf_script ChatExamples.empty_panel)
     = [ChatExamples.pdf_script]
  /\ ChatPanel.accepted ChatExamples.pdf_script = true.
Proof.
  split; [|split].
  - apply (proj1 (ChatFacts.uploadFile_validation ChatExamples.unreachable
                    ChatExamples.noon ChatExamples.noon ChatExamples.picture
                    ChatExamples.empty_panel)).
    vm_compute. reflexivity.
  - apply (proj1 (proj2 (ChatFacts.uploadFile_validation ChatExamples.unreachable
                    ChatExamples.noon ChatExamples.noon ChatExamples.pdf_script
                    ChatExamples.empty_panel))).
    vm_compute. reflexivity.
  - apply (proj2 (proj2 (ChatFacts.uploadFile_validation ChatExamples.unreachable
                    ChatExamples.noon ChatExamples.noon ChatExamples.pdf_script
                    ChatExamples.empty_panel))).
    vm_compute. reflexivity.
Defined.

End SampleFacts.

Module AuthSampleFacts.
Import stdpp.base stdpp.gmap stdpp.strings.
Import AuthStore AuthExamples.

(** [setAuth] with the empty string as token: the stored token is not null,
    the user is set, and [isAuthenticated] is false. *)
Lemma empty_token_counterexample :
  accessToken (setAuth stringify_id "" sample_user signed_out) = Some ""
  /\ user (setAuth stringify_id "" sample_user signed_out) = Some sample_user
  /\ isAuthenticated (setAuth stringify_id "" sample_user signed_out) = false.
Proof. repeat split. Qed.

Lemma auth_store_invariant_witness :
  isAuthenticated (setAuth stringify_id "token-1" sample_user signed_out) = true
  /\ isAuthenticated
       (logout (setAuth stringify_id "token-1" sample_user signed_out)) = false.
Proof.
  pose proof (AuthFacts.auth_store_invariant stringify_id "token-1" sample_user
                signed_out) as (_ & (_ & _ & _ & _ & Hin) & _).
  pose proof (AuthFacts.auth_store_invariant stringify_id "token-1" sample_user
                (setAuth stringify_id "token-1" sample_user signed_out))
    as (_ & _ & (Hout & _)).
  split; [apply Hin; discriminate|exact Hout].
Defined.

End AuthSampleFacts.

(** ** The formatting of chat messages *)

Module FormatFacts.
Import JSString JSNumber JSNumberFacts ChatPanel ChatConversation.

(** Induction on strings, two characters at a time. *)
Lemma string_pair_ind (P : string -> Prop) :
  P EmptyString ->
  (forall c, P (String c EmptyString)) ->
  (forall c c2 r, P (String c2 r) -> P r -> P (String c (String c2 r))) ->
  forall s, P s.
Proof.
  intros H0 H1 H2 s.
  assert (H : P s /\ forall c, P (String c s)).
  { induction s as [|c2 r [IH1 IH2]]; [split; [exact H0|exact H1]|].
    split; [apply IH2|]. intros c. apply H2; [apply IH2|exact IH1]. }
  apply H.
Qed.

Lemma bold_cons (c c2 : ascii) (r : string) :
  bold (String c (String c2 r))
  = if is_star c && is_star c2 then
      match bold_group r with
      | Some t => strong_open ++ t
      | None => String c (bold (String c2 r))
      end
    else String c (bold (String c2 r)).
Proof. reflexivity. Qed.

Lemma bold_group_cons (c c2 : ascii) (r : string) :
  bold_group (String c (String c2 r))
  = if is_star c && is_star c2 then Some (strong_close ++ bold r)
    else if line_terminator c (String c2 r) then None
    else option_map (String c) (bold_group (String c2 r)).
Proof. reflexivity. Qed.

Lemma wide_break_app (c c2 : ascii) (r t : string) (x : ascii) :
  (code x =? 168) || (code x =? 169) = false ->
  wide_break c (String c2 (r ++ String x t)) = wide_break c (String c2 r).
Proof.
  intros Hx. destruct r as [|c3 r]; simpl; [|reflexivity].
  rewrite Hx, andb_false_r. reflexivity.
Qed.

(** The first replacement works on each line by itself. *)
Lemma bold_lines (b : string) (s : string) :
  bold (s ++ newline ++ b) = bold s ++ newline ++ bold b
  /\ bold_group (s ++ newline ++ b)
     = option_map (fun t => t ++ newline ++ bold b) (bold_group s).
Proof.
  induction s as [|c|c c2 r [IH1 IH2] [IH3 IH4]] using string_pair_ind.
  - split.
    + destruct b as [|c2 r]; reflexivity.
    + destruct b as [|c2 r]; reflexivity.
  - assert (E : bold (newline ++ b) = newline ++ bold b)
      by (destruct b as [|c2 r]; reflexivity).
    split.
    + change (bold (String c (String "010" b))
              = String c (String "010" (bold b))).
      rewrite bold_cons.
      replace (is_star c && is_star "010") with false
        by (rewrite andb_false_r; reflexivity).
      f_equal. exact E.
    + change (bold_group (String c (String "010" b)) = None).
      rewrite bold_group_cons.
      replace (is_star c && is_star "010") with false
        by (rewrite andb_false_r; reflexivity).
      destruct (line_terminator c _); [reflexivity|].
      destruct b as [|c2 r]; reflexivity.
  - rewrite !append_cons. rewrite append_cons in IH1, IH2. split.
    + rewrite !bold_cons. destruct (is_star c && is_star c2).
      * rewrite IH4. destruct (bold_group r) as [t|]; cbv [option_map].
        -- rewrite append_assoc. reflexivity.
        -- rewrite IH1. reflexivity.
      * rewrite IH1. reflexivity.
    + rewrite !bold_group_cons. destruct (is_star c && is_star c2).
      * rewrite IH3. cbv [option_map]. rewrite append_assoc. reflexivity.
      * assert (W : line_terminator c (String c2 (r ++ newline ++ b))
                    = line_terminator c (String c2 r)).
        { unfold line_terminator. f_equal.
          apply (wide_break_app c c2 r b "010"). reflexivity. }
        rewrite W. destruct (line_terminator c (String c2 r)); [reflexivity|].
        rewrite IH2.
        destruct (bold_group (String c2 r)); reflexivity.
Qed.

(** Text without stars is left as it is, and so is what comes before the
    first star. *)
Lemma bold_skip (a s : string) :
  forallb_string (fun c => negb (is_star c)) a = true ->
  bold (a ++ s) = a ++ bold s.
Proof.
  induction a as [|c a IH]; [reflexivity|].
  simpl forallb_string. intros H. apply andb_true_iff in H.
  destruct H as [Hc Ha]. apply negb_true_iff in Hc.
  rewrite !append_cons. rewrite <- (IH Ha).
  destruct (a ++ s) as [|c2 r] eqn:E.
  - reflexivity.
  - rewrite bold_cons, Hc. reflexivity.
Qed.

Lemma bold_plain (s : string) :
  forallb_string (fun c => negb (is_star c)) s = true -> bold s = s.
Proof.
  intros H. rewrite <- (append_empty_r s) at 1.
  rewrite (bold_skip s "" H). apply append_empty_r.
Qed.

(** The text of a match: up to the next two stars of the line. *)
Lemma bold_group_line (t b : string) :
  forallb_string line_char t = true ->
  bold_group (t ++ "**" ++ b) = Some (t ++ strong_close ++ bold b).
Proof.
  induction t as [|c t IH]; [reflexivity|].
  simpl forallb_string. intros H. apply andb_true_iff in H.
  destruct H as [Hc Ht]. specialize (IH Ht).
  change (bold_group (String c (t ++ "**" ++ b))
          = Some (String c (t ++ strong_close ++ bold b))).
  destruct (t ++ "**" ++ b) as [|c2 r] eqn:E; [discriminate|].
  rewrite bold_group_cons.
  unfold line_char, plain_char in Hc.
  apply andb_true_iff in Hc. destruct Hc as [Hc Hcr].
  apply andb_true_iff in Hc. destruct Hc as [Hc He2].
  apply andb_true_iff in Hc. destruct Hc as [Hstar Hlf].
  apply negb_true_iff in Hstar, Hlf, He2, Hcr.
  unfold is_star at 1. rewrite Hstar. cbv beta iota. simpl andb.
  unfold line_terminator, is_newline, wide_break.
  rewrite Hlf, Hcr, He2. simpl orb.
  rewrite IH. destruct r; reflexivity.
Qed.

(** Without line feed and without the byte E2 the second replacement finds
    no bullet line. *)
Lemma bullets_plain (s : string) :
  forallb_string (fun c => negb (code c =? 10) && negb (code c =? 226)) s = true ->
  forall p, p <> InBullet -> bullets p s = s.
Proof.
  induction s as [|c r IH]; intros H p Hp.
  - destruct p; [reflexivity|reflexivity|contradiction].
  - simpl forallb_string in H. apply andb_true_iff in H.
    destruct H as [Hc Hr]. apply andb_true_iff in Hc.
    destruct Hc as [Hlf He2]. apply negb_true_iff in Hlf, He2.
    assert (Hw : forall r', wide_break c r' = false).
    { intros r'. unfold wide_break. rewrite He2.
      destruct r' as [|? [|? ?]]; reflexivity. }
    assert (Hb : forall r', bullet_start c r' = false).
    { intros r'. unfold bullet_start. rewrite He2.
      destruct r' as [|? [|? [|? ?]]]; reflexivity. }
    assert (Hon : forall q, q <> InBullet -> bullets q r = r)
      by (intros q Hq; apply IH; assumption).
    assert (Hnext : onward p <> InBullet) by (destruct p; simpl; congruence).
    assert (Hcl : closing p = EmptyString) by (destruct p; simpl; congruence).
    simpl bullets. destruct (is_newline c) eqn:Hn.
    + rewrite Hcl, Hon by discriminate. reflexivity.
    + destruct r as [|c2 [|c3 r3]]; try (rewrite Hon by exact Hnext; reflexivity).
      rewrite Hw.
      destruct p; try contradiction.
      * destruct r3 as [|c4 r4]; [rewrite Hon by discriminate; reflexivity|].
        rewrite Hb, Hon by discriminate. reflexivity.
      * destruct r3; rewrite Hon by discriminate; reflexivity.
Qed.

Lemma line_breaks_plain (s : string) :
  forallb_string (fun c => negb (code c =? 10)) s = true -> line_breaks s = s.
Proof.
  induction s as [|c r IH]; [reflexivity|].
  simpl. intros H. apply andb_true_iff in H. destruct H as [Hc Hr].
  apply negb_true_iff in Hc. rewrite Hc, (IH Hr). reflexivity.
Qed.

Lemma line_breaks_app (a b : string) :
  line_breaks (a ++ b) = line_breaks a ++ line_breaks b.
Proof.
  induction a as [|c a IH]; [reflexivity|].
  rewrite append_cons. simpl. rewrite IH.
  destruct (code c =? 10); [|reflexivity].
  rewrite append_assoc. reflexivity.
Qed.

Lemma line_breaks_no_line_feed (s : string) :
  forallb_string (fun c => negb (code c =? 10)) (line_breaks s) = true.
Proof.
  induction s as [|c r IH]; [reflexivity|].
  simpl. destruct (code c =? 10) eqn:E.
  - rewrite forallb_string_app, IH. reflexivity.
  - simpl. rewrite E, IH. reflexivity.
Qed.

Lemma bullets_cons (p : place) (c : ascii) (r : string) :
  bullets p (String c r)
  = if is_newline c then closing p ++ String c (bullets LineStart r)
    else
      match r with
      | String c2 (String c3 r3) =>
          if wide_break c r then
            closing p ++ String c (String c2 (String c3 (bullets LineStart r3)))
          else
            match p, r3 with
            | LineStart, String c4 r4 =>
                if bullet_start c r then bullet_open ++ bullets InBullet r4
                else String c (bullets (onward p) r)
            | _, _ => String c (bullets (onward p) r)
            end
      | _ => String c (bullets (onward p) r)
      end.
Proof. reflexivity. Qed.

(** The second replacement works on each line by itself. *)
Lemma bullets_lines_bounded (b : string) (n : nat) :
  forall s p,
    (String.length s <= n)%nat ->
    bullets p (s ++ newline ++ b) = bullets p s ++ newline ++ bullets LineStart b.
Proof.
  induction n as [|n IH]; intros s p Hn.
  - destruct s; [|simpl in Hn; lia].
    destruct p; reflexivity.
  - destruct s as [|c r]; [destruct p; reflexivity|].
    simpl in Hn. rewrite append_cons, !bullets_cons.
    destruct (is_newline c).
    { rewrite IH by lia. rewrite !append_assoc. reflexivity. }
    destruct r as [|c2 r].
    { change (EmptyString ++ newline ++ b) with (String "010" b).
      assert (E : bullets (onward p) (String "010" b)
                  = closing (onward p) ++ newline ++ bullets LineStart b)
        by reflexivity.
      destruct b as [|c3 r3].
      - rewrite E. reflexivity.
      - replace (wide_break c (String "010" (String c3 r3))) with false
          by (unfold wide_break; simpl; rewrite andb_false_r; reflexivity).
        replace (bullet_start c (String "010" (String c3 r3))) with false
          by (unfold bullet_start; destruct r3; simpl;
              rewrite ?andb_false_r; reflexivity).
        destruct p; destruct r3; rewrite E; reflexivity. }
    destruct r as [|c3 r].
    { change (String c2 EmptyString ++ newline ++ b) with (String c2 (String "010" b)).
      replace (wide_break c (String c2 (String "010" b))) with false
        by (unfold wide_break; simpl; rewrite andb_false_r; reflexivity).
      replace (bullet_start c (String c2 (String "010" b))) with false
        by (unfold bullet_start; destruct b; simpl;
            rewrite ?andb_false_r; reflexivity).
      assert (E : bullets (onward p) (String c2 (String "010" b))
                  = bullets (onward p) (String c2 EmptyString)
                    ++ newline ++ bullets LineStart b)
        by (apply (IH (String c2 EmptyString)); simpl in *; lia).
      destruct p; destruct b; rewrite E; reflexivity. }
    rewrite !append_cons.
    assert (W : wide_break c (String c2 (String c3 (r ++ newline ++ b)))
                = wide_break c (String c2 (String c3 r))) by reflexivity.
    rewrite W. clear W.
    assert (E1 : bullets LineStart (r ++ newline ++ b)
                 = bullets LineStart r ++ newline ++ bullets LineStart b)
      by (apply IH; simpl in *; lia).
    assert (E2 : bullets (onward p) (String c2 (String c3 (r ++ newline ++ b)))
                 = bullets (onward p) (String c2 (String c3 r))
                   ++ newline ++ bullets LineStart b)
      by (apply (IH (String c2 (String c3 r))); simpl in *; lia).
    destruct (wide_break c (String c2 (String c3 r))).
    { rewrite E1, !append_assoc. reflexivity. }
    destruct r as [|c4 r4].
    { change (EmptyString ++ newline ++ b) with (String "010" b).
      change (EmptyString ++ newline ++ b) with (String "010" b) in E2.
      replace (bullet_start c (String c2 (String c3 (String "010" b)))) with false
        by (unfold bullet_start; simpl; rewrite andb_false_r; reflexivity).
      destruct p; rewrite E2; reflexivity. }
    rewrite !append_cons. rewrite !append_cons in E2.
    assert (B : bullet_start c (String c2 (String c3 (String c4 (r4 ++ newline ++ b))))
                = bullet_start c (String c2 (String c3 (String c4 r4))))
      by reflexivity.
    destruct p; try (rewrite E2; reflexivity).
    rewrite B. destruct (bullet_start c (String c2 (String c3 (String c4 r4)))).
    + rewrite (IH r4) by (simpl in *; lia). rewrite !append_assoc. reflexivity.
    + rewrite E2. reflexivity.
Qed.

Lemma bullets_lines (b s : string) (p : place) :
  bullets p (s ++ newline ++ b) = bullets p s ++ newline ++ bullets LineStart b.
Proof. apply (bullets_lines_bounded b (String.length s)). lia. Qed.

(** In a bullet line without line terminator the text runs to its end. *)
Lemma bullets_in_bullet (t : string) :
  forallb_string
    (fun c => negb (code c =? 10) && negb (code c =? 13) && negb (code c =? 226))
    t = true ->
  bullets InBullet t = t ++ bullet_close.
Proof.
  induction t as [|c r IH]; [reflexivity|].
  simpl forallb_string. intros H. apply andb_true_iff in H.
  destruct H as [Hc Hr]. specialize (IH Hr).
  apply andb_true_iff in Hc. destruct Hc as [Hc He2].
  apply andb_true_iff in Hc. destruct Hc as [Hlf Hcr].
  apply negb_true_iff in Hlf, Hcr, He2.
  rewrite bullets_cons. unfold is_newline. rewrite Hlf, Hcr. simpl orb.
  cbv iota.
  assert (Hw : forall r', wide_break c r' = false).
  { intros r'. unfold wide_break. rewrite He2.
    destruct r' as [|? [|? ?]]; reflexivity. }
  destruct r as [|c2 [|c3 r3]]; try (simpl onward; rewrite IH; reflexivity).
  rewrite Hw. simpl onward. rewrite IH. reflexivity.
Qed.

Lemma bullet_bytes : bullet = String "226" (String "128" (String "162" EmptyString)).
Proof. reflexivity. Qed.

Lemma bullets_bullet_line (x : string) :
  bullets LineStart (bullet ++ " " ++ x) = bullet_open ++ bullets InBullet x.
Proof. reflexivity. Qed.

Lemma forallb_string_cons (q : ascii -> bool) (c : ascii) (s : string) :
  forallb_string q (String c s) = q c && forallb_string q s.
Proof. reflexivity. Qed.

(** The first replacement adds the two tags and nothing else. *)
Lemma bold_forallb (q : ascii -> bool) (s : string) :
  forallb_string q strong_open = true ->
  forallb_string q strong_close = true ->
  forallb_string q s = true ->
  forallb_string q (bold s) = true
  /\ forall t, bold_group s = Some t -> forallb_string q t = true.
Proof.
  intros Ho Hc.
  induction s as [|c|c c2 r IH1 IH2] using string_pair_ind; intros H.
  - split; [reflexivity|discriminate].
  - split; [exact H|discriminate].
  - assert (H' := H). rewrite forallb_string_cons in H'.
    apply andb_true_iff in H'. destruct H' as [Hqc H2].
    assert (H3 := H2). rewrite forallb_string_cons in H3.
    apply andb_true_iff in H3. destruct H3 as [Hqc2 Hr].
    destruct (IH1 H2) as [B1 G1]. destruct (IH2 Hr) as [B2 G2].
    rewrite bold_cons, bold_group_cons. split.
    + destruct (is_star c && is_star c2).
      * destruct (bold_group r) as [t|] eqn:E.
        -- rewrite forallb_string_app, Ho, (G2 t eq_refl). reflexivity.
        -- rewrite forallb_string_cons, Hqc, B1. reflexivity.
      * rewrite forallb_string_cons, Hqc, B1. reflexivity.
    + intros t. destruct (is_star c && is_star c2).
      * intros E. inversion E. rewrite forallb_string_app, Hc, B2. reflexivity.
      * destruct (line_terminator c (String c2 r)); [discriminate|].
        destruct (bold_group (String c2 r)) as [u|] eqn:E; [|discriminate].
        intros E'. inversion E'.
        rewrite forallb_string_cons, Hqc, (G1 u eq_refl). reflexivity.
Qed.

Lemma plain_no_star (c : ascii) : plain_char c = true -> negb (is_star c) = true.
Proof.
  unfold plain_char, is_star. intros H.
  apply andb_true_iff in H. destruct H as [H _].
  apply andb_true_iff in H. apply H.
Qed.

Lemma plain_no_bullet (c : ascii) :
  plain_char c = true -> negb (code c =? 10) && negb (code c =? 226) = true.
Proof.
  unfold plain_char. intros H.
  apply andb_true_iff in H. destruct H as [H H2].
  apply andb_true_iff in H. destruct H as [_ H1]. rewrite H1, H2. reflexivity.
Qed.

Lemma plain_no_line_feed (c : ascii) :
  plain_char c = true -> negb (code c =? 10) = true.
Proof.
  intros H. apply plain_no_bullet in H.
  apply andb_true_iff in H. apply H.
Qed.

Lemma line_plain (c : ascii) : line_char c = true -> plain_char c = true.
Proof. unfold line_char. intros H. apply andb_true_iff in H. apply H. Qed.

Lemma inline_no_bullet (c : ascii) :
  inline_char c = true -> negb (code c =? 10) && negb (code c =? 226) = true.
Proof.
  unfold inline_char. intros H.
  apply andb_true_iff in H. destruct H as [H H2].
  apply andb_true_iff in H. destruct H as [H1 _]. rewrite H1, H2. reflexivity.
Qed.

Lemma inline_no_line_feed (c : ascii) :
  inline_char c = true -> negb (code c =? 10) = true.
Proof.
  intros H. apply inline_no_bullet in H.
  apply andb_true_iff in H. apply H.
Qed.

(** X1: [formatMessage] formats each line of the text by itself and joins
    the lines with the tag of a line break; its result holds no line
    feed. *)
Theorem formatMessage_lines (a b : string) :
  formatMessage (a ++ newline ++ b)
  = formatMessage a ++ "<br/>" ++ formatMessage b
  /\ forallb_string (fun c => negb (code c =? 10)) (formatMessage a) = true.
Proof.
  split; [|apply line_breaks_no_line_feed].
  unfold formatMessage.
  destruct (bold_lines b a) as [-> _].
  rewrite bullets_lines, !line_breaks_app. reflexivity.
Qed.

(** X2: a text without star, line feed and byte E2 comes back as it is:
    markup in the text of a message is not escaped. *)
Theorem formatMessage_plain (s : string) :
  forallb_string plain_char s = true -> formatMessage s = s.
Proof.
  intros H. unfold formatMessage.
  rewrite bold_plain by (eapply forallb_string_impl; [apply plain_no_star|exact H]).
  rewrite bullets_plain;
    [|eapply forallb_string_impl; [apply plain_no_bullet|exact H]|discriminate].
  apply line_breaks_plain.
  eapply forallb_string_impl; [apply plain_no_line_feed|exact H].
Qed.

(** X3: in a line, the text between two pairs of stars is set in a
    [strong] element, and a line that starts with a bullet and a space
    becomes a [div] around the formatted rest of the line. *)
Theorem formatMessage_markup (a t b u : string) :
  forallb_string plain_char a = true ->
  forallb_string line_char t = true ->
  forallb_string plain_char b = true ->
  forallb_string inline_char u = true ->
  formatMessage (a ++ "**" ++ t ++ "**" ++ b)
  = a ++ strong_open ++ t ++ strong_close ++ b
  /\ formatMessage (bullet ++ " " ++ u)
     = bullet_open ++ formatMessage u ++ bullet_close.
Proof.
  intros Ha Ht Hb Hu. split.
  - assert (Hbold : bold (a ++ "**" ++ t ++ "**" ++ b)
                    = a ++ strong_open ++ t ++ strong_close ++ b).
    { rewrite bold_skip
        by (eapply forallb_string_impl; [apply plain_no_star|exact Ha]).
      f_equal.
      change (bold (String "*" (String "*" (t ++ "**" ++ b)))
              = strong_open ++ t ++ strong_close ++ b).
      rewrite bold_cons, (bold_group_line t b Ht).
      rewrite (bold_plain b)
        by (eapply forallb_string_impl; [apply plain_no_star|exact Hb]).
      reflexivity. }
    unfold formatMessage. rewrite Hbold.
    assert (Hp : forallb_string plain_char
                   (a ++ strong_open ++ t ++ strong_close ++ b) = true).
    { rewrite !forallb_string_app, Ha, Hb.
      rewrite (forallb_string_impl _ _ t line_plain Ht). reflexivity. }
    rewrite bullets_plain;
      [|eapply forallb_string_impl; [apply plain_no_bullet|exact Hp]|discriminate].
    apply line_breaks_plain.
    eapply forallb_string_impl; [apply plain_no_line_feed|exact Hp].
  - assert (Hi : forallb_string inline_char (bold u) = true)
      by (apply bold_forallb; [reflexivity|reflexivity|exact Hu]).
    assert (Hf : formatMessage u = bold u).
    { unfold formatMessage.
      rewrite bullets_plain;
        [|eapply forallb_string_impl; [apply inline_no_bullet|exact Hi]
         |discriminate].
      apply line_breaks_plain.
      eapply forallb_string_impl; [apply inline_no_line_feed|exact Hi]. }
    rewrite Hf. unfold formatMessage.
    assert (Hbold : bold (bullet ++ " " ++ u) = bullet ++ " " ++ bold u).
    { rewrite <- !append_assoc. apply bold_skip. reflexivity. }
    rewrite Hbold, bullets_bullet_line, bullets_in_bullet by exact Hi.
    rewrite !line_breaks_app.
    rewrite (line_breaks_plain bullet_open) by reflexivity.
    rewrite (line_breaks_plain bullet_close) by reflexivity.
    rewrite (line_breaks_plain (bold u))
      by (eapply forallb_string_impl; [apply inline_no_line_feed|exact Hi]).
    reflexivity.
Qed.

End FormatFacts.
(** ** The conversation of the chat panel *)

Module ConversationFacts.
Import JSString JSNumber JSNumberFacts ChatPanel ChatConversation.

Lemma slice_last_snoc (A : Type) (n : nat) (l : list A) (x : A) :
  (0 < n)%nat ->
  slice_last n (l ++ [x])%list = (slice_last (n - 1) l ++ [x])%list.
Proof.
  intros Hn. unfold slice_last.
  rewrite skipn_app, length_app. simpl List.length.
  replace (List.length l + 1 - n)%nat with (List.length l - (n - 1))%nat by lia.
  replace (List.length l - (n - 1) - List.length l)%nat with O by lia.
  reflexivity.
Qed.

Lemma slice_last_suffix (A : Type) (n : nat) (l : list A) :
  (firstn (List.length l - n) l ++ slice_last n l)%list = l.
Proof. apply firstn_skipn. Qed.

Lemma length_slice_last (A : Type) (n : nat) (l : list A) :
  List.length (slice_last n l) = Nat.min n (List.length l).
Proof. unfold slice_last. rewrite length_skipn. lia. Qed.

Lemma or_text_not_empty (text : option string) (fallback : string) :
  is_empty fallback = false -> is_empty (or_text text fallback) = false.
Proof.
  intros H. unfold or_text. destruct text as [t|]; [|exact H].
  destruct (is_empty t) eqn:E; [exact H|exact E].
Qed.

Section Chat.
Variable sendChatMessage : ChatRequest -> option ChatResponse.

(** X4: [sendMessage] does nothing while the input is blank, which is
    empty or white space only as [String.prototype.trim] takes it (a
    no-break or an ideographic space included), or a request is loading.
    Otherwise it appends the message of the user and then exactly one
    answer of the assistant whose text is not empty, also when the request
    fails; it empties the input, ends with the loading flag down and sends
    no file. *)
Theorem sendMessage_exchange (c1 c2 : Clock) (p : Panel) :
  (is_empty (ChatConversation.trim (currentMessage p)) = true
   \/ isLoading (chat p) = true ->
   sendMessage sendChatMessage c1 c2 p = p)
  /\ (is_empty (ChatConversation.trim (currentMessage p)) = false ->
      isLoading (chat p) = false ->
      exists reply,
        messages (chat (sendMessage sendChatMessage c1 c2 p))
        = (messages (chat p)
           ++ [ChatPanel.message c1 user (currentMessage p) None; reply])%list
        /\ type reply = ai
        /\ is_empty (content reply) = false
        /\ isLoading (chat (sendMessage sendChatMessage c1 c2 p)) = false
        /\ currentMessage (sendMessage sendChatMessage c1 c2 p) = EmptyString
        /\ requests (chat (sendMessage sendChatMessage c1 c2 p))
           = requests (chat p)
        /\ List.length (sent (sendMessage sendChatMessage c1 c2 p))
           = S (List.length (sent p))).
Proof.
  unfold sendMessage. split.
  - intros [H|H]; rewrite H; [reflexivity|rewrite orb_true_r; reflexivity].
  - intros Ht Hl. rewrite Ht, Hl. cbv [orb].
    match goal with
    | |- context [sendChatMessage ?r] => destruct (sendChatMessage r) as [r'|]
    end.
    + eexists. cbn [chat messages push set_loading isLoading requests
                    currentMessage sent].
      rewrite <- app_assoc. split; [reflexivity|].
      split; [reflexivity|]. split; [apply or_text_not_empty; reflexivity|].
      repeat split. rewrite length_app. simpl. lia.
    + eexists. cbn [chat messages push set_loading isLoading requests
                    currentMessage sent].
      rewrite <- app_assoc. split; [reflexivity|].
      repeat split. rewrite length_app. simpl. lia.
Qed.

(** X5: the request that [sendMessage] sends carries the text of the input
    and, as history, the last ten messages of the conversation at most,
    the message just typed being the last of them. *)
Theorem sendMessage_history (c1 c2 : Clock) (p : Panel) :
  is_empty (ChatConversation.trim (currentMessage p)) = false ->
  isLoading (chat p) = false ->
  exists request older earlier,
    sent (sendMessage sendChatMessage c1 c2 p) = (sent p ++ [request])%list
    /\ message request = currentMessage p
    /\ (messages (chat p)
        ++ [ChatPanel.message c1 user (currentMessage p) None])%list
       = (older ++ history request)%list
    /\ history request
       = (earlier ++ [ChatPanel.message c1 user (currentMessage p) None])%list
    /\ List.length (history request)
       = Nat.min 10 (S (List.length (messages (chat p)))).
Proof.
  intros Ht Hl. unfold sendMessage. rewrite Ht, Hl. cbv [orb].
  cbn [sent messages set_loading push].
  set (m := ChatPanel.message c1 user (currentMessage p) None).
  exists {| message := currentMessage p;
            history := slice_last 10 (messages (chat p) ++ [m]) |}.
  exists (firstn (List.length (messages (chat p) ++ [m]) - 10)
            (messages (chat p) ++ [m])).
  exists (slice_last 9 (messages (chat p))).
  split; [reflexivity|]. split; [reflexivity|]. cbn [history].
  split; [symmetry; apply slice_last_suffix|].
  split; [apply slice_last_snoc; lia|].
  rewrite length_slice_last, length_app. simpl List.length at 2.
  rewrite Nat.add_1_r. reflexivity.
Qed.
End Chat.

Section Upload.
Variable uploadScriptFile : File -> option UploadResponse.

(** X6: of the files selected or dropped only the first is uploaded, and
    nothing happens without a file.  An accepted file adds the message of
    the user and then exactly one answer of the assistant, the summary of
    the analysis with its two actions or, when the analysis fails, the
    error text without actions; the loading flag is down afterwards. *)
Theorem handleFileSelect_messages (c1 c2 : Clock) (file : File)
    (others : list File) (st : State) :
  handleFileSelect uploadScriptFile c1 c2 [] st = st
  /\ handleFileDrop uploadScriptFile c1 c2 [] st = st
  /\ handleFileDrop uploadScriptFile c1 c2 (file :: others) st
     = handleFileSelect uploadScriptFile c1 c2 (file :: others) st
  /\ handleFileSelect uploadScriptFile c1 c2 (file :: others) st
     = handleFileSelect uploadScriptFile c1 c2 [file] st
  /\ (accepted file = true ->
      exists reply,
        messages (handleFileSelect uploadScriptFile c1 c2 (file :: others) st)
        = (messages st
           ++ [ChatPanel.message c1 user
                 ("Uploaded script file: " ++ file_name file) None; reply])%list
        /\ type reply = ai
        /\ is_empty (content reply) = false
        /\ isLoading (handleFileSelect uploadScriptFile c1 c2 (file :: others) st)
           = false
        /\ match uploadScriptFile file with
           | Some data =>
               content reply = analysis_text file data
               /\ option_map (map action) (actions reply)
                  = Some ["view-analysis"; "generate-budget"]
           | None =>
               content reply = analysis_failed_text /\ actions reply = None
           end).
Proof.
  repeat (split; [reflexivity|]).
  intros Ha. unfold handleFileSelect, uploadFile.
  rewrite ChatFacts.accepted_negb, Ha. cbv [negb].
  destruct (uploadScriptFile file) as [data|].
  - eexists. cbn [messages push set_loading record_request isLoading].
    rewrite <- app_assoc. split; [reflexivity|]. repeat split.
  - eexists. cbn [messages push set_loading record_request isLoading].
    rewrite <- app_assoc. split; [reflexivity|]. repeat split.
Qed.
End Upload.

(** *** The extension of a file name *)

Lemma split_on_not_nil (sep : ascii) (s : string) : split_on sep s <> [].
Proof.
  destruct s as [|c r]; simpl; [discriminate|].
  destruct (Ascii.eqb c sep); [discriminate|].
  destruct (split_on sep r); discriminate.
Qed.

Lemma split_on_without (sep : ascii) (s : string) :
  forallb_string (fun c => negb (Ascii.eqb c sep)) s = true ->
  split_on sep s = [s].
Proof.
  induction s as [|c r IH]; [reflexivity|].
  simpl. intros H. apply andb_true_iff in H. destruct H as [Hc Hr].
  apply negb_true_iff in Hc. rewrite Hc, (IH Hr). reflexivity.
Qed.

Lemma last_cons_not_nil (A : Type) (x d : A) (l : list A) :
  l <> [] -> last (x :: l) d = last l d.
Proof. destruct l; [congruence|reflexivity]. Qed.

Lemma split_on_app (sep : ascii) (a t : string) :
  exists x xs, split_on sep (a ++ String sep t) = x :: xs
               /\ xs <> []
               /\ last xs EmptyString = last (split_on sep t) EmptyString.
Proof.
  induction a as [|c a (x & xs & E & Hne & Hl)].
  - exists EmptyString, (split_on sep t).
    change (EmptyString ++ String sep t) with (String sep t).
    simpl. rewrite Ascii.eqb_refl.
    split; [reflexivity|]. split; [apply split_on_not_nil|reflexivity].
  - rewrite append_cons. simpl. rewrite E.
    destruct (Ascii.eqb c sep).
    + exists EmptyString, (x :: xs). split; [reflexivity|].
      split; [discriminate|].
      rewrite last_cons_not_nil by exact Hne. exact Hl.
    + exists (String c x), xs. split; [reflexivity|]. split; assumption.
Qed.

(** X7: the extension that [uploadFile] checks is the text after the last
    dot of the name in lower case, and the whole name in lower case when
    it has no dot: a file without dot in its name passes the validation
    when its name is one of the four extensions without their dot. *)
Theorem fileExtension_last_part (base ext type : string) :
  forallb_string (fun c => negb (Ascii.eqb c ".")) ext = true ->
  fileExtension {| file_name := base ++ "." ++ ext; file_type := type |}
  = "." ++ toLowerCase ext
  /\ fileExtension {| file_name := ext; file_type := type |}
     = "." ++ toLowerCase ext
  /\ (includes allowedExtensions ("." ++ toLowerCase ext) = true ->
      accepted {| file_name := ext; file_type := type |} = true
      /\ accepted {| file_name := base ++ "." ++ ext; file_type := type |} = true).
Proof.
  intros H.
  assert (E1 : fileExtension {| file_name := base ++ "." ++ ext; file_type := type |}
               = "." ++ toLowerCase ext).
  { unfold fileExtension. cbn [file_name].
    destruct (split_on_app "." base ext) as (x & xs & E & Hne & Hl).
    change (base ++ "." ++ ext) with (base ++ String "." ext).
    rewrite E, (last_cons_not_nil _ _ _ _ Hne), Hl.
    rewrite (split_on_without _ _ H). reflexivity. }
  assert (E2 : fileExtension {| file_name := ext; file_type := type |}
               = "." ++ toLowerCase ext).
  { unfold fileExtension. cbn [file_name].
    rewrite (split_on_without _ _ H). reflexivity. }
  split; [exact E1|]. split; [exact E2|].
  intros Hin. unfold accepted. rewrite E1, E2, Hin, !orb_true_r. auto.
Qed.

End ConversationFacts.

(** ** The auth store and the browser storage *)

Module PersistenceFacts.
Import stdpp.base stdpp.gmap stdpp.strings.
Import JSString AuthStore AuthPersistence.

Section JSON.
Variable stringify : User -> string.
Variable parse : string -> option (option User).

Lemma setAuth_persisted (token : string) (userData : User) (st : Store) :
  persisted stringify (setAuth stringify token userData st).
Proof.
  unfold persisted. simpl. repeat split.
  - rewrite lookup_insert_ne by discriminate.
    rewrite lookup_insert_ne by discriminate. apply lookup_insert_eq.
  - rewrite lookup_insert_ne by discriminate. apply lookup_insert_eq.
  - apply lookup_insert_eq.
Qed.

Lemma logout_persisted (st : Store) : persisted stringify (logout st).
Proof.
  unfold persisted. simpl. repeat split.
  - rewrite lookup_delete_ne by discriminate.
    rewrite lookup_delete_ne by discriminate. apply lookup_delete_eq.
  - rewrite lookup_delete_ne by discriminate. apply lookup_delete_eq.
  - apply lookup_delete_eq.
Qed.

Lemma updateUser_persisted (update : PartialUser) (st : Store) :
  persisted stringify st -> persisted stringify (updateUser stringify update st).
Proof.
  unfold persisted. intros (H1 & H2 & H3). unfold updateUser.
  destruct (user st) as [u|] eqn:E; [|rewrite E; auto].
  simpl. repeat split.
  - rewrite lookup_insert_ne by discriminate. exact H1.
  - apply lookup_insert_eq.
  - rewrite lookup_insert_ne by discriminate. exact H3.
Qed.

(** X8: the three actions keep the storage in step with the store: after
    each of them the stored token is the token of the store, the stored
    user is the JSON of its user, and the flag 'isLoggedIn' is set exactly
    when there is a token.  [updateUser] changes the user only: the token
    stays, and nothing happens when no user is signed in. *)
Theorem actions_keep_storage_in_step (token : string) (userData : User)
    (update : PartialUser) (st : Store) :
  persisted stringify (setAuth stringify token userData st)
  /\ persisted stringify (logout st)
  /\ (persisted stringify st ->
      persisted stringify (updateUser stringify update st))
  /\ accessToken (updateUser stringify update st) = accessToken st
  /\ (user st = None -> updateUser stringify update st = st)
  /\ updateUser stringify update (logout st) = logout st.
Proof.
  split; [apply setAuth_persisted|]. split; [apply logout_persisted|].
  split; [apply updateUser_persisted|]. split; [|split].
  - unfold updateUser. destruct (user st); reflexivity.
  - intros H. unfold updateUser. rewrite H. reflexivity.
  - reflexivity.
Qed.

(** X9: the actions write to the keys 'access_token', 'user' and
    'isLoggedIn' only: every other key of the storage keeps its value. *)
Theorem actions_leave_other_keys (token : string) (userData : User)
    (update : PartialUser) (st : Store) (key : string) :
  ~ In key store_keys ->
  localStorage (setAuth stringify token userData st) !! key
  = localStorage st !! key
  /\ localStorage (logout st) !! key = localStorage st !! key
  /\ localStorage (updateUser stringify update st) !! key
     = localStorage st !! key.
Proof.
  clear parse. intros H. simpl in H.
  assert (H1 : "access_token" <> key) by tauto.
  assert (H2 : "user" <> key) by tauto.
  assert (H3 : "isLoggedIn" <> key) by tauto.
  split; [|split].
  - simpl. rewrite !lookup_insert_ne by assumption. reflexivity.
  - simpl. rewrite !lookup_delete_ne by assumption. reflexivity.
  - unfold updateUser. destruct (user st); [|reflexivity].
    simpl. rewrite lookup_insert_ne by assumption. reflexivity.
Qed.

(** X10: a store set up from the storage that an action has left finds
    the session again: after [setAuth] the same token and, where
    [JSON.parse] reads back what [JSON.stringify] wrote, the same user;
    after [logout] no token and no user, whatever the storage held
    before. *)
Theorem reload_restores_session (token : string) (userData : User)
    (st : Store) :
  (is_empty (stringify userData) = false ->
   parse (stringify userData) = Some (Some userData) ->
   create parse (localStorage (setAuth stringify token userData st))
   = Some {| accessToken := Some token;
             user := Some userData;
             localStorage := localStorage (setAuth stringify token userData st) |})
  /\ create parse (localStorage (logout st))
     = Some {| accessToken := None;
               user := None;
               localStorage := localStorage (logout st) |}.
Proof.
  destruct (setAuth_persisted token userData st) as (S1 & S2 & _).
  destruct (logout_persisted st) as (L1 & L2 & _).
  split.
  - intros Hne Hp. unfold create. rewrite S1, S2.
    cbn [option_map user accessToken setAuth]. rewrite Hne, Hp. reflexivity.
  - unfold create. rewrite L1, L2. reflexivity.
Qed.

End JSON.

(** X11: the headers of a request hold the bearer token exactly when the
    store is authenticated, and the content type always; after [logout]
    they hold no token. *)
Theorem getAuthHeaders_bearer (stringify : User -> string) (token : string)
    (userData : User) (st : Store) :
  (isAuthenticated st = true ->
   exists t, accessToken st = Some t
             /\ getAuthHeaders st
                = [("Authorization", "Bearer " +:+ t);
                   ("Content-Type", "application/json")])
  /\ (isAuthenticated st = false ->
      getAuthHeaders st = [("Content-Type", "application/json")])
  /\ getAuthHeaders (logout st) = [("Content-Type", "application/json")]
  /\ (is_empty token = false ->
      getAuthHeaders (setAuth stringify token userData st)
      = [("Authorization", "Bearer " +:+ token);
         ("Content-Type", "application/json")]).
Proof.
  unfold isAuthenticated, getAuthHeaders. split; [|split; [|split]].
  - destruct (accessToken st) as [t|]; [|discriminate].
    destruct (is_empty t); [discriminate|]. intros _. exists t. auto.
  - destruct (accessToken st) as [t|]; [|reflexivity].
    destruct (is_empty t); [reflexivity|discriminate].
  - reflexivity.
  - intros H. simpl. rewrite H. reflexivity.
Qed.

End PersistenceFacts.

(** ** The OAuth callback page *)

Module CallbackFacts.
Import JSString AuthStore OAuthCallback.

Section Callback.
Variable stringify : User -> string.
Variable decodeURIComponent : string -> option string.
Variable parse : string -> option User.

(** X12: whatever the parameters of the URL, the page never shows 'Login
    Successful!': when the login succeeds the loading flag stays up until
    the redirect, and in every other case an error message is set. *)
Theorem callback_never_shows_success (q : Params) (st : Store) :
  screen (view (onMounted stringify decodeURIComponent parse q st))
  <> LoginSuccessful
  /\ (redirect (onMounted stringify decodeURIComponent parse q st) = true ->
      screen (view (onMounted stringify decodeURIComponent parse q st))
      = ProcessingLogin)
  /\ (redirect (onMounted stringify decodeURIComponent parse q st) = false ->
      screen (view (onMounted stringify decodeURIComponent parse q st))
      = LoginFailed).
Proof.
  assert (H : (redirect (onMounted stringify decodeURIComponent parse q st) = true
               /\ screen (view (onMounted stringify decodeURIComponent parse q st))
                  = ProcessingLogin)
              \/ (redirect (onMounted stringify decodeURIComponent parse q st) = false
                  /\ screen (view (onMounted stringify decodeURIComponent parse q st))
                     = LoginFailed)).
  { unfold onMounted.
    destruct (present (access_token q) && present (user_param q)).
    - destruct (access_token q) as [t|]; [|right; split; reflexivity].
      destruct (user_param q) as [u|]; [|right; split; reflexivity].
      destruct (decodeURIComponent u) as [d|]; [|right; split; reflexivity].
      destruct (parse d); [left|right]; split; reflexivity.
    - right. destruct (error_param q) as [e|].
      + destruct e as [|c e]; simpl is_empty; cbv iota;
          [destruct (present (code q))|]; split; reflexivity.
      + destruct (present (code q)); split; reflexivity. }
  destruct H as [[-> ->]|[-> ->]]; repeat split; try discriminate.
Qed.

(** X13: the page signs the user in only from a token and a user that the
    URL carries: the store is [setAuth] of them when both are there and the
    user decodes and parses, and it is untouched in every other case, also
    when the URL carries an authorization code. *)
Theorem callback_store (q : Params) (st : Store) :
  (forall token userParam decoded userData,
     access_token q = Some token -> is_empty token = false ->
     user_param q = Some userParam -> is_empty userParam = false ->
     decodeURIComponent userParam = Some decoded ->
     parse decoded = Some userData ->
     store (onMounted stringify decodeURIComponent parse q st)
     = setAuth stringify token userData st
     /\ isAuthenticated (store (onMounted stringify decodeURIComponent parse q st))
        = true
     /\ redirect (onMounted stringify decodeURIComponent parse q st) = true)
  /\ (redirect (onMounted stringify decodeURIComponent parse q st) = false ->
      store (onMounted stringify decodeURIComponent parse q st) = st)
  /\ (present (access_token q) && present (user_param q) = false ->
      store (onMounted stringify decodeURIComponent parse q st) = st
      /\ redirect (onMounted stringify decodeURIComponent parse q st) = false
      /\ error (view (onMounted stringify decodeURIComponent parse q st))
         = match error_param q with
           | Some e =>
               if is_empty e then
                 if present (code q)
                 then "OAuth callback handling not fully implemented"
                 else "No authorization code received"
               else "OAuth error: " ++ e
           | None =>
               if present (code q)
               then "OAuth callback handling not fully implemented"
               else "No authorization code received"
           end).
Proof.
  split; [|split].
  - intros token userParam decoded userData Ht Hte Hu Hue Hd Hp.
    unfold onMounted. rewrite Ht, Hu. simpl present. rewrite Hte, Hue.
    simpl. rewrite Hd, Hp. simpl. unfold isAuthenticated. simpl.
    rewrite Hte. auto.
  - unfold onMounted.
    destruct (present (access_token q) && present (user_param q)).
    + destruct (access_token q) as [t|]; [|reflexivity].
      destruct (user_param q) as [u|]; [|reflexivity].
      destruct (decodeURIComponent u) as [d|]; [|reflexivity].
      destruct (parse d); [discriminate|reflexivity].
    + destruct (error_param q) as [e|].
      * destruct (is_empty e); [destruct (present (code q))|]; reflexivity.
      * destruct (present (code q)); reflexivity.
  - intros H. unfold onMounted. rewrite H.
    destruct (error_param q) as [e|].
    + destruct (is_empty e); [destruct (present (code q))|]; repeat split.
    + destruct (present (code q)); repeat split.
Qed.

End Callback.

End CallbackFacts.

(** ** The budget view: unusable totals, alerts, hidden rows, summary *)

Module BudgetViewFacts.
Import JSString JSNumber JSObject JSNumberFacts TableFacts BudgetView.
Import BreakdownFacts EditFacts BudgetSummary.

Section Locale.
Variable toLocaleString : number -> string.

(** An amount that is not a number makes the total one. *)
Lemma nan_amount_total (b : budget) (key val : string) :
  In (key, val) b -> isNaN (parseRM val) = true -> isNaN (total_of b) = true.
Proof.
  intros Hin Hn. destruct (total_of_bounds b) as (_ & _ & Hle).
  destruct (isNaN (total_of b)) eqn:E; [reflexivity|].
  specialize (Hle eq_refl key val Hin).
  destruct (parseRM val); discriminate.
Qed.

(** X14: the breakdown shows rows only for a total that is a positive
    finite number.  One amount that is not a number, as for a value with
    two points, empties the whole display, the rows of the valid amounts
    included. *)
Theorem breakdown_needs_finite_total (b : budget) :
  (breakdown_of toLocaleString b <> [] ->
   exists m e, total_of b = S754_finite false m e)
  /\ (forall key val,
        In (key, val) b -> isNaN (parseRM val) = true ->
        breakdown_of toLocaleString b = []).
Proof.
  assert (H : breakdown_of toLocaleString b <> [] ->
              exists m e, total_of b = S754_finite false m e).
  { intros Hne.
    destruct (breakdown_of toLocaleString b) as [|item rest] eqn:E;
      [congruence|].
    assert (Hin : In item (breakdown_of toLocaleString b))
      by (rewrite E; left; reflexivity).
    apply breakdown_of_origin in Hin.
    destruct Hin as (Hpos & key & val & Hentry & ->).
    destruct (displayed_operand toLocaleString b key val Hentry Hpos)
      as (m & e & Hx & _).
    destruct (total_of_bounds b) as (St & _ & _).
    rewrite hundred_value in Hx.
    destruct (total_of b) as [st|st| |st mt et]; simpl in St; subst.
    - destruct (parseRM val); discriminate Hx.
    - destruct (parseRM val); discriminate Hx.
    - destruct (parseRM val); discriminate Hx.
    - exists mt, et. reflexivity. }
  split; [exact H|].
  intros key val Hin Hn.
  destruct (breakdown_of toLocaleString b) as [|item rest] eqn:E;
    [reflexivity|].
  destruct H as (m & e & Ht); [discriminate|].
  pose proof (nan_amount_total b key val Hin Hn) as Hnan.
  rewrite Ht in Hnan. discriminate.
Qed.

(** X17: the summary of a budget whose amounts are all 0 divides by the
    total: its remaining percent is NaN, beside amounts of 0 and the note
    'On track'.  With an amount that is not a number every amount and the
    remaining percent of the summary are NaN. *)
Theorem summary_of_unusable_total (b : budget) :
  (strict_eqb (total_of b) pos_zero = true ->
   summary_of toLocaleString b
   = {| totalBudget := "RM " ++ toLocaleString pos_zero;
        spent := "RM " ++ toLocaleString pos_zero;
        spentPercent := of_Z 75;
        remaining := "RM " ++ toLocaleString pos_zero;
        remainingPercent := nan;
        projectedTotal := "RM " ++ toLocaleString pos_zero;
        projectedNote := "On track" |})
  /\ (forall key val,
        In (key, val) b -> isNaN (parseRM val) = true ->
        summary_of toLocaleString b
        = {| totalBudget := "RM " ++ toLocaleString nan;
             spent := "RM " ++ toLocaleString nan;
             spentPercent := of_Z 75;
             remaining := "RM " ++ toLocaleString nan;
             remainingPercent := nan;
             projectedTotal := "RM " ++ toLocaleString nan;
             projectedNote := "On track" |}).
Proof.
  split.
  - intros Hz. destruct (total_of_bounds b) as (St & _ & _).
    unfold summary_of. rewrite (strict_eqb_zero _ St Hz). reflexivity.
  - intros key val Hin Hn.
    pose proof (nan_amount_total b key val Hin Hn) as Hnan.
    unfold summary_of. destruct (total_of b); try discriminate. reflexivity.
Qed.

End Locale.

(** The ways [saveBudgetEdit] ends. *)
Lemma saveBudgetEdit_cases (st : State) :
  (saveBudgetEdit st = (st, [])
   /\ (editingCategory st = None \/ selectedProject st = None))
  \/ (saveBudgetEdit st = (st, ["Please enter a valid amount"])
      /\ editingCategory st <> None /\ selectedProject st <> None
      /\ (isNaN (Number (editAmount st)) = true
          \/ ltb (Number (editAmount st)) pos_zero = true))
  \/ (saveBudgetEdit st = (close_editor (projects st) st, [])
      /\ isNaN (Number (editAmount st)) = false
      /\ ltb (Number (editAmount st)) pos_zero = false)
  \/ (exists category project b key,
        editingCategory st = Some category
        /\ selectedProject st = Some project
        /\ isNaN (Number (editAmount st)) = false
        /\ ltb (Number (editAmount st)) pos_zero = false
        /\ project_budget project = Some b
        /\ find_category_key b (name category) = Some key
        /\ is_empty key = false
        /\ saveBudgetEdit st
           = (close_editor
                (update_selected (selectedProjectTitle st)
                   (write_budget key
                      ("RM " ++ numberToString (Number (editAmount st))))
                   (projects st)) st, [])).
Proof.
  unfold saveBudgetEdit.
  destruct (editingCategory st) as [category|] eqn:Hc; [|left; auto].
  destruct (selectedProject st) as [project|] eqn:Hp; [|left; auto].
  destruct (isNaN (Number (editAmount st))) eqn:Hn.
  { right. left. repeat split; try discriminate. left. reflexivity. }
  destruct (ltb (Number (editAmount st)) pos_zero) eqn:Hneg.
  { right. left. repeat split; try discriminate. right. reflexivity. }
  simpl orb. cbv iota.
  destruct (project_budget project) as [b|] eqn:Hb;
    [|right; right; left; auto].
  destruct (find_category_key b (name category)) as [key|] eqn:Hk;
    [|right; right; left; auto].
  destruct (is_empty key) eqn:He; [right; right; left; auto|].
  right. right. right. exists category, project, b, key.
  repeat split; assumption.
Qed.

(** X15: the only alert of [saveBudgetEdit] asks for a valid amount, and
    it leaves the editor open and everything unchanged.  With a valid
    amount the editor closes and its field is emptied without any alert,
    also when nothing could be written because the project has no budget
    or no key has the name of the category. *)
Theorem saveBudgetEdit_alerts (st : State) :
  (snd (saveBudgetEdit st) = []
   \/ (snd (saveBudgetEdit st) = ["Please enter a valid amount"]
       /\ fst (saveBudgetEdit st) = st
       /\ (isNaN (Number (editAmount st)) = true
           \/ ltb (Number (editAmount st)) pos_zero = true)))
  /\ (editingCategory st <> None -> selectedProject st <> None ->
      isNaN (Number (editAmount st)) = false ->
      ltb (Number (editAmount st)) pos_zero = false ->
      snd (saveBudgetEdit st) = []
      /\ editingCategory (fst (saveBudgetEdit st)) = None
      /\ editAmount (fst (saveBudgetEdit st)) = InStr EmptyString
      /\ selectedProjectTitle (fst (saveBudgetEdit st))
         = selectedProjectTitle st).
Proof.
  destruct (saveBudgetEdit_cases st)
    as [[E H]|[(E & H1 & H2 & H3)|[(E & H1 & H2)
       |(category & project & b & key & H1 & H2 & H3 & H4 & H5 & H6 & H7 & E)]]];
    rewrite E; simpl.
  - split; [left; reflexivity|]. intros Hc Hp. destruct H; contradiction.
  - split; [right; auto|]. intros _ _ Hn Hneg. destruct H3; congruence.
  - split; [left; reflexivity|]. intros _ _ _ _. repeat split.
  - split; [left; reflexivity|]. intros _ _ _ _. repeat split.
Qed.

Lemma rendered_names (cats : list Category) (category : Category) :
  In category (rendered cats) ->
  In category cats
  /\ name category <> Str "SFX & VFX"
  /\ name category <> Str "Miscellaneous".
Proof.
  unfold rendered. intros H. apply filter_In in H. destruct H as [Hin H].
  apply andb_true_iff in H. destruct H as [H1 H2].
  apply negb_true_iff in H1, H2.
  split; [exact Hin|].
  split; intros E; rewrite E in *; discriminate.
Qed.

(** X16: the template renders no row named 'SFX & VFX' or 'Miscellaneous'.
    An edit that is opened from a rendered row therefore never changes the
    entries of the keys sfxVfx and miscellaneous, in the budget of the
    selected project and in its copy under the analysis data, although
    both count in the total. *)
Theorem hidden_rows_never_edited (st : State) (cats : list Category)
    (category : Category) (project : Project) (key : string) :
  In category (rendered cats) ->
  editingCategory st = Some category ->
  selectedProject st = Some project ->
  key = "sfxVfx" \/ key = "miscellaneous" ->
  exists project',
    selectedProject (fst (saveBudgetEdit st)) = Some project'
    /\ option_map (lookup key) (project_budget project')
       = option_map (lookup key) (project_budget project)
    /\ option_map (lookup key) (analysis_budget project')
       = option_map (lookup key) (analysis_budget project).
Proof.
  intros Hr Hc Hp Hkey.
  destruct (rendered_names _ _ Hr) as (_ & N1 & N2).
  assert (Hsel : forall ps, selectedProject (close_editor ps st)
                            = find (fun p => String.eqb (title p)
                                               (selectedProjectTitle st)) ps)
    by reflexivity.
  destruct (saveBudgetEdit_cases st)
    as [[E H]|[(E & H1 & H2 & H3)|[(E & H1 & H2)
       |(category' & project0 & b & k & H1 & H2 & H3 & H4 & H5 & H6 & H7 & E)]]].
  - exists project. rewrite E. auto.
  - exists project. rewrite E. auto.
  - exists project. rewrite E. simpl fst. rewrite Hsel. auto.
  - rewrite Hc in H1. inversion H1; subst category'.
    rewrite Hp in H2. inversion H2; subst project0.
    destruct (saveBudgetEdit_success st category project b k
                Hc Hp H3 H4 H5 H6 H7) as (_ & _ & _ & _ & Es & _).
    exists (write_budget k ("RM " ++ numberToString (Number (editAmount st)))
              project).
    split; [exact Es|].
    destruct (project_budget_write k
                ("RM " ++ numberToString (Number (editAmount st))) project)
      as (-> & -> & _).
    apply find_category_key_in in H6. destruct H6 as [_ Hname].
    apply value_eqb_eq in Hname.
    assert (Hne : key <> k).
    { intros ->. destruct Hkey as [->| ->].
      - apply N1. rewrite <- Hname. reflexivity.
      - apply N2. rewrite <- Hname. reflexivity. }
    split.
    + destruct (project_budget project); [|reflexivity]. simpl.
      rewrite lookup_set_other by exact Hne. reflexivity.
    + destruct (analysis_budget project); [|reflexivity]. simpl.
      rewrite lookup_set_other by exact Hne. reflexivity.
Qed.

End BudgetViewFacts.

(** ** Roundings that stay below a number of the format *)

Module RoundingBounds.
Import JSString JSNumber JSNumberFacts.

Lemma shr_1_even (m : Z) :
  0 <= m ->
  shr_1 {| shr_m := 2 * m; shr_r := false; shr_s := false |}
  = {| shr_m := m; shr_r := false; shr_s := false |}.
Proof. destruct m as [|p|p]; [reflexivity|reflexivity|lia]. Qed.

(** Shifting out zeros keeps the record exact. *)
Lemma iter_shr_exact (k : positive) :
  forall m, 0 <= m ->
    iter_pos shr_1 k {| shr_m := m * 2 ^ Zpos k; shr_r := false; shr_s := false |}
    = {| shr_m := m; shr_r := false; shr_s := false |}.
Proof.
  induction k as [k IH|k IH|]; intros m Hm.
  - assert (Hp : 0 < 2 ^ Zpos k) by (apply Z.pow_pos_nonneg; lia).
    replace (m * 2 ^ Zpos k~1) with (2 * (m * 2 ^ Zpos k * 2 ^ Zpos k)).
    + change (iter_pos shr_1 k
                (iter_pos shr_1 k
                   (shr_1 {| shr_m := 2 * (m * 2 ^ Zpos k * 2 ^ Zpos k);
                             shr_r := false; shr_s := false |}))
              = {| shr_m := m; shr_r := false; shr_s := false |}).
      rewrite shr_1_even by nia. rewrite IH by nia. apply IH, Hm.
    + replace (Zpos k~1) with (1 + Zpos k + Zpos k) by lia.
      rewrite !Z.pow_add_r by lia. change (2 ^ 1) with 2. ring.
  - assert (Hp : 0 < 2 ^ Zpos k) by (apply Z.pow_pos_nonneg; lia).
    replace (m * 2 ^ Zpos k~0) with (m * 2 ^ Zpos k * 2 ^ Zpos k).
    + change (iter_pos shr_1 k
                (iter_pos shr_1 k
                   {| shr_m := m * 2 ^ Zpos k * 2 ^ Zpos k;
                      shr_r := false; shr_s := false |})
              = {| shr_m := m; shr_r := false; shr_s := false |}).
      rewrite IH by nia. apply IH, Hm.
    + replace (Zpos k~0) with (Zpos k + Zpos k) by lia.
      rewrite Z.pow_add_r by lia. ring.
  - replace (m * 2 ^ 1) with (2 * m) by (change (2 ^ 1) with 2; ring).
    apply shr_1_even, Hm.
Qed.

(** The rounding of a number that the format holds: the shift of the
    significand drops zeros only. *)
Lemma binary_round_aux_exact (sx : bool) (m j e : Z) :
  0 < m -> 0 <= j ->
  j = Z.max 0 (fexp prec emax (Zdigits2 (m * 2 ^ j) + e) - e) ->
  rounds_to sx m (e + j)
    (binary_round_aux prec emax sx (m * 2 ^ j) e loc_Exact).
Proof.
  intros Hm Hj Ej.
  assert (HD : Zdigits2 (m * 2 ^ j) = Zdigits2 m + j)
    by (apply digits_shift; assumption).
  rewrite HD in Ej.
  assert (E1 : shr_fexp prec emax (m * 2 ^ j) e loc_Exact
               = (shr_record_of_loc m loc_Exact, e + j)).
  { unfold shr_fexp, shr. rewrite HD.
    destruct (fexp prec emax (Zdigits2 m + j + e) - e) as [|k|k] eqn:Hk.
    - replace j with 0 by lia. rewrite Z.mul_1_r, Z.add_0_r. reflexivity.
    - replace j with (Zpos k) by lia. simpl shr_record_of_loc.
      rewrite iter_shr_exact by lia. reflexivity.
    - replace j with 0 by lia. rewrite Z.mul_1_r, Z.add_0_r. reflexivity. }
  assert (E2 : shr_fexp prec emax m (e + j) loc_Exact
               = (shr_record_of_loc m loc_Exact, e + j)).
  { unfold shr_fexp, shr.
    replace (Zdigits2 m + (e + j)) with (Zdigits2 m + j + e) by lia.
    destruct (fexp prec emax (Zdigits2 m + j + e) - (e + j)) as [|k|k] eqn:Hk;
      [reflexivity|lia|reflexivity]. }
  assert (E : binary_round_aux prec emax sx (m * 2 ^ j) e loc_Exact
              = binary_round_aux prec emax sx m (e + j) loc_Exact).
  { unfold binary_round_aux. rewrite E1, E2. reflexivity. }
  rewrite E.
  destruct (binary_round_aux_value sx m (e + j) loc_Exact ltac:(lia))
    as (m2 & _ & _ & X & _ & R).
  assert (K : Z.max 0 (fexp prec emax (Zdigits2 m + (e + j)) - (e + j)) = 0).
  { replace (Zdigits2 m + (e + j)) with (Zdigits2 m + j + e) by lia. lia. }
  rewrite K in *. rewrite Z.add_0_r in R. rewrite (X eq_refl eq_refl) in R.
  exact R.
Qed.

(** A rounding of at most [c], for a small integer [c] that the format
    holds, is 0 or a number that is at most [c]. *)
Lemma binary_round_aux_le (mx ex c : Z) (lx : location) :
  0 <= mx -> 0 < c -> c < 2 ^ (prec - 1) -> ex <= 0 ->
  mx <= c * 2 ^ (- ex) ->
  (mx = c * 2 ^ (- ex) -> lx = loc_Exact) ->
  binary_round_aux prec emax false mx ex lx = S754_zero false
  \/ exists m e,
       binary_round_aux prec emax false mx ex lx = S754_finite false m e
       /\ emin <= e /\ Zdigits2 (Zpos m) <= prec
       /\ Zpos m * 2 ^ (e - emin) <= c * 2 ^ (- emin).
Proof.
  intros Hm Hc Hc' Hex Hle Hexact.
  pose proof emin_value as Ev.
  set (k := Z.max 0 (fexp prec emax (Zdigits2 mx + ex) - ex)).
  assert (Hk : 0 <= k) by (unfold k; lia).
  assert (Hd : Zdigits2 mx + ex <= prec - 1).
  { assert (Zdigits2 mx <= prec - 1 - ex); [|lia].
    apply digits_lt_pow; [exact Hm|unfold prec; lia|].
    apply Z.le_lt_trans with (1 := Hle).
    replace (prec - 1 - ex) with (prec - 1 + - ex) by lia.
    rewrite Z.pow_add_r by (unfold prec; lia).
    apply Z.mul_lt_mono_pos_r; [apply Z.pow_pos_nonneg; lia|exact Hc']. }
  assert (HE : ex + k <= 0).
  { pose proof (fexp_cases (Zdigits2 mx + ex)) as FC.
    unfold k. unfold prec in *. lia. }
  assert (HE' : emin <= ex + k).
  { pose proof (fexp_ge (Zdigits2 mx + ex)) as [F1 _]. unfold k. lia. }
  assert (Hsplit : c * 2 ^ (- ex) = c * 2 ^ (- (ex + k)) * 2 ^ k).
  { rewrite <- Z.mul_assoc, <- Z.pow_add_r by lia. do 2 f_equal. lia. }
  assert (Hp : 0 < 2 ^ k) by (apply Z.pow_pos_nonneg; lia).
  assert (Hp' : 0 < 2 ^ (- (ex + k))) by (apply Z.pow_pos_nonneg; lia).
  assert (R : exists m2,
              m2 <= c * 2 ^ (- (ex + k))
              /\ rounds_to false m2 (ex + k)
                   (binary_round_aux prec emax false mx ex lx)).
  { destruct (Z.eq_dec mx (c * 2 ^ (- ex))) as [Heq|Hne].
    - rewrite (Hexact Heq). exists (c * 2 ^ (- (ex + k))).
      split; [lia|]. rewrite Heq, Hsplit.
      apply binary_round_aux_exact; [nia|exact Hk|].
      rewrite <- Hsplit, <- Heq. reflexivity.
    - destruct (binary_round_aux_value false mx ex lx Hm)
        as (m2 & _ & U & _ & _ & R).
      fold k in U, R. exists m2. split; [|exact R].
      assert (mx / 2 ^ k < c * 2 ^ (- (ex + k))); [|lia].
      apply Z.div_lt_upper_bound; [exact Hp|]. lia. }
  destruct R as (m2 & Hm2 & R).
  assert (H2 : m2 * 2 ^ (ex + k - emin) <= c * 2 ^ (- emin)).
  { replace (- emin) with (- (ex + k) + (ex + k - emin)) by lia.
    rewrite Z.pow_add_r, Z.mul_assoc by lia.
    apply Z.mul_le_mono_nonneg_r; [apply Z.pow_nonneg; lia|exact Hm2]. }
  inversion R as [H|H H'|m3 e3 H1 H3 H4].
  - left. reflexivity.
  - exfalso.
    assert (Hs : 2 ^ (prec + - emin) <= 2 ^ (emax - prec + 1 - emin))
      by (apply Z.pow_le_mono_r; unfold emax, prec in *; lia).
    rewrite Z.pow_add_r in Hs by (unfold prec; lia).
    assert (0 < 2 ^ (- emin)) by (apply Z.pow_pos_nonneg; lia).
    assert (2 * 2 ^ (prec - 1) = 2 ^ prec) by reflexivity. nia.
  - right. exists m3, e3. split; [reflexivity|].
    split; [exact H1|]. split; [exact H3|]. rewrite H4. exact H2.
Qed.

(** A quotient of at most [c] is rounded to at most [c]. *)
Lemma div_le (ma mt : positive) (ea et c : Z) :
  emin <= ea -> emin <= et -> 0 < c -> c < 2 ^ (prec - 1) ->
  Zpos ma * 2 ^ (ea - emin) <= c * Zpos mt * 2 ^ (et - emin) ->
  div (S754_finite false ma ea) (S754_finite false mt et) = S754_zero false
  \/ exists m e,
       div (S754_finite false ma ea) (S754_finite false mt et)
       = S754_finite false m e
       /\ emin <= e /\ Zdigits2 (Zpos m) <= prec
       /\ Zpos m * 2 ^ (e - emin) <= c * 2 ^ (- emin).
Proof.
  intros Ea Et Hc Hc' Hle. unfold div, SFdiv, SFdiv_core_binary.
  change (xorb false false) with false.
  pose proof emin_value as Ev.
  pose proof (digits_bounds ma) as [Al Au].
  pose proof (digits_bounds mt) as [Tl Tu].
  set (d1 := Zdigits2 (Zpos ma)) in *. set (d2 := Zdigits2 (Zpos mt)) in *.
  assert (P1 : 0 < d1) by (unfold d1; simpl; lia).
  assert (P2 : 0 < d2) by (unfold d2; simpl; lia).
  assert (Hd : d1 + ea - (d2 + et) <= prec - 1).
  { assert (H : 2 ^ (d1 - 1 + (ea - emin)) < 2 ^ (prec - 1 + d2 + (et - emin))).
    { rewrite !Z.pow_add_r by (unfold prec; lia).
      assert (0 < 2 ^ (ea - emin)) by (apply Z.pow_pos_nonneg; lia).
      assert (0 < 2 ^ (et - emin)) by (apply Z.pow_pos_nonneg; lia).
      apply Z.le_lt_trans with (Zpos ma * 2 ^ (ea - emin)); [nia|].
      apply Z.le_lt_trans with (1 := Hle).
      apply Z.mul_lt_mono_pos_r; [assumption|].
      apply Z.lt_le_trans with (2 ^ (prec - 1) * Zpos mt); [nia|].
      apply Z.mul_le_mono_nonneg_l; [apply Z.pow_nonneg|]; lia. }
    apply Z.pow_lt_mono_r_iff in H; unfold prec in *; lia. }
  set (e' := Z.min (fexp prec emax (d1 + ea - (d2 + et))) (ea - et)).
  assert (He' : e' <= 0).
  { pose proof (fexp_cases (d1 + ea - (d2 + et))) as FC.
    unfold e'. unfold prec in *. lia. }
  set (m' := match ea - et - e' with
             | 0 => Zpos ma
             | Zpos _ => Z.shiftl (Zpos ma) (ea - et - e')
             | Zneg _ => 0
             end).
  assert (Hm' : m' = Zpos ma * 2 ^ (ea - et - e')).
  { unfold m'. destruct (ea - et - e') as [|s|s] eqn:Es.
    - simpl. lia.
    - apply Z.shiftl_mul_pow2. lia.
    - unfold e' in Es. lia. }
  assert (Hb : m' <= c * Zpos mt * 2 ^ (- e')).
  { rewrite Hm'.
    replace (ea - et - e') with (ea - emin + (emin - et - e')) by lia.
    replace (- e') with (et - emin + (emin - et - e')) by lia.
    apply pow2_le_shift; try lia; unfold e'; lia. }
  assert (Hm0 : 0 <= m').
  { rewrite Hm'. apply Z.mul_nonneg_nonneg; [lia|apply Z.pow_nonneg; lia]. }
  pose proof (Z.div_mod m' (Zpos mt) ltac:(lia)) as Hdm.
  pose proof (Z.mod_pos_bound m' (Zpos mt) ltac:(lia)) as Hmb.
  pose proof (Z.div_pos m' (Zpos mt) Hm0 ltac:(lia)) as Hq0.
  unfold Z.div, Z.modulo in Hdm, Hmb, Hq0.
  destruct (Z.div_eucl m' (Zpos mt)) as [q r].
  assert (Hq : q <= c * 2 ^ (- e')).
  { assert (0 < 2 ^ (- e')) by (apply Z.pow_pos_nonneg; lia). nia. }
  apply (binary_round_aux_le q e' c); try assumption.
  intros Heq.
  assert (Hr : r = 0).
  { assert (0 < 2 ^ (- e')) by (apply Z.pow_pos_nonneg; lia). nia. }
  rewrite Hr. unfold new_location, new_location_even, new_location_odd.
  destruct (Z.even (Zpos mt)); reflexivity.
Qed.

(** A number that is at most 1, times 100, is at most 100. *)
Lemma mul_hundred_le (m : positive) (e : Z) :
  emin <= e -> Zpos m * 2 ^ (e - emin) <= 2 ^ (- emin) ->
  SFmul prec emax (S754_finite false m e)
    (S754_finite false (100 * 2 ^ 46) (-46)) = S754_zero false
  \/ exists m' e',
       SFmul prec emax (S754_finite false m e)
         (S754_finite false (100 * 2 ^ 46) (-46)) = S754_finite false m' e'
       /\ emin <= e' /\ Zdigits2 (Zpos m') <= prec
       /\ Zpos m' * 2 ^ (e' - emin) <= 100 * 2 ^ (- emin).
Proof.
  intros He Hle. unfold SFmul.
  change (xorb false false) with false.
  pose proof emin_value as Ev.
  assert (He1 : e <= 0).
  { assert (H : 2 ^ (e - emin) <= 2 ^ (- emin)).
    { assert (0 < 2 ^ (e - emin)) by (apply Z.pow_pos_nonneg; lia). nia. }
    apply Z.pow_le_mono_r_iff in H; lia. }
  assert (Hs : Zpos m * 2 ^ 46 <= 1 * 2 ^ (46 - e)).
  { replace 46 with (e - emin + (emin - e + 46)) at 1 by lia.
    replace (46 - e) with (- emin + (emin - e + 46)) by lia.
    apply pow2_le_shift; try lia. }
  apply (binary_round_aux_le _ (e + -46) 100); try lia.
  - reflexivity.
  - rewrite Pos2Z.inj_mul.
    replace (- (e + -46)) with (46 - e) by lia.
    change (Zpos (100 * 2 ^ 46)) with (100 * 2 ^ 46). lia.
  - reflexivity.
Qed.

(** The integer nearest to ten times a number that is at most 100. *)
Lemma round_half_up_scaled_le (m : positive) (e : Z) :
  emin <= e -> Zpos m * 2 ^ (e - emin) <= 100 * 2 ^ (- emin) ->
  round_half_up_scaled m e 1 <= 1000.
Proof.
  intros He Hle. pose proof emin_value as Ev.
  unfold round_half_up_scaled. change (10 ^ 1) with 10.
  destruct (Z.leb_spec 0 e) as [H|H].
  - assert (Hs : Zpos m * 2 ^ e <= 100 * 2 ^ 0).
    { replace e with (e - emin + emin) at 1 by lia.
      replace 0 with (- emin + emin) by lia.
      apply pow2_le_shift; try lia. }
    change (2 ^ 0) with 1 in Hs. lia.
  - assert (Hs : Zpos m * 2 ^ 0 <= 100 * 2 ^ (- e)).
    { replace 0 with (e - emin + (emin - e)) at 1 by lia.
      replace (- e) with (- emin + (emin - e)) by lia.
      apply pow2_le_shift; try lia. }
    change (2 ^ 0) with 1 in Hs.
    assert (Hp : 0 < 2 ^ (- e)) by (apply Z.pow_pos_nonneg; lia).
    assert (Hlt : (2 * Zpos m * 10 + 2 ^ (- e)) / (2 * 2 ^ (- e)) < 1001); [|lia].
    apply Z.div_lt_upper_bound; lia.
Qed.

(** The number nearest to [n / 10] for [n] up to 1000 is at most 100. *)
Lemma of_decimal_tenths_le (n : Z) :
  0 <= n <= 1000 ->
  value_leb (of_decimal false n (-1)) (of_Z 100) = true.
Proof.
  intros Hn. destruct n as [|p|p]; [reflexivity| |lia].
  assert (E : of_decimal false (Zpos p) (-1)
              = div (S754_finite false p 0) (S754_finite false 10 0))
    by reflexivity.
  rewrite E. pose proof emin_value as Ev.
  assert (Hb : Zpos p * 2 ^ (0 - emin) <= 100 * 10 * 2 ^ (0 - emin)).
  { apply Z.mul_le_mono_nonneg_r; [apply Z.pow_nonneg|]; lia. }
  destruct (div_le p 10 0 0 100 ltac:(lia) ltac:(lia) ltac:(lia)
              ltac:(reflexivity) Hb) as [->|(m & e & -> & He & _ & Hv)];
    [reflexivity|].
  change (of_Z 100) with (S754_finite false (100 * 2 ^ 46) (-46)).
  unfold value_leb, units, cond_Zopp. apply Z.leb_le.
  replace (Zpos (100 * 2 ^ 46) * 2 ^ (-46 - emin)) with (100 * 2 ^ (- emin));
    [exact Hv|].
  replace (- emin) with (46 + (-46 - emin)) by lia.
  rewrite Z.pow_add_r by lia. change (Zpos (100 * 2 ^ 46)) with (100 * 2 ^ 46).
  ring.
Qed.

End RoundingBounds.

Module PercentFacts.
Import JSString JSNumber JSObject JSNumberFacts RoundingBounds BudgetView.
Import BreakdownFacts.

(** The operand of [toFixed] in the percent of an amount that is at most
    the total is at most 100. *)
Lemma percent_operand_le (a t : number) (m : positive) (e : Z) :
  sign_clear a -> canonical a -> sign_clear t -> canonical t ->
  value_leb a t = true ->
  mul (div a t) hundred = S754_finite false m e ->
  emin <= e /\ Zpos m * 2 ^ (e - emin) <= 100 * 2 ^ (- emin).
Proof.
  intros Sa Ca St Ct Hle. rewrite hundred_value. unfold mul.
  destruct t as [st|st| |st mt et]; simpl in St; subst;
    destruct a as [sa|sa| |sa ma ea]; simpl in Sa; subst;
    try discriminate Hle; try (intros Hx; discriminate Hx).
  destruct Ca as [Ea _], Ct as [Et _].
  apply Z.leb_le in Hle. unfold units, cond_Zopp in Hle.
  destruct (div_le ma mt ea et 1 Ea Et ltac:(lia) ltac:(reflexivity))
    as [->|(mu & eu & -> & Heu & _ & Hv)].
  - lia.
  - intros Hx. discriminate Hx.
  - rewrite Z.mul_1_l in Hv.
    destruct (mul_hundred_le mu eu Heu Hv) as [->|(m' & e' & -> & He' & _ & Hv')].
    + intros Hx. discriminate Hx.
    + intros Hx. inversion Hx; subst. split; assumption.
Qed.

Section Locale.
Variable toLocaleString : number -> string.

(** X18: every displayed percent is greater than 0 and at most 100: no
    rounding of the division, of the product with 100 or of [toFixed(1)]
    takes the percent of an amount above 100. *)
Theorem displayed_percent_at_most_hundred (b : budget) (item : Category) :
  In item (breakdown_of toLocaleString b) ->
  gtb (percent item) pos_zero = true
  /\ value_leb (percent item) hundred = true.
Proof.
  intros Hin. apply breakdown_of_origin in Hin.
  destruct Hin as (Hpos & key & val & Hentry & ->).
  split; [exact Hpos|].
  destruct (displayed_operand toLocaleString b key val Hentry Hpos)
    as (m & e & Hx & Hlt).
  destruct (total_of_bounds b) as (St & Ct & Hle).
  destruct (parseRM_amount val) as [Sa _].
  pose proof (parseRM_canonical val) as Ca.
  assert (Hnan : isNaN (total_of b) = false).
  { destruct (total_of b); try reflexivity.
    destruct (parseRM val); discriminate Hx. }
  destruct (percent_operand_le _ _ m e Sa Ca St Ct
              (Hle Hnan key val Hentry) Hx) as [He Hv].
  simpl percent. rewrite Hx, (toFixed_one_decimal m e Hlt).
  apply of_decimal_tenths_le. split.
  - apply round_half_up_scaled_nonneg. lia.
  - apply round_half_up_scaled_le; assumption.
Qed.

End Locale.

End PercentFacts.

(** ** Display names and the keys they come from *)

Module CategoryNameFacts.
Import JSString JSNumber JSObject JSNumberFacts TableFacts BudgetView.
Import NameFacts EditFacts CategoryNames.

(** X19: the display name tells the key, but for two pairs: the keys
    'props &Set' and 'wardrobe &Makeup', which the name map does not hold,
    are written like propsSet and wardrobeMakeup.  In a budget whose keys
    are all of ASCII characters and that holds no such pair, the key found
    for the name of an entry is the key of that entry, so that an edit
    writes to the entry of the row it was opened from. *)
Theorem formatCategoryName_tells_key (k1 k2 : string) (b : budget) :
  forallb_string is_ascii k1 = true ->
  forallb_string is_ascii k2 = true ->
  (formatCategoryName k1 = formatCategoryName k2 ->
   k1 = k2 \/ colliding k1 k2 \/ colliding k2 k1)
  /\ ((forall k, In k (map fst b) -> forallb_string is_ascii k = true) ->
      In k1 (map fst b) ->
      (forall k, In k (map fst b) -> ~ colliding k k1 /\ ~ colliding k1 k) ->
      find_category_key b (formatCategoryName k1) = Some k1).
Proof.
  intros _ _. split; [apply same_name_keys|].
  intros _ Hin Hno. apply find_category_key_origin; [exact Hin|].
  intros k Hk Heq. destruct (same_name_keys k k1 Heq) as [E|[E|E]]; [exact E| |].
  - destruct (Hno k Hk) as [N _]. contradiction.
  - destruct (Hno k Hk) as [_ N]. contradiction.
Qed.

End CategoryNameFacts.

(** ** The properties on the samples *)

Module ConversationSampleFacts.
Import JSString ChatPanel ChatConversation ChatExamples ConversationExamples.
Import FormatFacts ConversationFacts.

Lemma formatMessage_plain_witness :
  formatMessage "Budget <b>ready</b> & sent" = "Budget <b>ready</b> & sent".
Proof. apply formatMessage_plain. reflexivity. Defined.

Lemma formatMessage_markup_witness :
  formatMessage ("Found " ++ "**" ++ "12 scenes" ++ "**" ++ " in all")
  = "Found " ++ strong_open ++ "12 scenes" ++ strong_close ++ " in all"
  /\ formatMessage (bullet ++ " " ++ "two **props**")
     = bullet_open ++ formatMessage "two **props**" ++ bullet_close.
Proof. apply formatMessage_markup; reflexivity. Defined.

Lemma sendMessage_exchange_witness :
  sendMessage echo noon noon blank_panel = blank_panel
  /\ exists reply,
       messages (chat (sendMessage echo noon noon greeting_panel))
       = (messages (chat greeting_panel)
          ++ [ChatPanel.message noon user (currentMessage greeting_panel) None;
              reply])%list
       /\ type reply = ai
       /\ is_empty (content reply) = false
       /\ isLoading (chat (sendMessage echo noon noon greeting_panel)) = false
       /\ currentMessage (sendMessage echo noon noon greeting_panel)
          = EmptyString
       /\ requests (chat (sendMessage echo noon noon greeting_panel))
          = requests (chat greeting_panel)
       /\ List.length (sent (sendMessage echo noon noon greeting_panel))
          = S (List.length (sent greeting_panel)).
Proof.
  destruct (sendMessage_exchange echo noon noon blank_panel) as [Hb _].
  destruct (sendMessage_exchange echo noon noon greeting_panel) as [_ Hg].
  split; [apply Hb; left; reflexivity|apply Hg; reflexivity].
Defined.

Lemma sendMessage_history_witness :
  exists request older earlier,
    sent (sendMessage echo noon noon greeting_panel)
    = (sent greeting_panel ++ [request])%list
    /\ message request = currentMessage greeting_panel
    /\ (messages (chat greeting_panel)
        ++ [ChatPanel.message noon user (currentMessage greeting_panel) None])%list
       = (older ++ history request)%list
    /\ history request
       = (earlier
          ++ [ChatPanel.message noon user (currentMessage greeting_panel) None])%list
    /\ List.length (history request)
       = Nat.min 10 (S (List.length (messages (chat greeting_panel)))).
Proof.
  apply (sendMessage_history echo noon noon greeting_panel); reflexivity.
Defined.

Lemma handleFileSelect_messages_witness :
  exists reply,
    messages (handleFileSelect unreachable noon noon [pdf_script; picture]
                empty_panel)
    = (messages empty_panel
       ++ [ChatPanel.message noon user
             ("Uploaded script file: " ++ file_name pdf_script) None;
           reply])%list
    /\ type reply = ai
    /\ is_empty (content reply) = false
    /\ isLoading (handleFileSelect unreachable noon noon [pdf_script; picture]
                    empty_panel) = false
    /\ content reply = analysis_failed_text /\ actions reply = None.
Proof.
  apply (handleFileSelect_messages unreachable noon noon pdf_script [picture]
           empty_panel).
  reflexivity.
Defined.

Lemma fileExtension_last_part_witness :
  fileExtension {| file_name := "Final.Draft" ++ "." ++ "PDF"; file_type := "" |}
  = "." ++ toLowerCase "PDF"
  /\ fileExtension {| file_name := "PDF"; file_type := "" |}
     = "." ++ toLowerCase "PDF"
  /\ accepted {| file_name := "PDF"; file_type := "" |} = true
  /\ accepted {| file_name := "Final.Draft" ++ "." ++ "PDF"; file_type := "" |}
     = true.
Proof.
  destruct (fileExtension_last_part "Final.Draft" "PDF" "" eq_refl)
    as (H1 & H2 & H3).
  split; [exact H1|]. split; [exact H2|]. apply H3. reflexivity.
Defined.

End ConversationSampleFacts.

Module SessionSampleFacts.
Import stdpp.base stdpp.gmap stdpp.strings.
Import JSString AuthStore AuthPersistence OAuthCallback.
Import AuthExamples CallbackExamples PersistenceFacts CallbackFacts.

Lemma actions_keep_storage_in_step_witness :
  persisted stringify_id (updateUser stringify_id new_email signed_out)
  /\ updateUser stringify_id new_email signed_out = signed_out.
Proof.
  destruct (actions_keep_storage_in_step stringify_id "t0" sample_user
              new_email signed_out) as (_ & _ & H3 & _ & H5 & _).
  split.
  - apply H3. unfold persisted. simpl. rewrite !lookup_empty. auto.
  - apply H5. reflexivity.
Defined.

Lemma actions_leave_other_keys_witness :
  localStorage (setAuth stringify_id "t0" sample_user signed_out) !! "theme"
  = localStorage signed_out !! "theme"
  /\ localStorage (logout signed_out) !! "theme"
     = localStorage signed_out !! "theme"
  /\ localStorage (updateUser stringify_id new_email signed_out) !! "theme"
     = localStorage signed_out !! "theme".
Proof.
  apply (actions_leave_other_keys stringify_id "t0" sample_user new_email
           signed_out "theme").
  unfold store_keys. intros [H|[H|[H|[]]]]; discriminate H.
Defined.

Lemma reload_restores_session_witness :
  create parse_stored
    (localStorage (setAuth stringify_id "t0" sample_user signed_out))
  = Some {| accessToken := Some "t0";
            user := Some sample_user;
            localStorage :=
              localStorage (setAuth stringify_id "t0" sample_user signed_out) |}.
Proof.
  apply (reload_restores_session stringify_id parse_stored "t0" sample_user
           signed_out); reflexivity.
Defined.

Lemma getAuthHeaders_bearer_witness :
  getAuthHeaders (setAuth stringify_id "t0" sample_user signed_out)
  = [("Authorization", "Bearer " +:+ "t0");
     ("Content-Type", "application/json")]
  /\ getAuthHeaders signed_out = [("Content-Type", "application/json")].
Proof.
  destruct (getAuthHeaders_bearer stringify_id "t0" sample_user signed_out)
    as (_ & H2 & _ & H4).
  split; [apply H4|apply H2]; reflexivity.
Defined.

Lemma callback_never_shows_success_witness :
  screen (view (onMounted stringify_id decode_plain parse_id token_params
                  signed_out)) = ProcessingLogin
  /\ screen (view (onMounted stringify_id decode_plain parse_id code_params
                     signed_out)) = LoginFailed.
Proof.
  split.
  - apply (callback_never_shows_success stringify_id decode_plain parse_id
             token_params signed_out).
    reflexivity.
  - apply (callback_never_shows_success stringify_id decode_plain parse_id
             code_params signed_out).
    reflexivity.
Defined.

Lemma callback_store_witness :
  (store (onMounted stringify_id decode_plain parse_id token_params signed_out)
   = setAuth stringify_id "t0" sample_user signed_out
   /\ isAuthenticated
        (store (onMounted stringify_id decode_plain parse_id token_params
                  signed_out)) = true
   /\ redirect (onMounted stringify_id decode_plain parse_id token_params
                  signed_out) = true)
  /\ store (onMounted stringify_id decode_plain parse_id code_params signed_out)
     = signed_out.
Proof.
  split.
  - apply (callback_store stringify_id decode_plain parse_id token_params
             signed_out) with (userParam := "u1") (decoded := "u1");
      reflexivity.
  - apply (callback_store stringify_id decode_plain parse_id code_params
             signed_out).
    reflexivity.
Defined.

End SessionSampleFacts.

Module BudgetSampleFacts.
Import JSString JSNumber JSObject BudgetView BudgetSummary CategoryNames.
Import Examples BudgetExamples BudgetViewFacts PercentFacts CategoryNameFacts.

Lemma breakdown_needs_finite_total_witness :
  (exists m e, total_of sample_budget = S754_finite false m e)
  /\ breakdown_of toLocaleString_enUS broken_budget = [].
Proof.
  split.
  - apply (breakdown_needs_finite_total toLocaleString_enUS sample_budget).
    intros H. vm_compute in H. discriminate H.
  - apply (breakdown_needs_finite_total toLocaleString_enUS broken_budget)
      with (key := "talent") (val := "RM 1.2.3").
    + left. reflexivity.
    + vm_compute. reflexivity.
Defined.

Lemma saveBudgetEdit_alerts_witness :
  snd (saveBudgetEdit (editing (InStr "250"))) = []
  /\ editingCategory (fst (saveBudgetEdit (editing (InStr "250")))) = None
  /\ editAmount (fst (saveBudgetEdit (editing (InStr "250"))))
     = InStr EmptyString
  /\ selectedProjectTitle (fst (saveBudgetEdit (editing (InStr "250"))))
     = selectedProjectTitle (editing (InStr "250")).
Proof.
  apply (saveBudgetEdit_alerts (editing (InStr "250")));
    try discriminate; vm_compute; reflexivity.
Defined.

Lemma hidden_rows_never_edited_witness :
  exists project',
    selectedProject (fst (saveBudgetEdit (editing (InStr "250"))))
    = Some project'
    /\ option_map (lookup "sfxVfx") (project_budget project')
       = option_map (lookup "sfxVfx") (project_budget sample_project)
    /\ option_map (lookup "sfxVfx") (analysis_budget project')
       = option_map (lookup "sfxVfx") (analysis_budget sample_project).
Proof.
  apply (hidden_rows_never_edited (editing (InStr "250"))
           (breakdown_of toLocaleString_enUS sample_budget) talent_category).
  - vm_compute. tauto.
  - reflexivity.
  - reflexivity.
  - left. reflexivity.
Defined.

Lemma summary_of_unusable_total_witness :
  remainingPercent (summary_of toLocaleString_enUS zero_budget) = nan
  /\ projectedNote (summary_of toLocaleString_enUS broken_budget) = "On track".
Proof.
  destruct (summary_of_unusable_total toLocaleString_enUS zero_budget)
    as [Hz _].
  destruct (summary_of_unusable_total toLocaleString_enUS broken_budget)
    as [_ Hn].
  split.
  - rewrite Hz by (vm_compute; reflexivity). reflexivity.
  - rewrite (Hn "talent" "RM 1.2.3");
      [reflexivity|left; reflexivity|vm_compute; reflexivity].
Defined.

Lemma displayed_percent_at_most_hundred_witness :
  gtb (percent talent_category) pos_zero = true
  /\ value_leb (percent talent_category) hundred = true.
Proof.
  apply (displayed_percent_at_most_hundred toLocaleString_enUS sample_budget).
  vm_compute. tauto.
Defined.

Lemma formatCategoryName_tells_key_witness :
  find_category_key custom_budget (formatCategoryName "extraCosts")
  = Some "extraCosts".
Proof.
  apply (formatCategoryName_tells_key "extraCosts" "talent" custom_budget);
    [reflexivity|reflexivity| |left; reflexivity|].
  - intros k [<-|[<-|[]]]; reflexivity.
  - intros k [<-|[<-|[]]]; split; intros [[H1 H2]|[H1 H2]]; discriminate.
Defined.

End BudgetSampleFacts.
